(** * Form submission handlers of thetechbros-site: a shallow embedding

    The site has four POST handlers that follow one pipeline (parse,
    honeypot, validation, rate limit, configuration, store write,
    notifications), each written out in full in its own file:

    - [src/pages/api/community-apply.ts]: module [CommunityApply].  The
      file also holds an earlier revision of the handler, the same pipeline
      without notifications; the embedding follows the later one.
    - the newsletter signup that asks for an email only (the second handler
      of [src/pages/api/newsletter/debug.ts]): module [Newsletter].
    - the newsletter signup that also asks for first and last name:
      module [NewsletterNamed].
    - [src/pages/api/merch/waitlist.ts]: module [MerchWaitlist].

    The earlier revision of the application handler
    ([CommunityApplyEarlier]), the configuration probe at the head of
    [newsletter/debug.ts] ([NewsletterDebug]) and the handlers of the
    other methods come after the four, with the properties that go beyond
    the claims of the specification at the end of the file.

    Conventions of the embedding.

    - A JavaScript string is a [string]; every [ascii] is one UTF-16 code
      unit below 256, so the model covers strings of Latin-1 code units.
      On that range [String.prototype.trim], the regular expression class
      [\s] and [toLowerCase] are written out exactly.
    - A parsed JSON value is a [JSON] tree; JSON numbers are restricted
      to integers.  Property access, truthiness, [typeof] and the
      conversion [String(v)] follow ECMAScript; the conversion throws on an
      object that has a [toString] property of its own.
    - A handler is a computation in the monad [M]: it reads the outside
      world ([Ext]: environment variables, clock, what each [fetch]
      answers), threads the process state ([World]: the rate-limit map and
      the trace of outbound calls and log lines) and either returns a
      [Response] or throws.  An exception that leaves a handler is a
      [Throw] outcome; the framework around the handler is not modelled.
    - Of an outbound call the trace keeps the target, the URL and, for the
      two stores, the JSON body; request headers, and the text of the chat
      message and of the confirmation email, are not modelled.
    - [new URL(_).origin], [encodeURIComponent] and the text that
      [String(n)] gives for a number [n] are parameters of the application
      handler. *)

From Stdlib Require Import ZArith String Ascii List Bool Lia.
From stdpp Require Import base option list strings gmap pretty.

Local Open Scope Z_scope.

(** ** JavaScript strings *)

Module JS.

(** Code unit of a character. *)
Definition code (c : ascii) : N := N_of_ascii c.

(** ECMAScript WhiteSpace and LineTerminator code units below 256:
    TAB, LF, VT, FF, CR, SP and NBSP.  This is both what [trim] strips and
    what [\s] matches. *)
Definition is_space (c : ascii) : bool :=
  let n := code c in
  ((9 <=? n) && (n <=? 13) || (n =? 32) || (n =? 160))%N.

Fixpoint trimStart (s : string) : string :=
  match s with
  | EmptyString => EmptyString
  | String c s' => if is_space c then trimStart s' else s
  end.

Definition is_empty (s : string) : bool :=
  match s with EmptyString => true | _ => false end.

Fixpoint trimEnd (s : string) : string :=
  match s with
  | EmptyString => EmptyString
  | String c s' =>
      let t := trimEnd s' in
      if is_space c && is_empty t then EmptyString else String c t
  end.

(** [s.trim()] *)
Definition trim (s : string) : string := trimEnd (trimStart s).

(** [s.startsWith(p)] *)
Fixpoint startsWith (p s : string) : bool :=
  match p, s with
  | EmptyString, _ => true
  | String a p', String b s' => Ascii.eqb a b && startsWith p' s'
  | String _ _, EmptyString => false
  end.

(** [s.includes(p)] *)
Fixpoint includes (p s : string) : bool :=
  startsWith p s ||
  match s with
  | EmptyString => false
  | String _ s' => includes p s'
  end.

(** [toLowerCase] on one code unit: A-Z, and the Latin-1 capitals
    U+00C0..U+00DE except the multiplication sign U+00D7. *)
Definition lower_char (c : ascii) : ascii :=
  let n := code c in
  if ((65 <=? n) && (n <=? 90) ||
      (192 <=? n) && (n <=? 222) && negb (n =? 215))%N
  then ascii_of_N (n + 32) else c.

Fixpoint toLowerCase (s : string) : string :=
  match s with
  | EmptyString => EmptyString
  | String c s' => String (lower_char c) (toLowerCase s')
  end.

(** [s.split(sep)[0]] for a one-character separator: the text before the
    first separator, the whole string when there is none. *)
Fixpoint split_head (sep : ascii) (s : string) : string :=
  match s with
  | EmptyString => EmptyString
  | String c s' => if Ascii.eqb c sep then EmptyString else String c (split_head sep s')
  end.

(** [s.substring(0, n)] *)
Fixpoint substring0 (n : nat) (s : string) : string :=
  match n, s with
  | O, _ => EmptyString
  | S n', String c s' => String c (substring0 n' s')
  | S _, EmptyString => EmptyString
  end.

(** Truthiness of a string: every string but the empty one. *)
Definition truthy_str (s : string) : bool := negb (is_empty s).

End JS.

(** ** Regular expressions

    The handlers use one regular expression literal (in [isValidEmail]).
    The fragment embedded here has what that literal uses: a literal
    character, a negated class whose items are characters and [\s], [+]
    and concatenation.  [test] on a pattern anchored with [^] and [$] is
    a match of the whole string, decided by derivatives. *)

Module Regex.

Inductive class_item : Type :=
| CChar (c : ascii)      (* a character  *)
| CSpace.                (* \s           *)

Definition item_matches (i : class_item) (c : ascii) : bool :=
  match i with
  | CChar a => Ascii.eqb a c
  | CSpace => JS.is_space c
  end.

Definition in_class (items : list class_item) (c : ascii) : bool :=
  existsb (fun i => item_matches i c) items.

Inductive regex : Type :=
| Void                                  (* matches nothing *)
| Eps                                   (* the empty string *)
| Lit (c : ascii)                       (* c  *)
| NegSet (items : list class_item)      (* [^...] *)
| Seq (r1 r2 : regex)                   (* r1r2 *)
| Alt (r1 r2 : regex)                   (* r1|r2 *)
| Star (r : regex).                     (* r*  *)

(** [r+] *)
Definition Plus (r : regex) : regex := Seq r (Star r).

(** The language of a regular expression. *)
Inductive lang : regex -> string -> Prop :=
| lang_eps : lang Eps EmptyString
| lang_lit c : lang (Lit c) (String c EmptyString)
| lang_neg items c :
    in_class items c = false -> lang (NegSet items) (String c EmptyString)
| lang_seq r1 r2 s1 s2 :
    lang r1 s1 -> lang r2 s2 -> lang (Seq r1 r2) (s1 +:+ s2)
| lang_alt_l r1 r2 s : lang r1 s -> lang (Alt r1 r2) s
| lang_alt_r r1 r2 s : lang r2 s -> lang (Alt r1 r2) s
| lang_star_nil r : lang (Star r) EmptyString
| lang_star_cons r s1 s2 :
    lang r s1 -> lang (Star r) s2 -> lang (Star r) (s1 +:+ s2).

Fixpoint nullable (r : regex) : bool :=
  match r with
  | Void => false
  | Eps => true
  | Lit _ => false
  | NegSet _ => false
  | Seq r1 r2 => nullable r1 && nullable r2
  | Alt r1 r2 => nullable r1 || nullable r2
  | Star _ => true
  end.

Fixpoint deriv (c : ascii) (r : regex) : regex :=
  match r with
  | Void => Void
  | Eps => Void
  | Lit a => if Ascii.eqb a c then Eps else Void
  | NegSet items => if in_class items c then Void else Eps
  | Seq r1 r2 =>
      if nullable r1
      then Alt (Seq (deriv c r1) r2) (deriv c r2)
      else Seq (deriv c r1) r2
  | Alt r1 r2 => Alt (deriv c r1) (deriv c r2)
  | Star r1 => Seq (deriv c r1) (Star r1)
  end.

(** [matches r s]: the whole of [s] is in the language of [r]. *)
Fixpoint matches (r : regex) (s : string) : bool :=
  match s with
  | EmptyString => nullable r
  | String c s' => matches (deriv c r) s'
  end.

(** [/^r$/.test(s)] *)
Definition test (r : regex) (s : string) : bool := matches r s.

End Regex.

(** [/^[^\s@]+@[^\s@]+\.[^\s@]+$/] *)
Definition not_space_at : Regex.regex :=
  Regex.NegSet [Regex.CSpace; Regex.CChar "@"%char].

Definition email_regex : Regex.regex :=
  Regex.Seq (Regex.Plus not_space_at)
    (Regex.Seq (Regex.Lit "@"%char)
       (Regex.Seq (Regex.Plus not_space_at)
          (Regex.Seq (Regex.Lit "."%char) (Regex.Plus not_space_at)))).

(** [isValidEmail] is the same function in the merch and in both newsletter
    handlers. *)
Definition isValidEmail (email : string) : bool :=
  Regex.test email_regex email.

(** ** JSON values and the JavaScript operations the handlers apply to them *)

#[warnings="-register-all"]
Inductive JSON : Type :=
| JNull
| JBool (b : bool)
| JNum (n : Z)
| JStr (s : string)
| JArr (items : list JSON)
| JObj (fields : list (string * JSON)).

(** A JavaScript value read from parsed JSON: [None] is [undefined]. *)
Abbreviation JSValue := (option JSON).

Module Value.

(** Own property of an object, [undefined] when absent.  The list is the
    object as parsed, each key once.  Strings, numbers, booleans and arrays
    have none of the property names the handlers read, so the lookup is
    [undefined] on them. *)
Fixpoint lookup_field (k : string) (fields : list (string * JSON)) : JSValue :=
  match fields with
  | [] => None
  | (k', v) :: rest => if String.eqb k k' then Some v else lookup_field k rest
  end.

Definition get (k : string) (v : JSON) : JSValue :=
  match v with
  | JObj fields => lookup_field k fields
  | _ => None
  end.

(** ToBoolean *)
Definition truthy (v : JSValue) : bool :=
  match v with
  | None => false
  | Some JNull => false
  | Some (JBool b) => b
  | Some (JNum n) => negb (n =? 0)
  | Some (JStr s) => JS.truthy_str s
  | Some (JArr _) => true
  | Some (JObj _) => true
  end.

(** [typeof v === 'string'] *)
Definition is_string (v : JSValue) : bool :=
  match v with Some (JStr _) => true | _ => false end.

(** [v?.k]: [undefined] on a nullish value, the property otherwise. *)
Definition opt_get (k : string) (v : JSValue) : JSValue :=
  match v with
  | None | Some JNull => None
  | Some j => get k j
  end.

(** [!v || typeof v !== 'string' || v.trim().length === 0], the test the
    handlers apply to a required text field.  The third disjunct is only
    evaluated on a string. *)
Definition missing_text (v : JSValue) : bool :=
  negb (truthy v) || negb (is_string v) ||
  match v with
  | Some (JStr s) => (String.length (JS.trim s) =? 0)%nat
  | _ => false
  end.

(** [v.includes(p)], evaluated only once [v] is known to be a string. *)
Definition str_includes (p : string) (v : JSValue) : bool :=
  match v with
  | Some (JStr s) => JS.includes p s
  | _ => false
  end.

End Value.

(** ** Responses, outbound calls and the handler monad *)

(** [new Response(JSON.stringify(body), {status})]; the body is kept as the
    JSON value that is serialised. *)
Record Response : Type := mkResponse {
  status : Z;
  body : JSON
}.

Inductive Target : Type :=
| Airtable          (* record store of the application and merch forms *)
| EmailOctopus      (* contact list of the newsletter forms *)
| Slack             (* chat webhook *)
| Resend.           (* transactional email *)

(** What a [fetch] resolves to.  [resp_text] and [resp_json] are what
    [response.text()] and [response.json()] resolve to, [None] when they
    reject. *)
Record FetchResponse : Type := mkFetchResponse {
  resp_status : Z;
  resp_statusText : string;
  resp_text : option string;
  resp_json : option JSON
}.

(** [response.ok] *)
Definition resp_ok (r : FetchResponse) : bool :=
  (200 <=? resp_status r) && (resp_status r <=? 299).

Inductive FetchResult : Type :=
| NetworkError                      (* the promise rejects *)
| Responds (r : FetchResponse).

Inductive Exn : Type :=
| TypeError (what : string)
| FetchFailed
| BodyUnreadable.

Inductive LogLevel : Type := LogInfo | LogWarn | LogError.

(** The observable effects of a handler, in order.  For the two
    notification targets the message text is not part of the model (the
    payload is [None]); for the store writes it is the JSON body sent. *)
Inductive Event : Type :=
| Fetch (t : Target) (url : string) (payload : option JSON)
| Console (level : LogLevel) (label : string) (data : list JSON).

Record RateRecord : Type := mkRate {
  count : Z;
  resetAt : Z
}.

(** The state of the server process. *)
Record World : Type := mkWorld {
  rateLimitMap : gmap string RateRecord;   (* the module-level Map *)
  trace : list Event                       (* effects so far, oldest first *)
}.

(** What a request sees of the outside. *)
Record Ext : Type := mkExt {
  process_env : gmap string string;        (* process.env *)
  import_meta_env : gmap string string;    (* import.meta.env *)
  PROD : bool;                             (* import.meta.env.PROD *)
  now : Z;                                 (* Date.now() *)
  net : Target -> FetchResult              (* answer of each upstream *)
}.

Inductive Result (A : Type) : Type :=
| Val (a : A)
| Throw (e : Exn).
Arguments Val {A} a.
Arguments Throw {A} e.

Definition M (A : Type) : Type := Ext -> World -> Result A * World.

Global Instance M_ret : MRet M := fun A a _ w => (Val a, w).

Global Instance M_bind : MBind M := fun A B f m ext w =>
  match m ext w with
  | (Val a, w') => f a ext w'
  | (Throw e, w') => (Throw e, w')
  end.

Definition bind {A B : Type} (m : M A) (f : A -> M B) : M B := mbind f m.

Notation "x <- m ;; k" := (bind m (fun x => k))
  (at level 100, m at next level, right associativity, only parsing).

Definition throw {A : Type} (e : Exn) : M A := fun _ w => (Throw e, w).

(** [try { m } catch (error) { handler error }] *)
Definition try_catch {A : Type} (m : M A) (handler : Exn -> M A) : M A :=
  fun ext w =>
    match m ext w with
    | (Val a, w') => (Val a, w')
    | (Throw e, w') => handler e ext w'
    end.

Definition ask : M Ext := fun ext w => (Val ext, w).

Definition emit (e : Event) : M unit :=
  fun _ w => (Val tt, mkWorld (rateLimitMap w) (trace w ++ [e])).

Definition console (level : LogLevel) (label : string) (data : list JSON) : M unit :=
  emit (Console level label data).

(** [await fetch(url, {method: 'POST', body})] *)
Definition fetch (t : Target) (url : string) (payload : option JSON) : M FetchResponse :=
  emit (Fetch t url payload) ;;
  ext <- ask ;;
  match net ext t with
  | NetworkError => throw FetchFailed
  | Responds r => mret r
  end.

(** [await response.text()] and [await response.json()] *)
Definition text (r : FetchResponse) : M string :=
  match resp_text r with
  | Some s => mret s
  | None => throw BodyUnreadable
  end.

Definition json (r : FetchResponse) : M JSON :=
  match resp_json r with
  | Some j => mret j
  | None => throw BodyUnreadable
  end.

(** [body.k]: a TypeError on [null], the property otherwise. *)
Definition prop (v : JSON) (k : string) : M JSValue :=
  match v with
  | JNull => throw (TypeError "Cannot read properties of null")
  | _ => mret (Value.get k v)
  end.

(** [v.trim()] on a value already known to be truthy: a TypeError unless
    it is a string. *)
Definition call_trim (v : JSValue) : M string :=
  match v with
  | Some (JStr s) => mret (JS.trim s)
  | _ => throw (TypeError "trim is not a function")
  end.

(** The outcome of a conversion to a primitive value: a TypeError when
    the conversion fails. *)
Definition converted {A : Type} (v : option A) : M A :=
  match v with
  | Some a => mret a
  | None => throw (TypeError "Cannot convert object to primitive value")
  end.

(** Truthiness of a value that is a string or [undefined] (an environment
    variable, a header, an optional trimmed field): set and not empty. *)
Definition present (v : option string) : bool :=
  match v with
  | Some s => JS.truthy_str s
  | None => false
  end.

(** The string itself, once [present] has been tested. *)
Definition value_of (v : option string) : string := default EmptyString v.

(** The inbound request: headers (names in lower case, as [Headers.get]
    looks them up), the origin of the URL it was sent to, and what
    [request.json()] resolves to ([None] when it rejects). *)
Record Request : Type := mkRequest {
  headers : gmap string string;
  url_origin : string;
  req_json : option JSON
}.

Definition respond (st : Z) (b : JSON) : M Response := mret (mkResponse st b).

Definition success_true : JSON := JObj [("success", JBool true)].
Definition failure (msg : string) : JSON :=
  JObj [("success", JBool false); ("error", JStr msg)].

(** The honeypot test of the newsletter and merch handlers:
    [body.company && body.company.trim().length > 0]. *)
Definition honeypot (body : JSON) : M bool :=
  company <- prop body "company" ;;
  if Value.truthy company
  then t <- call_trim company ;; mret (0 <? String.length t)%nat
  else mret false.

(** ** The rate limiter of the newsletter handlers

    [checkRateLimit] and its two constants are the same text in both
    newsletter files; each file has a [rateLimitMap] of its own, which is
    the one of the [World] the handler runs in. *)

Module RateLimit.

(** Rate limit: 5 requests per IP per minute *)
Definition RATE_LIMIT_REQUESTS : Z := 5.
Definition RATE_LIMIT_WINDOW_MS : Z := 60 * 1000.

Definition Date_now : M Z := fun ext w => (Val (now ext), w).

Definition rateLimitMap_get (ip : string) : M (option RateRecord) :=
  fun _ w => (Val (rateLimitMap w !! ip), w).

Definition rateLimitMap_set (ip : string) (r : RateRecord) : M unit :=
  fun _ w => (Val tt, mkWorld (<[ip := r]> (rateLimitMap w)) (trace w)).

Definition checkRateLimit (ip : string) : M bool :=
  now <- Date_now ;;
  record <- rateLimitMap_get ip ;;
  match record with
  | None =>
      (* New window *)
      rateLimitMap_set ip (mkRate 1 (now + RATE_LIMIT_WINDOW_MS)) ;;
      mret true
  | Some record =>
      if now >? resetAt record then
        (* expired window *)
        rateLimitMap_set ip (mkRate 1 (now + RATE_LIMIT_WINDOW_MS)) ;;
        mret true
      else if count record >=? RATE_LIMIT_REQUESTS then
        mret false (* Rate limit exceeded *)
      else
        (* record.count++ on the object held by the map *)
        rateLimitMap_set ip (mkRate (count record + 1) (resetAt record)) ;;
        mret true
  end.

(** [request.headers.get('x-forwarded-for')?.split(',')[0] ||
     request.headers.get('x-real-ip') || 'unknown'] *)
Definition clientIp (request : Request) : string :=
  let forwarded := JS.split_head ","%char <$> (headers request !! "x-forwarded-for") in
  if present forwarded then value_of forwarded
  else
    let real := headers request !! "x-real-ip" in
    if present real then value_of real else "unknown".

End RateLimit.

(** ** Newsletter signup: what both variants share *)

Module EmailOctopusApi.

Definition contacts_url (listId : string) : string :=
  "https://emailoctopus.com/api/1.6/lists/" +:+ listId +:+ "/contacts".

(** [responseData?.error?.message?.toLowerCase() || ''] *)
Definition errorMessage (responseData : JSON) : M string :=
  match Value.opt_get "message" (Value.opt_get "error" (Some responseData)) with
  | None | Some JNull => mret EmptyString
  | Some (JStr s) => mret (JS.toLowerCase s)
  | Some _ => throw (TypeError "toLowerCase is not a function")
  end.

Definition already_on_list (errorMessage : string) : bool :=
  JS.includes "already subscribed" errorMessage ||
  JS.includes "already pending" errorMessage ||
  JS.includes "is already on the list" errorMessage.

End EmailOctopusApi.

(** ** Newsletter signup, minimal variant *)

Module Newsletter.

Definition POST (request : Request) : M Response :=
  match req_json request with
  | None => respond 400 (failure "Invalid JSON")
  | Some body =>
    bot <- honeypot body ;;
    if bot then respond 200 success_true else
    (* Validate email *)
    body_email <- prop body "email" ;;
    if negb (Value.truthy body_email) || negb (Value.is_string body_email) then
      respond 400 (failure "Email is required")
    else
    email <- call_trim body_email ;;
    if negb (isValidEmail email) then
      respond 400 (failure "Invalid email format")
    else
    (* Rate limiting *)
    allowed <- RateLimit.checkRateLimit (RateLimit.clientIp request) ;;
    if negb allowed then
      respond 429 (failure "Too many requests. Please try again later.")
    else
    (* Check environment variables *)
    ext <- ask ;;
    let apiKey := import_meta_env ext !! "EMAILOCTOPUS_API_KEY" in
    let listId := import_meta_env ext !! "EMAILOCTOPUS_LIST_ID" in
    if negb (present apiKey) || negb (present listId) then
      console LogError "Missing EmailOctopus environment variables" [] ;;
      respond 500 (failure "Server configuration error")
    else
    (* Call EmailOctopus API *)
    try_catch
      (response <- fetch EmailOctopus
           (EmailOctopusApi.contacts_url (value_of listId))
           (Some (JObj [("api_key", JStr (value_of apiKey));
                        ("email_address", JStr email);
                        ("fields", JObj [("SignupSource", JStr "website_newsletter")])])) ;;
       responseData <- json response ;;
       if resp_ok response then respond 200 success_true else
       errorMessage <- EmailOctopusApi.errorMessage responseData ;;
       if EmailOctopusApi.already_on_list errorMessage then
         respond 200 success_true
       else
       (* Other errors *)
       let isProduction := PROD ext in
       let errorResponse :=
         if isProduction
         then failure "Failed to subscribe. Please try again later."
         else JObj [("success", JBool false);
                    ("error", JStr "EmailOctopus API request failed. Check upstreamStatus and upstreamBody for details.");
                    ("upstreamStatus", JNum (resp_status response));
                    ("upstreamBody", responseData)] in
       console LogError "EmailOctopus API error:"
         [JObj [("status", JNum (resp_status response));
                ("statusText", JStr (resp_statusText response))]] ;;
       respond 500 errorResponse)
      (fun error =>
         console LogError "Error calling EmailOctopus API:" [] ;;
         respond 500 (failure "Internal server error"))
  end.

End Newsletter.

(** ** Newsletter signup, name-qualified variant *)

Module NewsletterNamed.

Definition POST (request : Request) : M Response :=
  match req_json request with
  | None => respond 400 (failure "Invalid JSON")
  | Some body =>
    bot <- honeypot body ;;
    if bot then respond 200 success_true else
    (* Validate email *)
    body_email <- prop body "email" ;;
    if negb (Value.truthy body_email) || negb (Value.is_string body_email) then
      respond 400 (failure "Email is required")
    else
    email <- call_trim body_email ;;
    if negb (isValidEmail email) then
      respond 400 (failure "Invalid email format")
    else
    (* Require both first and last name *)
    body_firstName <- prop body "firstName" ;;
    if Value.missing_text body_firstName then
      respond 400 (failure "First name is required")
    else
    body_lastName <- prop body "lastName" ;;
    if Value.missing_text body_lastName then
      respond 400 (failure "Last name is required")
    else
    firstName <- call_trim body_firstName ;;
    lastName <- call_trim body_lastName ;;
    (* Rate limiting *)
    allowed <- RateLimit.checkRateLimit (RateLimit.clientIp request) ;;
    if negb allowed then
      respond 429 (failure "Too many requests. Please try again later.")
    else
    (* Check environment variables *)
    ext <- ask ;;
    let apiKey := import_meta_env ext !! "EMAILOCTOPUS_API_KEY" in
    let listId := import_meta_env ext !! "EMAILOCTOPUS_LIST_ID" in
    if negb (present apiKey) || negb (present listId) then
      console LogError "Missing EmailOctopus environment variables" [] ;;
      respond 500 (failure "Server configuration error")
    else
    (* Call EmailOctopus API *)
    try_catch
      (response <- fetch EmailOctopus
           (EmailOctopusApi.contacts_url (value_of listId))
           (Some (JObj [("api_key", JStr (value_of apiKey));
                        ("email_address", JStr email);
                        ("status", JStr "SUBSCRIBED");
                        ("fields", JObj [("FirstName", JStr firstName);
                                         ("LastName", JStr lastName);
                                         ("SignupSource", JStr "website_newsletter")])])) ;;
       (* Parse response body as JSON on both success and failure *)
       responseData <- json response ;;
       if resp_ok response then respond 200 success_true else
       errorMessage <- EmailOctopusApi.errorMessage responseData ;;
       if EmailOctopusApi.already_on_list errorMessage then
         respond 200 success_true
       else
       (* Other errors *)
       respond 500 (failure "Server configuration error"))
      (fun error =>
         (* Network error (not EmailOctopus API error) *)
         respond 500 (failure "Server configuration error"))
  end.

End NewsletterNamed.

(** ** The Airtable record store *)

Module AirtableApi.

Definition table_url (baseId tableIdentifier : string) : string :=
  "https://api.airtable.com/v0/" +:+ baseId +:+ "/" +:+ tableIdentifier.

(** [{records: [{fields}]}] *)
Definition records (fields : JSON) : JSON :=
  JObj [("records", JArr [JObj [("fields", fields)]])].

End AirtableApi.

(** ** Merch waitlist *)

Module MerchWaitlist.

Definition POST (request : Request) : M Response :=
  match req_json request with
  | None => respond 400 (failure "Invalid JSON")
  | Some body =>
    bot <- honeypot body ;;
    if bot then respond 200 success_true else
    (* Validate required fields *)
    body_name <- prop body "name" ;;
    if Value.missing_text body_name then
      respond 400 (failure "Name is required")
    else
    body_email <- prop body "email" ;;
    if negb (Value.truthy body_email) || negb (Value.is_string body_email) then
      respond 400 (failure "Email is required")
    else
    email <- call_trim body_email ;;
    if negb (isValidEmail email) then
      respond 400 (failure "Invalid email format")
    else
    body_sizePreference <- prop body "sizePreference" ;;
    if Value.missing_text body_sizePreference then
      respond 400 (failure "Size preference is required")
    else
    (* Trim and sanitize inputs *)
    name <- call_trim body_name ;;
    sizePreference <- call_trim body_sizePreference ;;
    body_interestedIn <- prop body "interestedIn" ;;
    interestedIn <- (if Value.truthy body_interestedIn
                     then t <- call_trim body_interestedIn ;; mret (Some t)
                     else mret None) ;;
    (* Check environment variables *)
    ext <- ask ;;
    let airtablePat := process_env ext !! "AIRTABLE_PAT" in
    let airtableBaseId := process_env ext !! "AIRTABLE_BASE_ID" in
    let merchTableId := process_env ext !! "AIRTABLE_MERCH_TABLE_ID" in
    let slackWebhookUrl := process_env ext !! "SLACK_MERCH_WEBHOOK_URL" in
    if negb (present airtablePat) || negb (present airtableBaseId)
       || negb (present merchTableId) then
      respond 500 (failure "Server error")
    else
    (* Prepare Airtable fields *)
    let airtableFields :=
      JObj ([("Name", JStr name);
             ("Email", JStr email);
             ("Size Preference", JStr sizePreference);
             ("Source", JStr "merch_page")] ++
            (if present interestedIn
             then [("Interested In", JStr (value_of interestedIn))]
             else [])) in
    (* Write to Airtable *)
    try_catch
      (response <- fetch Airtable
           (AirtableApi.table_url (value_of airtableBaseId) (value_of merchTableId))
           (Some (AirtableApi.records airtableFields)) ;;
       if negb (resp_ok response) then
         errorText <- text response ;;
         let urlPath := AirtableApi.table_url "[REDACTED]" (value_of merchTableId) in
         console LogError "Airtable API error:"
           [JObj [("status", JNum (resp_status response));
                  ("statusText", JStr (resp_statusText response));
                  ("urlPath", JStr urlPath);
                  ("body", JStr errorText)]] ;;
         respond 502 (failure "Server error")
       else
       (* Airtable succeeded - send Slack notification (non-blocking) *)
       (if present slackWebhookUrl then
          try_catch
            (slackResponse <- fetch Slack (value_of slackWebhookUrl) None ;;
             if negb (resp_ok slackResponse) then
               slackErrorText <- text slackResponse ;;
               console LogError "Slack webhook error:"
                 [JObj [("status", JNum (resp_status slackResponse));
                        ("statusText", JStr (resp_statusText slackResponse));
                        ("body", JStr slackErrorText)]]
             else
               console LogInfo "Slack notification sent successfully" [])
            (fun slackError => console LogError "Slack webhook exception:" [])
        else mret tt) ;;
       respond 200 success_true)
      (fun error => respond 500 (failure "Server error"))
  end.

End MerchWaitlist.

(** ** Community application *)

Module CommunityApply.

Definition error_body (msg : string) : JSON := JObj [("error", JStr msg)].
Definition ok_true : JSON := JObj [("ok", JBool true)].

(** [v === true] *)
Definition is_true (v : JSValue) : bool :=
  match v with Some (JBool true) => true | _ => false end.

Section Builtins.

(** [new URL(s).origin], [None] when the constructor throws. *)
Variable URL_origin : string -> option string.
Variable encodeURIComponent : string -> string.
(** [String(n)] for a number [n]. *)
Variable Number_toString : Z -> string.

(** [String(v)] on a parsed JSON value, [None] when it throws a TypeError.
    An object is converted by calling its [toString] and then its
    [valueOf].  On an object of parsed JSON these are the methods of
    [Object.prototype], and the result is ["[object Object]"], unless the
    object has a property ["toString"] of its own: that one is a JSON
    value, which cannot be called, [valueOf] gives back the object or
    cannot be called either, and the conversion throws.  An array is
    converted by [join(',')], which converts the elements in turn and
    prints [null] as nothing. *)
Fixpoint to_String (v : JSON) : option string :=
  match v with
  | JNull => Some "null"
  | JBool true => Some "true"
  | JBool false => Some "false"
  | JNum n => Some (Number_toString n)
  | JStr s => Some s
  | JArr items =>
      String.concat "," <$>
        mapM (fun x => match x with JNull => Some EmptyString | _ => to_String x end) items
  | JObj fields =>
      match Value.lookup_field "toString" fields with
      | Some _ => None
      | None => Some "[object Object]"
      end
  end.

(** An optional text column: present only when the request field is
    truthy, as [String(v).trim()]. *)
Definition optional_text (label : string) (v : JSValue) : option (list (string * JSON)) :=
  match v with
  | Some j =>
      if Value.truthy v
      then s ← to_String j; Some [(label, JStr (JS.trim s))]
      else Some []
  | None => Some []
  end.

(** The ["Why TTB"] column, capped to 5000 characters. *)
Definition why_column (v : JSValue) : option (list (string * JSON)) :=
  match v with
  | Some j =>
      if Value.truthy v
      then s ← to_String j; Some [("Why TTB", JStr (JS.substring0 5000 (JS.trim s)))]
      else Some []
  | None => Some []
  end.

(** The ["Field(s)"] column: a single value or an array, as the array of
    its trimmed non-empty strings; absent when the request has no
    [fields] property. *)
Definition fields_column (v : JSValue) : option (list (string * JSON)) :=
  match v with
  | None => Some []
  | Some j =>
      let fieldsArray := match j with JArr items => items | _ => [j] end in
      trimmed ← mapM (fun f => JS.trim <$> to_String f) fieldsArray;
      Some [("Field(s)", JArr (map JStr (filter (fun f => JS.truthy_str f) trimmed)))]
  end.

(** The record to write, built field by field from the trimmed name and
    email and the optional fields of the body; [None] when one of the
    conversions throws. *)
Definition sanitizedFields (fullName email : string) (body : JSON) : option JSON :=
  linkedinUrl ← optional_text "LinkedIn URL" (Value.get "linkedinUrl" body);
  personalWebsite ← optional_text "Personal Website" (Value.get "personalWebsite" body);
  phoneNumber ← optional_text "Phone Number" (Value.get "phoneNumber" body);
  location ← optional_text "Location" (Value.get "location" body);
  mostAdvancedDegree ←
    optional_text "Most Advanced Degree" (Value.get "mostAdvancedDegree" body);
  whyTTB ← why_column (Value.get "whyTTB" body);
  fields ← fields_column (Value.get "fields" body);
  Some (JObj ([("Full Name", JStr fullName); ("Email", JStr email)] ++
              linkedinUrl ++ personalWebsite ++ phoneNumber ++ location ++
              mostAdvancedDegree ++ whyTTB ++ fields ++
              [("Add to Mailing List", JBool (is_true (Value.get "addToMailingList" body)))])).

Definition missing_configuration (ext : Ext) : list string :=
  let airtablePat := process_env ext !! "AIRTABLE_PAT" in
  let airtableBaseId := process_env ext !! "AIRTABLE_BASE_ID" in
  let airtableTableId := process_env ext !! "AIRTABLE_TABLE_ID" in
  let airtableTableName := process_env ext !! "AIRTABLE_TABLE_NAME" in
  (if negb (present airtablePat) then ["AIRTABLE_PAT"] else []) ++
  (if negb (present airtableBaseId) then ["AIRTABLE_BASE_ID"] else []) ++
  (if negb (present airtableTableId) && negb (present airtableTableName)
   then ["AIRTABLE_TABLE_ID or AIRTABLE_TABLE_NAME"] else []).

(** CORS protection: [true] when an Origin header is present and its
    origin is not the request's own. *)
Definition cross_origin (request : Request) : M bool :=
  let origin := headers request !! "origin" in
  if present origin then
    match URL_origin (value_of origin) with
    | None => throw (TypeError "Invalid URL")
    | Some originUrl_origin =>
        mret (negb (String.eqb originUrl_origin (url_origin request)))
    end
  else mret false.

Definition POST (request : Request) : M Response :=
  forbidden <- cross_origin request ;;
  if forbidden then respond 403 (error_body "Forbidden") else
  (* Check environment variables *)
  ext <- ask ;;
  let airtablePat := process_env ext !! "AIRTABLE_PAT" in
  let airtableBaseId := process_env ext !! "AIRTABLE_BASE_ID" in
  let airtableTableId := process_env ext !! "AIRTABLE_TABLE_ID" in
  let airtableTableName := process_env ext !! "AIRTABLE_TABLE_NAME" in
  let slackWebhookUrl := process_env ext !! "SLACK_WEBHOOK_URL" in
  let resendApiKey := process_env ext !! "RESEND_API_KEY" in
  let fromEmail := process_env ext !! "FROM_EMAIL" in
  let replyToEmail := process_env ext !! "REPLY_TO_EMAIL" in
  (* Log env var presence (safe, no secrets) *)
  console LogInfo "Environment variables present:"
    [JObj [("AIRTABLE_PAT", JBool (present airtablePat));
           ("AIRTABLE_BASE_ID", JBool (present airtableBaseId));
           ("AIRTABLE_TABLE_ID", JBool (present airtableTableId));
           ("AIRTABLE_TABLE_NAME", JBool (present airtableTableName));
           ("SLACK_WEBHOOK_URL", JBool (present slackWebhookUrl));
           ("RESEND_API_KEY", JBool (present resendApiKey));
           ("FROM_EMAIL", JBool (present fromEmail));
           ("REPLY_TO_EMAIL", JBool (present replyToEmail))]] ;;
  (* Validate required env vars *)
  let missingVars := missing_configuration ext in
  if (0 <? length missingVars)%nat then
    console LogError "Missing required environment variables:"
      [JStr (String.concat ", " missingVars)] ;;
    respond 500 (JObj [("error", JStr "Server configuration error");
                       ("missing", JArr (map JStr missingVars))])
  else
  (* Determine table identifier (prefer ID, fallback to NAME) *)
  tableIdentifier <-
    (if present airtableTableId then mret (value_of airtableTableId)
     else
       console LogWarn "AIRTABLE_TABLE_ID is preferred over AIRTABLE_TABLE_NAME. Please update your environment variables." [] ;;
       mret (encodeURIComponent (value_of airtableTableName))) ;;
  (* Parse and validate request body *)
  match req_json request with
  | None => respond 400 (error_body "Invalid JSON")
  | Some body =>
    (* Validate required fields *)
    body_fullName <- prop body "fullName" ;;
    if Value.missing_text body_fullName then
      respond 400 (error_body "fullName is required")
    else
    body_email <- prop body "email" ;;
    if negb (Value.truthy body_email) || negb (Value.is_string body_email)
       || negb (Value.str_includes "@" body_email) then
      respond 400 (error_body "Valid email is required")
    else
    fullName <- call_trim body_fullName ;;
    email <- call_trim body_email ;;
    (* Sanitize inputs: trim strings; optional fields only if provided.
       This comes before the [try]: a [String(v)] that throws leaves the
       handler. *)
    record <- converted (sanitizedFields fullName email body) ;;
    (* Prepare Airtable request *)
    let airtableUrl := AirtableApi.table_url (value_of airtableBaseId) tableIdentifier in
    try_catch
      (airtableResponse <- fetch Airtable airtableUrl
           (Some (AirtableApi.records record)) ;;
       if negb (resp_ok airtableResponse) then
         errorText <- text airtableResponse ;;
         (* Redact baseId from URL path for logging *)
         let urlPath := AirtableApi.table_url "[REDACTED]" tableIdentifier in
         console LogError "Airtable API error:"
           [JObj [("status", JNum (resp_status airtableResponse));
                  ("statusText", JStr (resp_statusText airtableResponse));
                  ("urlPath", JStr urlPath);
                  ("body", JStr errorText)]] ;;
         respond 502 (error_body "Failed to submit application")
       else
       (* Airtable succeeded - send Slack notification and confirmation email.
          These are non-blocking; failures won't affect the 200 response.
          The values that the message is made of ([fields.join(', ')] and
          the optional fields) went through [String] above, so making it
          does not throw. *)
       (if present slackWebhookUrl then
          try_catch
            (slackResponse <- fetch Slack (value_of slackWebhookUrl) None ;;
             if negb (resp_ok slackResponse) then
               slackErrorText <- text slackResponse ;;
               console LogError "Slack webhook error:"
                 [JObj [("status", JNum (resp_status slackResponse));
                        ("statusText", JStr (resp_statusText slackResponse));
                        ("body", JStr slackErrorText)]]
             else
               console LogInfo "Slack notification sent successfully" [])
            (fun error => console LogError "Error sending Slack notification:" [])
        else mret tt) ;;
       (* Send confirmation email via Resend (non-blocking) *)
       (if present resendApiKey && present fromEmail && Value.truthy body_email then
          try_catch
            (resendResponse <- fetch Resend "https://api.resend.com/emails" None ;;
             if negb (resp_ok resendResponse) then
               resendErrorText <- text resendResponse ;;
               console LogError "Resend API error:"
                 [JObj [("status", JNum (resp_status resendResponse));
                        ("statusText", JStr (resp_statusText resendResponse));
                        ("body", JStr resendErrorText)]]
             else
               console LogInfo "Confirmation email sent successfully" [])
            (fun error => console LogError "Error sending confirmation email:" [])
        else mret tt) ;;
       respond 200 ok_true)
      (fun error =>
         console LogError "Error submitting to Airtable:" [] ;;
         respond 500 (error_body "Internal server error"))
  end.

End Builtins.

End CommunityApply.

(** ** The four endpoints as one family *)

Inductive Endpoint : Type :=
| Application           (* community-apply *)
| NewsletterMinimal     (* newsletter, email only *)
| NewsletterWithName    (* newsletter, email and first/last name *)
| Merch.                (* merch waitlist *)

Section Pipeline.

Variable URL_origin : string -> option string.
Variable encodeURIComponent : string -> string.
Variable Number_toString : Z -> string.

Definition handle (ep : Endpoint) (request : Request) : M Response :=
  match ep with
  | Application =>
      CommunityApply.POST URL_origin encodeURIComponent Number_toString request
  | NewsletterMinimal => Newsletter.POST request
  | NewsletterWithName => NewsletterNamed.POST request
  | Merch => MerchWaitlist.POST request
  end.

End Pipeline.

(** Run a computation for one request: the process holds the rate-limit
    map [limits]; the trace of the resulting world is what this request
    did. *)
Definition exec {A : Type} (m : M A) (ext : Ext) (limits : gmap string RateRecord)
  : Result A * World :=
  m ext (mkWorld limits []).

Definition fetch_target (e : Event) : option Target :=
  match e with
  | Fetch t _ _ => Some t
  | Console _ _ _ => None
  end.

(** The upstream calls a world has seen, in order. *)
Definition upstream_calls (w : World) : list Target :=
  omap fetch_target (trace w).

Definition is_notification (t : Target) : bool :=
  match t with
  | Slack | Resend => true
  | Airtable | EmailOctopus => false
  end.

(** The side-channel notifications attempted. *)
Definition notifications (w : World) : list Target :=
  List.filter is_notification (upstream_calls w).

(** The authoritative store of an endpoint. *)
Definition store (ep : Endpoint) : Target :=
  match ep with
  | Application | Merch => Airtable
  | NewsletterMinimal | NewsletterWithName => EmailOctopus
  end.

Definition is_newsletter (ep : Endpoint) : bool :=
  match ep with
  | NewsletterMinimal | NewsletterWithName => true
  | Application | Merch => false
  end.

(** The endpoints with a honeypot field. *)
Definition honeypot_protected (ep : Endpoint) : bool :=
  match ep with
  | Application => false
  | NewsletterMinimal | NewsletterWithName | Merch => true
  end.

(** ** Sequences of rate-limiter calls and of requests *)

(** One [checkRateLimit(ip)] call at the clock of [ext], on the map alone. *)
Definition limiter_step (ext : Ext) (ip : string) (limits : gmap string RateRecord)
  : Result bool * gmap string RateRecord :=
  let '(b, w) := exec (RateLimit.checkRateLimit ip) ext limits in
  (b, rateLimitMap w).

(** A call, with the map before and after it. *)
Record Snapshot : Type := mkSnapshot {
  call_ext : Ext;
  call_ip : string;
  before : gmap string RateRecord;
  returned : Result bool;
  after : gmap string RateRecord
}.

(** The history of a sequence of calls started on [limits]. *)
Fixpoint history (calls : list (Ext * string)) (limits : gmap string RateRecord)
  : list Snapshot :=
  match calls with
  | [] => []
  | (ext, ip) :: rest =>
      let '(b, limits') := limiter_step ext ip limits in
      mkSnapshot ext ip limits b limits' :: history rest limits'
  end.

(** Every stored counter is between 1 and the limit. *)
Definition counts_in_range (limits : gmap string RateRecord) : Prop :=
  forall ip r, limits !! ip = Some r ->
    1 <= count r <= RateLimit.RATE_LIMIT_REQUESTS.

(** The call stored a fresh record or incremented the stored one. *)
Definition stored_or_incremented (s : Snapshot) : Prop :=
  after s = <[call_ip s := mkRate 1 (now (call_ext s) + RateLimit.RATE_LIMIT_WINDOW_MS)]> (before s)
  \/ exists r, before s !! call_ip s = Some r /\
               after s = <[call_ip s := mkRate (count r + 1) (resetAt r)]> (before s).

(** ** The stages of the pipeline, as conditions on a request

    These are the words of the specification.  Each theorem below says
    what the handlers do with a request that is at a given stage. *)

(** The honeypot lets a body through: the body is not [null] and [company]
    is absent, falsy, or a string that is empty once trimmed. *)
Definition honeypot_clear (body : JSON) : bool :=
  match body with
  | JNull => false
  | _ =>
      match Value.get "company" body with
      | Some (JStr s) => JS.is_empty (JS.trim s)
      | v => negb (Value.truthy v)
      end
  end.

(** Required fields of each endpoint, in the order they are checked. *)
Definition required_fields (ep : Endpoint) : list string :=
  match ep with
  | Application => ["fullName"; "email"]
  | NewsletterMinimal => ["email"]
  | NewsletterWithName => ["email"; "firstName"; "lastName"]
  | Merch => ["name"; "email"; "sizePreference"]
  end.

(** What an endpoint asks of the text of an email. *)
Definition email_format_ok (ep : Endpoint) (s : string) : bool :=
  match ep with
  | Application => JS.includes "@" s
  | NewsletterMinimal | NewsletterWithName | Merch => isValidEmail (JS.trim s)
  end.

(** A required field is missing: absent, [null], or a string that is empty
    once trimmed. *)
Definition missing_or_blank (v : JSValue) : bool :=
  match v with
  | None | Some JNull => true
  | Some (JStr s) => JS.is_empty (JS.trim s)
  | Some _ => false
  end.

(** A required field fails validation: it is not a non-blank string, or it
    is the email and its format is refused. *)
Definition violates (ep : Endpoint) (body : JSON) (k : string) : bool :=
  let v := Value.get k body in
  if String.eqb k "email" then
    match v with
    | Some (JStr s) => negb (email_format_ok ep s)
    | _ => true
    end
  else
    match v with
    | Some (JStr s) => JS.is_empty (JS.trim s)
    | _ => true
    end.

(** The first violation in check order. *)
Definition first_violation (ep : Endpoint) (body : JSON) : option string :=
  find (violates ep body) (required_fields ep).

(** A message names a field when it contains the field's name, not
    counting case and spaces: ["First name is required"] names
    [firstName]. *)
Fixpoint remove_spaces (s : string) : string :=
  match s with
  | EmptyString => EmptyString
  | String c s' =>
      if Ascii.eqb c " "%char then remove_spaces s' else String c (remove_spaces s')
  end.

Definition names_field (msg field : string) : bool :=
  JS.includes (JS.toLowerCase field) (JS.toLowerCase (remove_spaces msg)).

(** The [error] text of a response body. *)
Definition error_text (r : Response) : option string :=
  match Value.get "error" (body r) with
  | Some (JStr msg) => Some msg
  | _ => None
  end.

(** The two-part shape of the specification: a non-empty local part, an
    at sign, a domain that contains a dot. *)
Definition email_shape (s : string) : Prop :=
  exists l d : string,
    s = l +:+ "@" +:+ d /\ l <> EmptyString /\ JS.includes "." d = true.

(** The email field of a body does not have that shape (or is no text). *)
Definition email_mismatch (body : JSON) : Prop :=
  match Value.get "email" body with
  | Some (JStr s) => ~ email_shape s
  | _ => True
  end.

(** A request is a submission when its body parses, passes the honeypot
    and has every required field accepted: it reaches the rate limiter
    of a newsletter endpoint and the configuration check of the merch
    endpoint. *)
Definition submission (ep : Endpoint) (request : Request) : bool :=
  match req_json request with
  | Some body =>
      honeypot_clear body &&
      match first_violation ep body with None => true | Some _ => false end
  | None => false
  end.

(** Required configuration is missing. *)
Definition config_missing (ep : Endpoint) (ext : Ext) : bool :=
  match ep with
  | Application =>
      negb (present (process_env ext !! "AIRTABLE_PAT")) ||
      negb (present (process_env ext !! "AIRTABLE_BASE_ID")) ||
      negb (present (process_env ext !! "AIRTABLE_TABLE_ID")) &&
      negb (present (process_env ext !! "AIRTABLE_TABLE_NAME"))
  | NewsletterMinimal | NewsletterWithName =>
      negb (present (import_meta_env ext !! "EMAILOCTOPUS_API_KEY")) ||
      negb (present (import_meta_env ext !! "EMAILOCTOPUS_LIST_ID"))
  | Merch =>
      negb (present (process_env ext !! "AIRTABLE_PAT")) ||
      negb (present (process_env ext !! "AIRTABLE_BASE_ID")) ||
      negb (present (process_env ext !! "AIRTABLE_MERCH_TABLE_ID"))
  end.

(** The success acknowledgment of an endpoint. *)
Definition success_response (ep : Endpoint) : Response :=
  match ep with
  | Application => mkResponse 200 CommunityApply.ok_true
  | NewsletterMinimal | NewsletterWithName | Merch => mkResponse 200 success_true
  end.

(** The fixed server-misconfigured response of the newsletter and merch
    endpoints. *)
Definition misconfigured_response (ep : Endpoint) : Response :=
  match ep with
  | Merch => mkResponse 500 (failure "Server error")
  | _ => mkResponse 500 (failure "Server configuration error")
  end.

(** The origin check of the application endpoint lets a request through:
    no Origin header (or an empty one), or one whose origin is the
    request's own. *)
Definition same_origin (URL_origin : string -> option string) (request : Request) : bool :=
  let origin := headers request !! "origin" in
  if present origin then
    match URL_origin (value_of origin) with
    | Some o => String.eqb o (url_origin request)
    | None => false
    end
  else true.

(** A request is at the validation stage of an endpoint: the body parsed
    to [body], which is not [null], and the earlier stages let it through
    (origin and configuration checks on the application endpoint, the
    honeypot on the others). *)
Definition at_validation (URL_origin : string -> option string)
    (ep : Endpoint) (ext : Ext) (request : Request) (body : JSON) : Prop :=
  req_json request = Some body /\ body <> JNull /\
  match ep with
  | Application =>
      same_origin URL_origin request = true /\ config_missing Application ext = false
  | _ => honeypot_clear body = true
  end.

(** Requests served one after the other by one process. *)
Fixpoint serve (P : Request -> M Response) (arrivals : list (Ext * Request))
    (limits : gmap string RateRecord)
  : list (Result Response) * gmap string RateRecord :=
  match arrivals with
  | [] => ([], limits)
  | (ext, request) :: rest =>
      let '(out, w) := exec (P request) ext limits in
      let '(outs, limits') := serve P rest (rateLimitMap w) in
      (out :: outs, limits')
  end.

(** A submission of the client [ip]. *)
Definition submission_from (ep : Endpoint) (ip : string) (request : Request) : bool :=
  submission ep request && String.eqb (RateLimit.clientIp request) ip.

Definition too_many_requests (out : Result Response) : bool :=
  match out with
  | Val r => status r =? 429
  | Throw _ => false
  end.

(** For the submissions of [ip] among the arrivals, in order: was the
    answer 429? *)
Fixpoint verdicts (ep : Endpoint) (ip : string)
    (arrivals : list (Ext * Request)) (outs : list (Result Response)) : list bool :=
  match arrivals, outs with
  | (_, request) :: arrivals', out :: outs' =>
      if submission_from ep ip request
      then too_many_requests out :: verdicts ep ip arrivals' outs'
      else verdicts ep ip arrivals' outs'
  | _, _ => []
  end.


(** A plain word: not empty, without white space and without at sign.
    These are the three parts [isValidEmail] asks for. *)
Fixpoint plain_chars (s : string) : bool :=
  match s with
  | EmptyString => true
  | String c s' => negb (JS.is_space c) && negb (Ascii.eqb "@"%char c) && plain_chars s'
  end.

Definition plain (s : string) : bool := negb (JS.is_empty s) && plain_chars s.

(** Every character of a string is white space. *)
Fixpoint all_spaces (s : string) : bool :=
  match s with
  | EmptyString => true
  | String c s' => JS.is_space c && all_spaces s'
  end.

(** The character [c] occurs in [s]. *)
Fixpoint occurs (c : ascii) (s : string) : bool :=
  match s with
  | EmptyString => false
  | String c' s' => Ascii.eqb c c' || occurs c s'
  end.

(** The answer to a refused request: 400, a message that names the field
    [g], and a world in which nothing was sent upstream and no counter
    moved. *)
Definition refused_with (g : string) (res : Result Response * World)
    (limits : gmap string RateRecord) : Prop :=
  exists resp w,
    res = (Val resp, w) /\
    status resp = 400 /\
    (exists msg, error_text resp = Some msg /\ names_field msg g = true) /\
    upstream_calls w = [] /\ rateLimitMap w = limits.

(** [v.trim()] in [v ? v.trim() : undefined] does not throw: [v] is absent,
    falsy or a string. *)
Definition trim_safe (v : JSValue) : bool :=
  negb (Value.truthy v) || Value.is_string v.

(** The server-misconfigured response of the application endpoint. *)
Definition application_misconfigured (ext : Ext) : Response :=
  mkResponse 500
    (JObj [("error", JStr "Server configuration error");
           ("missing", JArr (map JStr (CommunityApply.missing_configuration ext)))]).

(** What a request has passed when it comes to the configuration check of
    the newsletter and merch endpoints: it is a submission; on the
    newsletter endpoints the rate limiter let it through; on the merch
    endpoint its optional [interestedIn] can be trimmed. *)
Definition before_configuration (ep : Endpoint) (ext : Ext) (request : Request)
    (limits limits' : gmap string RateRecord) : Prop :=
  submission ep request = true /\
  match ep with
  | Application => False
  | NewsletterMinimal | NewsletterWithName =>
      limiter_step ext (RateLimit.clientIp request) limits = (Val true, limits')
  | Merch =>
      limits' = limits /\
      match req_json request with
      | Some body => trim_safe (Value.get "interestedIn" body) = true
      | None => False
      end
  end.

(** Two environments set the same configuration keys of the application
    endpoint (with whatever values). *)
Definition same_keys_set (ext ext' : Ext) : Prop :=
  Forall (fun key => present (process_env ext !! key) = present (process_env ext' !! key))
    ["AIRTABLE_PAT"; "AIRTABLE_BASE_ID"; "AIRTABLE_TABLE_ID"; "AIRTABLE_TABLE_NAME"].

(** ** Concrete requests and worlds, used in the examples below *)

Module Examples.

(** The examples carry no Origin header, so the origin parser is never
    consulted; any function will do. *)
Definition parse_origin (s : string) : option string := Some s.
Definition encode (s : string) : string := s.

(** Numbers in decimal notation, which is what [String(n)] gives for the
    small integers of the examples. *)
Definition decimal (n : Z) : string := pretty n.

Definition site : string := "https://thetechbros.io".

(** A POST with the given parsed body and no header. *)
Definition post (b : JSON) : Request := mkRequest ∅ site (Some b).

(** A POST whose body is not JSON. *)
Definition post_garbage : Request := mkRequest ∅ site None.

(** An upstream that answers every call with the given status. *)
Definition answer (st : Z) (j : JSON) : FetchResponse :=
  mkFetchResponse st "" (Some "") (Some j).

Definition upstream (st : Z) (j : JSON) (t : Target) : FetchResult :=
  Responds (answer st j).

(** The store accepts, the notification targets are unreachable. *)
Definition notifications_down (t : Target) : FetchResult :=
  match t with
  | Slack | Resend => NetworkError
  | Airtable | EmailOctopus => Responds (answer 200 (JObj []))
  end.

Definition full_env : gmap string string :=
  list_to_map
    [("AIRTABLE_PAT", "pat"); ("AIRTABLE_BASE_ID", "app"); ("AIRTABLE_TABLE_ID", "tbl");
     ("AIRTABLE_MERCH_TABLE_ID", "merch"); ("SLACK_WEBHOOK_URL", "https://hooks.slack.test/a");
     ("SLACK_MERCH_WEBHOOK_URL", "https://hooks.slack.test/m");
     ("RESEND_API_KEY", "re"); ("FROM_EMAIL", "hi@thetechbros.io");
     ("EMAILOCTOPUS_API_KEY", "key"); ("EMAILOCTOPUS_LIST_ID", "list")].

(** Everything configured; the clock reads [t]. *)
Definition configured (t : Z) (answers : Target -> FetchResult) : Ext :=
  mkExt full_env full_env true t answers.

(** Nothing configured. *)
Definition unconfigured (answers : Target -> FetchResult) : Ext :=
  mkExt ∅ ∅ true 0 answers.

Definition error_reply (msg : string) : JSON :=
  JObj [("error", JObj [("message", JStr msg)])].

Definition newsletter_body : JSON := JObj [("email", JStr "a@b.com")].

Definition named_body : JSON :=
  JObj [("email", JStr "a@b.com"); ("firstName", JStr "Ada"); ("lastName", JStr "Byron")].

Definition merch_body : JSON :=
  JObj [("name", JStr "Ada"); ("email", JStr "a@b.com"); ("sizePreference", JStr "M")].

Definition application_body : JSON :=
  JObj [("fullName", JStr "Ada Byron"); ("email", JStr "a@b.com")].

(** Newsletter signups of one client (no forwarding header: the client is
    ["unknown"]): one at time 0, then six more, a second apart. *)
Definition signup_at (t : Z) : Ext * Request :=
  (configured t (upstream 200 (JObj [])), post newsletter_body).

Definition burst : list (Ext * Request) :=
  map signup_at [1000; 2000; 3000; 4000; 5000; 6000].

End Examples.

(** ** The handlers of the other methods

    Every form endpoint answers the methods it does not serve with the
    same response: [GET] on the newsletter and merch endpoints; [GET],
    [PUT], [DELETE] and [PATCH] on the application endpoint; [POST] on the
    configuration probe. *)

Definition method_not_allowed : M Response :=
  respond 405 (JObj [("error", JStr "Method not allowed")]).

(** ** The configuration probe of the newsletter

    The [GET] handler at the head of [src/pages/api/newsletter/debug.ts]
    reports whether the two newsletter keys are set. *)

Module NewsletterDebug.

Fixpoint drop (n : nat) (s : string) : string :=
  match n, s with
  | O, _ => s
  | S n', String _ s' => drop n' s'
  | S _, EmptyString => EmptyString
  end.

(** [s.slice(-n)]: the last [n] code units, the whole string when it has
    fewer. *)
Definition slice_last (n : nat) (s : string) : string :=
  drop (String.length s - n) s.

(** [v && v.trim().length > 0] under [!!], for an environment variable. *)
Definition set_and_not_blank (v : option string) : bool :=
  present v && (0 <? String.length (JS.trim (value_of v)))%nat.

(** [listId && listId.length > 6 ? listId.slice(-6) : (listId ? listId : null)] *)
Definition listIdPreview (listId : option string) : JSON :=
  if present listId && (6 <? String.length (value_of listId))%nat
  then JStr (slice_last 6 (value_of listId))
  else if present listId then JStr (value_of listId) else JNull.

Section Flags.

(** [import.meta.env.DEV], [undefined] where the build does not define it. *)
Variable DEV : JSValue.

Definition GET : M Response :=
  ext <- ask ;;
  let apiKey := import_meta_env ext !! "EMAILOCTOPUS_API_KEY" in
  let listId := import_meta_env ext !! "EMAILOCTOPUS_LIST_ID" in
  let hasApiKey := set_and_not_blank apiKey in
  let hasListId := set_and_not_blank listId in
  let nodeEnv :=
    let v := process_env ext !! "NODE_ENV" in
    if present v then JStr (value_of v) else JNull in
  let isDevFlag := Value.truthy DEV in
  respond 200 (JObj [("hasApiKey", JBool hasApiKey);
                     ("hasListId", JBool hasListId);
                     ("listIdPreview", listIdPreview listId);
                     ("nodeEnv", nodeEnv);
                     ("isDevFlag", JBool isDevFlag)]).

Definition POST : M Response := method_not_allowed.

End Flags.

End NewsletterDebug.

(** ** Community application, the earlier revision

    [src/pages/api/community-apply.ts] holds two revisions of the handler.
    The earlier one reads its configuration from [import.meta.env], labels
    the columns of the record in lower case, and sends no notification. *)

Module CommunityApplyEarlier.

Section Builtins.

Variable URL_origin : string -> option string.
Variable encodeURIComponent : string -> string.
Variable Number_toString : Z -> string.

(** The ["why TTB?"] column, capped to 5000 characters. *)
Definition why_column (v : JSValue) : option (list (string * JSON)) :=
  match v with
  | Some j =>
      if Value.truthy v
      then s ← CommunityApply.to_String Number_toString j;
           Some [("why TTB?", JStr (JS.substring0 5000 (JS.trim s)))]
      else Some []
  | None => Some []
  end.

(** The ["field(s)"] column. *)
Definition fields_column (v : JSValue) : option (list (string * JSON)) :=
  match v with
  | None => Some []
  | Some j =>
      let fieldsArray := match j with JArr items => items | _ => [j] end in
      trimmed ← mapM (fun f => JS.trim <$> CommunityApply.to_String Number_toString f)
                     fieldsArray;
      Some [("field(s)", JArr (map JStr (filter (fun f => JS.truthy_str f) trimmed)))]
  end.

(** The record to write, under the labels of this revision. *)
Definition sanitizedFields (fullName email : string) (body : JSON) : option JSON :=
  linkedinUrl ←
    CommunityApply.optional_text Number_toString "linkedin url" (Value.get "linkedinUrl" body);
  personalWebsite ←
    CommunityApply.optional_text Number_toString "personal website"
      (Value.get "personalWebsite" body);
  phoneNumber ←
    CommunityApply.optional_text Number_toString "phone number" (Value.get "phoneNumber" body);
  location ←
    CommunityApply.optional_text Number_toString "location" (Value.get "location" body);
  mostAdvancedDegree ←
    CommunityApply.optional_text Number_toString "most advanced degree"
      (Value.get "mostAdvancedDegree" body);
  whyTTB ← why_column (Value.get "whyTTB" body);
  fields ← fields_column (Value.get "fields" body);
  Some (JObj ([("full name", JStr fullName); ("email", JStr email)] ++
              linkedinUrl ++ personalWebsite ++ phoneNumber ++ location ++
              mostAdvancedDegree ++ whyTTB ++ fields ++
              [("add to mailing list",
                JBool (CommunityApply.is_true (Value.get "addToMailingList" body)))])).

Definition missing_configuration (ext : Ext) : list string :=
  let airtablePat := import_meta_env ext !! "AIRTABLE_PAT" in
  let airtableBaseId := import_meta_env ext !! "AIRTABLE_BASE_ID" in
  let airtableTableId := import_meta_env ext !! "AIRTABLE_TABLE_ID" in
  let airtableTableName := import_meta_env ext !! "AIRTABLE_TABLE_NAME" in
  (if negb (present airtablePat) then ["AIRTABLE_PAT"] else []) ++
  (if negb (present airtableBaseId) then ["AIRTABLE_BASE_ID"] else []) ++
  (if negb (present airtableTableId) && negb (present airtableTableName)
   then ["AIRTABLE_TABLE_ID or AIRTABLE_TABLE_NAME"] else []).

Definition POST (request : Request) : M Response :=
  (* CORS protection: the same check as in the later revision *)
  forbidden <- CommunityApply.cross_origin URL_origin request ;;
  if forbidden then respond 403 (CommunityApply.error_body "Forbidden") else
  (* Check environment variables *)
  ext <- ask ;;
  let airtablePat := import_meta_env ext !! "AIRTABLE_PAT" in
  let airtableBaseId := import_meta_env ext !! "AIRTABLE_BASE_ID" in
  let airtableTableId := import_meta_env ext !! "AIRTABLE_TABLE_ID" in
  let airtableTableName := import_meta_env ext !! "AIRTABLE_TABLE_NAME" in
  (* Validate required env vars *)
  let missingVars := missing_configuration ext in
  if (0 <? length missingVars)%nat then
    console LogError "Missing required environment variables:"
      [JStr (String.concat ", " missingVars)] ;;
    respond 500 (JObj [("error", JStr "Server configuration error");
                       ("missing", JArr (map JStr missingVars))])
  else
  (* Determine table identifier (prefer ID, fallback to NAME) *)
  tableIdentifier <-
    (if present airtableTableId then mret (value_of airtableTableId)
     else
       console LogWarn "AIRTABLE_TABLE_ID is preferred over AIRTABLE_TABLE_NAME. Please update your environment variables." [] ;;
       mret (encodeURIComponent (value_of airtableTableName))) ;;
  (* Parse and validate request body *)
  match req_json request with
  | None => respond 400 (CommunityApply.error_body "Invalid JSON")
  | Some body =>
    (* Validate required fields *)
    body_fullName <- prop body "fullName" ;;
    if Value.missing_text body_fullName then
      respond 400 (CommunityApply.error_body "fullName is required")
    else
    body_email <- prop body "email" ;;
    if negb (Value.truthy body_email) || negb (Value.is_string body_email)
       || negb (Value.str_includes "@" body_email) then
      respond 400 (CommunityApply.error_body "Valid email is required")
    else
    fullName <- call_trim body_fullName ;;
    email <- call_trim body_email ;;
    (* Sanitize inputs: trim strings; optional fields only if provided *)
    record <- converted (sanitizedFields fullName email body) ;;
    (* Prepare Airtable request *)
    let airtableUrl := AirtableApi.table_url (value_of airtableBaseId) tableIdentifier in
    try_catch
      (airtableResponse <- fetch Airtable airtableUrl
           (Some (AirtableApi.records record)) ;;
       if negb (resp_ok airtableResponse) then
         errorText <- text airtableResponse ;;
         console LogError "Airtable API error:"
           [JObj [("status", JNum (resp_status airtableResponse));
                  ("statusText", JStr (resp_statusText airtableResponse));
                  ("body", JStr errorText)]] ;;
         respond 502 (CommunityApply.error_body "Failed to submit application")
       else
       respond 200 CommunityApply.ok_true)
      (fun error =>
         console LogError "Error submitting to Airtable:" [] ;;
         respond 500 (CommunityApply.error_body "Internal server error"))
  end.

End Builtins.

End CommunityApplyEarlier.

(** ** Vocabulary of the further properties *)

(** Number of occurrences of a character. *)
Fixpoint count_char (c : ascii) (s : string) : nat :=
  match s with
  | EmptyString => O
  | String c' s' => (if Ascii.eqb c c' then 1 else 0) + count_char c s'
  end.

(** No character of a string is white space. *)
Fixpoint no_space (s : string) : bool :=
  match s with
  | EmptyString => true
  | String c s' => negb (JS.is_space c) && no_space s'
  end.

(** A text as the handlers store it: not empty, and with nothing left to
    trim. *)
Definition clean (s : string) : Prop := s <> EmptyString /\ JS.trim s = s.

(** The columns that a conversion of a request field has produced: none
    when the conversion threw. *)
Definition produced (columns : option (list (string * JSON))) : list (string * JSON) :=
  default [] columns.

(** The status codes an endpoint answers with. *)
Definition statuses (ep : Endpoint) : list Z :=
  match ep with
  | Application => [200; 400; 403; 500; 502]
  | NewsletterMinimal | NewsletterWithName => [200; 400; 429; 500]
  | Merch => [200; 400; 500; 502]
  end.

(** Every answer an endpoint gives; on the minimal newsletter endpoint,
    every answer it gives in production.  The answer of the application
    endpoint to a missing configuration lists the names of what is
    missing. *)
Definition answers (ep : Endpoint) (ext : Ext) : list Response :=
  match ep with
  | Application =>
      [mkResponse 200 CommunityApply.ok_true;
       mkResponse 400 (CommunityApply.error_body "Invalid JSON");
       mkResponse 400 (CommunityApply.error_body "fullName is required");
       mkResponse 400 (CommunityApply.error_body "Valid email is required");
       mkResponse 403 (CommunityApply.error_body "Forbidden");
       application_misconfigured ext;
       mkResponse 500 (CommunityApply.error_body "Internal server error");
       mkResponse 502 (CommunityApply.error_body "Failed to submit application")]
  | NewsletterMinimal =>
      [mkResponse 200 success_true;
       mkResponse 400 (failure "Invalid JSON");
       mkResponse 400 (failure "Email is required");
       mkResponse 400 (failure "Invalid email format");
       mkResponse 429 (failure "Too many requests. Please try again later.");
       mkResponse 500 (failure "Server configuration error");
       mkResponse 500 (failure "Failed to subscribe. Please try again later.");
       mkResponse 500 (failure "Internal server error")]
  | NewsletterWithName =>
      [mkResponse 200 success_true;
       mkResponse 400 (failure "Invalid JSON");
       mkResponse 400 (failure "Email is required");
       mkResponse 400 (failure "Invalid email format");
       mkResponse 400 (failure "First name is required");
       mkResponse 400 (failure "Last name is required");
       mkResponse 429 (failure "Too many requests. Please try again later.");
       mkResponse 500 (failure "Server configuration error")]
  | Merch =>
      [mkResponse 200 success_true;
       mkResponse 400 (failure "Invalid JSON");
       mkResponse 400 (failure "Name is required");
       mkResponse 400 (failure "Email is required");
       mkResponse 400 (failure "Invalid email format");
       mkResponse 400 (failure "Size preference is required");
       mkResponse 500 (failure "Server error");
       mkResponse 502 (failure "Server error")]
  end.

(** The answer of the minimal newsletter endpoint, outside production, to
    an error of the contact list: it passes on the status and the body of
    the upstream response. *)
Definition upstream_report (r : FetchResponse) (data : JSON) : Response :=
  mkResponse 500
    (JObj [("success", JBool false);
           ("error", JStr "EmailOctopus API request failed. Check upstreamStatus and upstreamBody for details.");
           ("upstreamStatus", JNum (resp_status r));
           ("upstreamBody", data)]).

(** The sequences of upstream calls a request can cause: none, or one
    write to the store followed by the notifications that are configured. *)
Definition call_sequences (ep : Endpoint) : list (list Target) :=
  [] :: map (cons (store ep))
          match ep with
          | Application => [[]; [Slack]; [Resend]; [Slack; Resend]]
          | Merch => [[]; [Slack]]
          | NewsletterMinimal | NewsletterWithName => [[]]
          end.

(** The writes of a run: target, URL and JSON body of every call that
    carries a body (the two stores), in order. *)
Definition written (e : Event) : option (Target * string * JSON) :=
  match e with
  | Fetch t url (Some payload) => Some (t, url, payload)
  | _ => None
  end.

Definition store_writes (w : World) : list (Target * string * JSON) :=
  omap written (trace w).

(** The log lines of a run, in order. *)
Definition is_log (e : Event) : bool :=
  match e with
  | Console _ _ _ => true
  | Fetch _ _ _ => false
  end.

Definition log_lines (w : World) : list Event := List.filter is_log (trace w).

(** The one line a notification block logs, given what its target
    answered: the success line, the report of a non-success response, or
    the line of the [catch] clause (the target was not reached, or the
    body of its response could not be read). *)
Definition notification_log (answer : FetchResult)
    (report : FetchResponse -> string -> list JSON) (failed sent threw : string)
  : Event :=
  match answer with
  | NetworkError => Console LogError threw []
  | Responds r =>
      if resp_ok r then Console LogInfo sent []
      else match resp_text r with
           | Some body => Console LogError failed (report r body)
           | None => Console LogError threw []
           end
  end.

(** The columns of the record in a payload [{records: [{fields}]}]. *)
Definition record_fields (payload : JSON) : list (string * JSON) :=
  match Value.get "records" payload with
  | Some (JArr [record]) =>
      match Value.get "fields" record with
      | Some (JObj columns) => columns
      | _ => []
      end
  | _ => []
  end.

(** A column of an application record as the handler means to write it:
    a trimmed text (the answer to "why TTB" is cut to 5000 characters
    instead), an array of texts that are trimmed and not empty, or the
    mailing-list flag. *)
Definition sanitized (column : string * JSON) : Prop :=
  match column.2 with
  | JStr s =>
      if String.eqb column.1 "Why TTB"
      then (String.length s <= 5000)%nat
      else JS.trim s = s
  | JArr items => exists texts, items = map JStr texts /\ Forall clean texts
  | JBool _ => column.1 = "Add to Mailing List"
  | _ => False
  end.

(** The label the earlier revision of the application handler gives to a
    column of the later one. *)
Definition earlier_label (label : string) : string :=
  if String.eqb label "Why TTB" then "why TTB?" else JS.toLowerCase label.

(** A payload with the columns of its record labelled as in the earlier
    revision. *)
Definition relabel (payload : JSON) : JSON :=
  AirtableApi.records
    (JObj (map (fun column : string * JSON => (earlier_label column.1, column.2))
               (record_fields payload))).

(** Two environments with the same clock, build flag and upstream
    answers, in which the same variables are set, with whatever values. *)
Definition same_settings (ext ext' : Ext) : Prop :=
  PROD ext' = PROD ext /\ now ext' = now ext /\
  (forall t, net ext' t = net ext t) /\
  (forall key, present (process_env ext' !! key) = present (process_env ext !! key)) /\
  (forall key, present (import_meta_env ext' !! key) = present (import_meta_env ext !! key)).

(** The answer of the application endpoint to a request from another
    origin. *)
Definition forbidden : Response :=
  mkResponse 403 (CommunityApply.error_body "Forbidden").

(** ** More concrete requests and worlds, used in the examples of the
       further properties *)

Module Cases.

Import Examples.

(** The configuration of [configured], with other secrets: another access
    token, base identifier and API key. *)
Definition rotated (t : Z) (answers : Target -> FetchResult) : Ext :=
  mkExt (<["AIRTABLE_PAT" := "pat-2"]> (<["AIRTABLE_BASE_ID" := "app-2"]> full_env))
        (<["EMAILOCTOPUS_API_KEY" := "key-2"]> full_env)
        true t answers.

(** No upstream can be reached. *)
Definition unreachable (t : Target) : FetchResult := NetworkError.

(** The client without forwarding header has used up its five requests
    of the window that closes at 60000. *)
Definition exhausted : gmap string RateRecord := {[ "unknown" := mkRate 5 60000 ]}.

(** An origin parser that accepts the URLs of the two usual schemes. *)
Definition web_origin (s : string) : option string :=
  if JS.startsWith "https://" s || JS.startsWith "http://" s then Some s else None.

(** An application that fills optional fields in, with white space around
    the texts, a number for the location, and a blank and a [null] among
    the fields of interest. *)
Definition detailed_application : JSON :=
  JObj [("fullName", JStr " Ada Byron "); ("email", JStr " a@b.com ");
        ("linkedinUrl", JStr " https://linkedin.example/ada ");
        ("location", JNum 7);
        ("whyTTB", JStr " To meet people. ");
        ("fields", JArr [JStr " maths "; JStr "  "; JNull]);
        ("addToMailingList", JBool true)].

(** An application that [String] cannot convert. *)
Definition unprintable_application : JSON :=
  JObj [("fullName", JStr "Ada Byron"); ("email", JStr "a@b.com");
        ("location", JObj [("toString", JNull)])].

(** A merch signup that tells what it is interested in. *)
Definition merch_interest : JSON :=
  JObj [("name", JStr " Ada "); ("email", JStr "a@b.com");
        ("sizePreference", JStr " M "); ("interestedIn", JStr " caps ")].

(** The writes that the example requests cause under [configured]. *)
Definition application_write : Target * string * JSON :=
  (Airtable, "https://api.airtable.com/v0/app/tbl",
   AirtableApi.records
     (JObj [("Full Name", JStr "Ada Byron"); ("Email", JStr "a@b.com");
            ("LinkedIn URL", JStr "https://linkedin.example/ada");
            ("Location", JStr "7");
            ("Why TTB", JStr "To meet people.");
            ("Field(s)", JArr [JStr "maths"; JStr "null"]);
            ("Add to Mailing List", JBool true)])).

Definition merch_write : Target * string * JSON :=
  (Airtable, "https://api.airtable.com/v0/app/merch",
   AirtableApi.records
     (JObj [("Name", JStr "Ada"); ("Email", JStr "a@b.com");
            ("Size Preference", JStr "M"); ("Source", JStr "merch_page");
            ("Interested In", JStr "caps")])).

Definition newsletter_write : Target * string * JSON :=
  (EmailOctopus, "https://emailoctopus.com/api/1.6/lists/list/contacts",
   JObj [("api_key", JStr "key");
         ("email_address", JStr "a@b.com");
         ("status", JStr "SUBSCRIBED");
         ("fields", JObj [("FirstName", JStr "Ada"); ("LastName", JStr "Byron");
                          ("SignupSource", JStr "website_newsletter")])]).

End Cases.

(** * Lemmas *)

(** ** The rate limiter *)

Lemma limiter_step_unfold ext ip (limits : gmap string RateRecord) :
  limiter_step ext ip limits =
  match limits !! ip with
  | None => (Val true, <[ip := mkRate 1 (now ext + RateLimit.RATE_LIMIT_WINDOW_MS)]> limits)
  | Some r =>
      if now ext >? resetAt r
      then (Val true, <[ip := mkRate 1 (now ext + RateLimit.RATE_LIMIT_WINDOW_MS)]> limits)
      else if count r >=? RateLimit.RATE_LIMIT_REQUESTS then (Val false, limits)
      else (Val true, <[ip := mkRate (count r + 1) (resetAt r)]> limits)
  end.
Proof.
  unfold limiter_step, exec, RateLimit.checkRateLimit, bind, mbind, M_bind,
    RateLimit.Date_now, RateLimit.rateLimitMap_get, RateLimit.rateLimitMap_set. cbn.
  destruct (limits !! ip) as [r|]; cbn; [|reflexivity].
  destruct (now ext >? resetAt r); cbn; [reflexivity|].
  destruct (count r >=? RateLimit.RATE_LIMIT_REQUESTS); reflexivity.
Qed.

Lemma limiter_step_range ext ip (limits limits' : gmap string RateRecord) b :
  counts_in_range limits ->
  limiter_step ext ip limits = (b, limits') ->
  counts_in_range limits'.
Proof.
  intros Hinv Hstep. rewrite limiter_step_unfold in Hstep.
  unfold counts_in_range, RateLimit.RATE_LIMIT_REQUESTS, RateLimit.RATE_LIMIT_WINDOW_MS in *.
  destruct (limits !! ip) as [r|] eqn:Hr.
  - destruct (now ext >? resetAt r).
    + inversion Hstep; subst. intros ip' r' H.
      destruct (decide (ip = ip')) as [->|Hne].
      * rewrite lookup_insert_eq in H. inversion H; subst; cbn; lia.
      * rewrite lookup_insert_ne in H by done. eauto.
    + destruct (count r >=? 5) eqn:Hc.
      * inversion Hstep; subst. exact Hinv.
      * inversion Hstep; subst. intros ip' r' H.
        destruct (decide (ip = ip')) as [->|Hne].
        -- rewrite lookup_insert_eq in H. inversion H; subst; cbn.
           specialize (Hinv _ _ Hr). lia.
        -- rewrite lookup_insert_ne in H by done. eauto.
  - inversion Hstep; subst. intros ip' r' H.
    destruct (decide (ip = ip')) as [->|Hne].
    + rewrite lookup_insert_eq in H. inversion H; subst; cbn; lia.
    + rewrite lookup_insert_ne in H by done. eauto.
Qed.

Lemma limiter_step_verdict ext ip (limits limits' : gmap string RateRecord) b :
  limiter_step ext ip limits = (b, limits') ->
  let s := mkSnapshot ext ip limits b limits' in
  (b = Val true /\ stored_or_incremented s) \/
  (b = Val false /\ limits' = limits /\ ~ stored_or_incremented s).
Proof.
  intros Hstep s. subst s. rewrite limiter_step_unfold in Hstep.
  unfold stored_or_incremented, RateLimit.RATE_LIMIT_WINDOW_MS, RateLimit.RATE_LIMIT_REQUESTS in *; cbn.
  destruct (limits !! ip) as [r|] eqn:Hr.
  - destruct (now ext >? resetAt r).
    + injection Hstep as <- <-. left; split; [reflexivity|]. left; reflexivity.
    + destruct (count r >=? 5) eqn:Hc.
      * injection Hstep as <- <-. right. split; [reflexivity|]. split; [reflexivity|].
        intros [Hset | [r0 [Hr0 Hinc]]]; cbn in *.
        -- apply (f_equal (fun m => m !! ip)) in Hset.
           rewrite lookup_insert_eq, Hr in Hset. inversion Hset as [Hrec].
           rewrite Hrec in Hc. cbn in Hc. discriminate.
        -- apply (f_equal (fun m => m !! ip)) in Hinc.
           rewrite lookup_insert_eq, Hr in Hinc.
           injection Hr0 as <-. injection Hinc as Hrec.
           apply (f_equal count) in Hrec. cbn in Hrec. lia.
      * injection Hstep as <- <-. left; split; [reflexivity|]. right.
        exists r; split; reflexivity.
  - injection Hstep as <- <-. left; split; [reflexivity|]. left; reflexivity.
Qed.

Lemma history_invariant (calls : list (Ext * string)) (limits : gmap string RateRecord) :
  counts_in_range limits ->
  Forall (fun s =>
            counts_in_range (after s) /\
            (returned s = Val true \/ returned s = Val false) /\
            (returned s = Val true <-> stored_or_incremented s))
         (history calls limits).
Proof.
  revert limits. induction calls as [|[ext ip] rest IH]; intros limits Hinv; cbn.
  - constructor.
  - destruct (limiter_step ext ip limits) as [b limits'] eqn:Hstep.
    pose proof (limiter_step_range _ _ _ _ _ Hinv Hstep) as Hinv'.
    constructor; [|apply IH; exact Hinv'].
    cbn. split; [exact Hinv'|].
    destruct (limiter_step_verdict _ _ _ _ _ Hstep) as [[-> Hs] | [-> [-> Hn]]].
    + split; [left; reflexivity|]. split; intros _; [exact Hs | reflexivity].
    + split; [right; reflexivity|]. split; [discriminate | intros H; contradiction].
Qed.

Lemma limiter_step_frame ext ip ip' (limits limits' : gmap string RateRecord) b :
  limiter_step ext ip limits = (b, limits') ->
  ip <> ip' ->
  limits' !! ip' = limits !! ip'.
Proof.
  rewrite limiter_step_unfold. intros H Hne.
  destruct (limits !! ip) as [r|].
  - destruct (now ext >? resetAt r).
    + injection H as <- <-. apply lookup_insert_ne, Hne.
    + destruct (count r >=? RateLimit.RATE_LIMIT_REQUESTS); injection H as <- <-;
        [reflexivity | apply lookup_insert_ne, Hne].
  - injection H as <- <-. apply lookup_insert_ne, Hne.
Qed.

(** The rate limiter as one step of a handler: it never throws, touches
    the map only, and either lets the request through or leaves the map as
    it was. *)
Lemma checkRateLimit_run ip ext w :
  RateLimit.checkRateLimit ip ext w =
  ((limiter_step ext ip (rateLimitMap w)).1,
   mkWorld (limiter_step ext ip (rateLimitMap w)).2 (trace w)).
Proof.
  rewrite limiter_step_unfold.
  unfold RateLimit.checkRateLimit, bind, mbind, M_bind,
    RateLimit.Date_now, RateLimit.rateLimitMap_get, RateLimit.rateLimitMap_set. cbn.
  destruct (rateLimitMap w !! ip) as [r|]; cbn; [|reflexivity].
  destruct (now ext >? resetAt r); cbn; [reflexivity|].
  destruct (count r >=? RateLimit.RATE_LIMIT_REQUESTS); cbn; [|reflexivity].
  destruct w; reflexivity.
Qed.

Lemma limiter_step_cases ext ip (limits : gmap string RateRecord) :
  (exists limits', limiter_step ext ip limits = (Val true, limits')) \/
  limiter_step ext ip limits = (Val false, limits).
Proof.
  rewrite limiter_step_unfold.
  destruct (limits !! ip) as [r|]; [|left; eexists; reflexivity].
  destruct (now ext >? resetAt r); [left; eexists; reflexivity|].
  destruct (count r >=? RateLimit.RATE_LIMIT_REQUESTS);
    [right; reflexivity | left; eexists; reflexivity].
Qed.

(** ** Reduction settings

    The proofs below evaluate the handlers step by step; the functions on
    strings and numbers are kept folded. *)

Arguments isValidEmail : simpl never.
Arguments JS.trim : simpl never.
Arguments JS.includes : simpl never.
Arguments JS.toLowerCase : simpl never.
Arguments Nat.ltb : simpl never.
Arguments String.length : simpl never.
Arguments Z.gtb : simpl never.
Arguments Z.geb : simpl never.
Arguments Z.leb : simpl never.
Arguments Z.eqb : simpl never.
Arguments CommunityApply.to_String : simpl never.
Arguments CommunityApply.sanitizedFields : simpl never.
Arguments CommunityApplyEarlier.sanitizedFields : simpl never.
Arguments String.concat : simpl never.

(** ** Strings: lower case *)

Lemma startsWith_lower (p s : string) :
  JS.startsWith p s = true ->
  JS.startsWith (JS.toLowerCase p) (JS.toLowerCase s) = true.
Proof.
  revert s. induction p as [|a p IH]; intros s H; [reflexivity|].
  destruct s as [|b s]; [discriminate|].
  change (Ascii.eqb a b && JS.startsWith p s = true) in H.
  change (Ascii.eqb (JS.lower_char a) (JS.lower_char b) &&
          JS.startsWith (JS.toLowerCase p) (JS.toLowerCase s) = true).
  apply andb_true_iff in H as [Hab Hrest].
  apply Ascii.eqb_eq in Hab. subst b.
  rewrite Ascii.eqb_refl. cbn [andb]. apply IH. exact Hrest.
Qed.

Lemma includes_unfold (p s : string) :
  JS.includes p s =
  JS.startsWith p s || match s with EmptyString => false | String _ s' => JS.includes p s' end.
Proof. destruct s; reflexivity. Qed.

Lemma includes_lower (p s : string) :
  JS.includes p s = true ->
  JS.includes (JS.toLowerCase p) (JS.toLowerCase s) = true.
Proof.
  induction s as [|c s IH]; intros H; rewrite includes_unfold in H;
    apply orb_true_iff in H as [H|H]; try discriminate.
  - rewrite includes_unfold. apply orb_true_iff. left.
    apply (startsWith_lower p EmptyString H).
  - rewrite includes_unfold. apply orb_true_iff. left.
    apply (startsWith_lower p (String c s) H).
  - change (JS.toLowerCase (String c s))
      with (String (JS.lower_char c) (JS.toLowerCase s)).
    rewrite includes_unfold. apply orb_true_iff. right.
    apply IH. exact H.
Qed.

Lemma already_on_list_lower (msg : string) :
  JS.includes "already subscribed" msg = true \/
  JS.includes "already pending" msg = true \/
  JS.includes "is already on the list" msg = true ->
  EmailOctopusApi.already_on_list (JS.toLowerCase msg) = true.
Proof.
  unfold EmailOctopusApi.already_on_list.
  intros [H | [H | H]]; apply includes_lower in H;
    change (JS.toLowerCase "already subscribed") with "already subscribed" in H;
    change (JS.toLowerCase "already pending") with "already pending" in H;
    change (JS.toLowerCase "is already on the list") with "is already on the list" in H;
    rewrite H; rewrite ?orb_true_r; reflexivity.
Qed.

(** ** Strings: trimming and searching *)

Lemma is_empty_length (s : string) :
  (0 <? String.length s)%nat = negb (JS.is_empty s).
Proof. destruct s; reflexivity. Qed.

Lemma is_empty_true (s : string) : JS.is_empty s = true <-> s = EmptyString.
Proof. destruct s; cbn; split; congruence. Qed.

Lemma trim_empty_string : JS.trim EmptyString = EmptyString.
Proof. reflexivity. Qed.

Lemma trimEnd_empty_spaces (s : string) :
  JS.trimEnd s = EmptyString -> all_spaces s = true.
Proof.
  induction s as [|c s IH]; [reflexivity|].
  cbn [JS.trimEnd all_spaces].
  destruct (JS.is_space c); cbn [andb]; [|discriminate].
  destruct (JS.trimEnd s); cbn [JS.is_empty]; [auto | discriminate].
Qed.

Lemma trimStart_spaces (s : string) :
  all_spaces (JS.trimStart s) = true -> all_spaces s = true.
Proof.
  induction s as [|c s IH]; [reflexivity|].
  cbn [JS.trimStart all_spaces].
  destruct (JS.is_space c) eqn:E; cbn [andb]; [exact IH|].
  cbn [all_spaces]. rewrite E. discriminate.
Qed.

Lemma trim_empty_spaces (s : string) :
  JS.trim s = EmptyString -> all_spaces s = true.
Proof.
  unfold JS.trim. intros H. apply trimStart_spaces, trimEnd_empty_spaces, H.
Qed.

Lemma startsWith_occurs (c : ascii) (s : string) :
  JS.startsWith (String c EmptyString) s = true -> occurs c s = true.
Proof.
  destruct s as [|c' s]; [discriminate|]. cbn [JS.startsWith occurs].
  intros H. apply andb_true_iff in H as [H _]. rewrite H. reflexivity.
Qed.

Lemma includes_occurs (c : ascii) (s : string) :
  JS.includes (String c EmptyString) s = true -> occurs c s = true.
Proof.
  induction s as [|c' s IH]; rewrite includes_unfold; intros H;
    apply orb_true_iff in H as [H|H]; try discriminate.
  - apply startsWith_occurs, H.
  - cbn [occurs]. rewrite (IH H). apply orb_true_r.
Qed.

Lemma occurs_spaces (c : ascii) (s : string) :
  all_spaces s = true -> occurs c s = true -> JS.is_space c = true.
Proof.
  induction s as [|c' s IH]; [discriminate|]. cbn [all_spaces occurs].
  intros Hs Ho. apply andb_true_iff in Hs as [Hc Hs].
  apply orb_true_iff in Ho as [Ho|Ho]; [|auto].
  apply Ascii.eqb_eq in Ho. subst. exact Hc.
Qed.

(** A blank string has no at sign. *)
Lemma blank_has_no_at (s : string) :
  JS.trim s = EmptyString -> JS.includes "@" s = false.
Proof.
  intros H. destruct (JS.includes "@" s) eqn:E; [|reflexivity].
  apply includes_occurs in E. apply trim_empty_spaces in H.
  pose proof (occurs_spaces _ _ H E) as Hsp. vm_compute in Hsp. discriminate.
Qed.

(** ** The regular expression matcher is sound for the language *)

Lemma append_assoc (a b c : string) : (a +:+ b) +:+ c = a +:+ (b +:+ c).
Proof.
  induction a as [|x a IH]; [reflexivity|].
  change (String x ((a +:+ b) +:+ c) = String x (a +:+ (b +:+ c))).
  f_equal. exact IH.
Qed.

Lemma append_empty_r (a : string) : a +:+ EmptyString = a.
Proof.
  induction a as [|x a IH]; [reflexivity|].
  change (String x (a +:+ EmptyString) = String x a). f_equal. exact IH.
Qed.

Lemma nullable_lang (r : Regex.regex) :
  Regex.nullable r = true -> Regex.lang r EmptyString.
Proof.
  induction r; cbn; intros H; try discriminate.
  - constructor.
  - apply andb_true_iff in H as [H1 H2].
    change EmptyString with (EmptyString +:+ EmptyString). constructor; auto.
  - apply orb_true_iff in H as [H|H]; [apply Regex.lang_alt_l | apply Regex.lang_alt_r]; auto.
  - constructor.
Qed.

Lemma deriv_lang (c : ascii) (r : Regex.regex) (s : string) :
  Regex.lang (Regex.deriv c r) s -> Regex.lang r (String c s).
Proof.
  revert s. induction r; intros s H; cbn in H.
  - inversion H.
  - inversion H.
  - destruct (Ascii.eqb c0 c) eqn:E; inversion H; subst.
    apply Ascii.eqb_eq in E. subst. constructor.
  - destruct (Regex.in_class items c) eqn:E; inversion H; subst.
    constructor. exact E.
  - destruct (Regex.nullable r1) eqn:N.
    + inversion H as [| | | | ? ? ? Hl | ? ? ? Hr | |]; subst.
      * inversion Hl; subst.
        change (String c (s1 +:+ s2)) with (String c s1 +:+ s2).
        constructor; auto.
      * change (String c s) with (EmptyString +:+ String c s).
        constructor; [apply nullable_lang; exact N | auto].
    + inversion H; subst.
      change (String c (s1 +:+ s2)) with (String c s1 +:+ s2).
      constructor; auto.
  - inversion H; subst; [apply Regex.lang_alt_l | apply Regex.lang_alt_r]; auto.
  - inversion H; subst.
    change (String c (s1 +:+ s2)) with (String c s1 +:+ s2).
    apply Regex.lang_star_cons; auto.
Qed.

Lemma matches_lang (r : Regex.regex) (s : string) :
  Regex.matches r s = true -> Regex.lang r s.
Proof.
  revert r. induction s as [|c s IH]; intros r H; cbn in H.
  - apply nullable_lang, H.
  - apply deriv_lang, IH, H.
Qed.

(** ** What [isValidEmail] accepts has the two-part shape *)

Lemma plus_nonempty (s : string) :
  Regex.lang (Regex.Plus not_space_at) s -> s <> EmptyString.
Proof.
  unfold Regex.Plus. intros H. inversion H as [| | | ? ? ? ? H1 H2 | | | |]; subst.
  inversion H1; subst. discriminate.
Qed.

Lemma startsWith_app (p b : string) : JS.startsWith p (p +:+ b) = true.
Proof.
  induction p as [|c p IH]; [reflexivity|].
  change (Ascii.eqb c c && JS.startsWith p (p +:+ b) = true).
  rewrite Ascii.eqb_refl, IH. reflexivity.
Qed.

Lemma includes_middle (p a b : string) : JS.includes p (a +:+ p +:+ b) = true.
Proof.
  induction a as [|c a IH]; rewrite includes_unfold.
  - change (EmptyString +:+ p +:+ b) with (p +:+ b).
    rewrite startsWith_app. reflexivity.
  - change (String c a +:+ p +:+ b) with (String c (a +:+ p +:+ b)).
    cbv beta iota. rewrite IH. apply orb_true_r.
Qed.

Lemma startsWith_app_l (p d x : string) :
  JS.startsWith p d = true -> JS.startsWith p (d +:+ x) = true.
Proof.
  revert d. induction p as [|c p IH]; intros d H; [reflexivity|].
  destruct d as [|c' d]; [discriminate|].
  change (Ascii.eqb c c' && JS.startsWith p d = true) in H.
  change (Ascii.eqb c c' && JS.startsWith p (d +:+ x) = true).
  apply andb_true_iff in H as [H1 H2]. rewrite H1, (IH _ H2). reflexivity.
Qed.

Lemma includes_app_l (p d x : string) :
  JS.includes p d = true -> JS.includes p (d +:+ x) = true.
Proof.
  induction d as [|c d IH]; rewrite includes_unfold; intros H;
    apply orb_true_iff in H as [H|H]; try discriminate.
  - rewrite includes_unfold. rewrite (startsWith_app_l _ _ x H). reflexivity.
  - rewrite includes_unfold. rewrite (startsWith_app_l _ _ x H). reflexivity.
  - change (String c d +:+ x) with (String c (d +:+ x)).
    rewrite includes_unfold, (IH H). apply orb_true_r.
Qed.

Lemma email_regex_shape (t : string) :
  Regex.lang email_regex t -> email_shape t.
Proof.
  unfold email_regex. intros H.
  inversion H as [| | | ? ? l rest Hl Hrest | | | |]; subst.
  inversion Hrest as [| | | ? ? at_ rest2 Hat Hrest2 | | | |]; subst.
  inversion Hat; subst.
  inversion Hrest2 as [| | | ? ? d1 rest3 Hd1 Hrest3 | | | |]; subst.
  inversion Hrest3 as [| | | ? ? dot d2 Hdot Hd2 | | | |]; subst.
  inversion Hdot; subst.
  exists l, (d1 +:+ "." +:+ d2). split; [reflexivity|]. split.
  - apply plus_nonempty, Hl.
  - apply includes_middle.
Qed.

Lemma trimStart_decompose (s : string) :
  exists pre, s = pre +:+ JS.trimStart s.
Proof.
  induction s as [|c s [pre IH]]; [exists EmptyString; reflexivity|].
  change (JS.trimStart (String c s))
    with (if JS.is_space c then JS.trimStart s else String c s).
  destruct (JS.is_space c).
  - exists (String c pre).
    change (String c s = String c (pre +:+ JS.trimStart s)).
    f_equal. exact IH.
  - exists EmptyString. reflexivity.
Qed.

Lemma trimEnd_decompose (s : string) :
  exists post, s = JS.trimEnd s +:+ post.
Proof.
  induction s as [|c s [post IH]]; [exists EmptyString; reflexivity|].
  change (JS.trimEnd (String c s))
    with (if JS.is_space c && JS.is_empty (JS.trimEnd s)
          then EmptyString else String c (JS.trimEnd s)).
  destruct (JS.is_space c && JS.is_empty (JS.trimEnd s)).
  - exists (String c s). reflexivity.
  - exists post.
    change (String c s = String c (JS.trimEnd s +:+ post)).
    f_equal. exact IH.
Qed.

Lemma trim_decompose (s : string) :
  exists pre post, s = pre +:+ JS.trim s +:+ post.
Proof.
  unfold JS.trim.
  destruct (trimStart_decompose s) as [pre Hpre].
  destruct (trimEnd_decompose (JS.trimStart s)) as [post Hpost].
  exists pre, post. rewrite <- Hpost. exact Hpre.
Qed.

Lemma email_shape_trim (s : string) :
  email_shape (JS.trim s) -> email_shape s.
Proof.
  intros (l & d & Heq & Hl & Hd).
  destruct (trim_decompose s) as (pre & post & Hs).
  exists (pre +:+ l), (d +:+ post). split; [|split].
  - rewrite Hs, Heq. rewrite !append_assoc. reflexivity.
  - destruct pre; [exact Hl | discriminate].
  - apply includes_app_l, Hd.
Qed.

(** [isValidEmail] on the trimmed text accepts only texts of the two-part
    shape. *)
Lemma isValidEmail_shape (s : string) :
  isValidEmail (JS.trim s) = true -> email_shape s.
Proof.
  intros H. apply email_shape_trim, email_regex_shape, matches_lang, H.
Qed.

(** ** The matcher is complete for the language *)

Lemma append_empty (a b : string) :
  a +:+ b = EmptyString -> a = EmptyString /\ b = EmptyString.
Proof. destruct a; [auto | discriminate]. Qed.

Lemma lang_nullable (r : Regex.regex) (s : string) :
  Regex.lang r s -> s = EmptyString -> Regex.nullable r = true.
Proof.
  induction 1; intros E; try discriminate; try reflexivity.
  - apply append_empty in E as [E1 E2].
    change (Regex.nullable r1 && Regex.nullable r2 = true).
    rewrite IHlang1, IHlang2 by assumption. reflexivity.
  - change (Regex.nullable r1 || Regex.nullable r2 = true).
    rewrite IHlang by assumption. reflexivity.
  - change (Regex.nullable r1 || Regex.nullable r2 = true).
    rewrite IHlang by assumption. apply orb_true_r.
Qed.

Lemma lang_deriv (r : Regex.regex) (t : string) :
  Regex.lang r t ->
  forall c u, t = String c u -> Regex.lang (Regex.deriv c r) u.
Proof.
  induction 1; intros a u E; try discriminate.
  - injection E as -> <-. cbn [Regex.deriv]. rewrite Ascii.eqb_refl. constructor.
  - injection E as -> <-. cbn [Regex.deriv]. rewrite H. constructor.
  - cbn [Regex.deriv]. destruct s1 as [|c1 s1'].
    + change (EmptyString +:+ s2) with s2 in E.
      rewrite (lang_nullable _ _ H eq_refl).
      apply Regex.lang_alt_r. apply IHlang2. exact E.
    + change (String c1 s1' +:+ s2) with (String c1 (s1' +:+ s2)) in E.
      injection E as -> <-.
      assert (Hseq : Regex.lang (Regex.Seq (Regex.deriv a r1) r2) (s1' +:+ s2))
        by (constructor; [apply IHlang1; reflexivity | assumption]).
      destruct (Regex.nullable r1); [apply Regex.lang_alt_l|]; exact Hseq.
  - cbn [Regex.deriv]. apply Regex.lang_alt_l. apply IHlang. exact E.
  - cbn [Regex.deriv]. apply Regex.lang_alt_r. apply IHlang. exact E.
  - destruct s1 as [|c1 s1'].
    + change (EmptyString +:+ s2) with s2 in E. apply IHlang2. exact E.
    + change (String c1 s1' +:+ s2) with (String c1 (s1' +:+ s2)) in E.
      injection E as -> <-. cbn [Regex.deriv].
      constructor; [apply IHlang1; reflexivity | assumption].
Qed.

Lemma lang_matches (r : Regex.regex) (s : string) :
  Regex.lang r s -> Regex.matches r s = true.
Proof.
  revert r. induction s as [|c s IH]; intros r H.
  - apply (lang_nullable r EmptyString H eq_refl).
  - cbn [Regex.matches]. apply IH. apply (lang_deriv r (String c s) H c s eq_refl).
Qed.

(** [test] decides the language. *)
Lemma test_lang (r : Regex.regex) (s : string) :
  Regex.test r s = true <-> Regex.lang r s.
Proof. split; [apply matches_lang | apply lang_matches]. Qed.

(** ** What [isValidEmail] accepts, exactly *)

Lemma class_plain (c : ascii) :
  Regex.in_class [Regex.CSpace; Regex.CChar "@"%char] c
  = negb (negb (JS.is_space c) && negb (Ascii.eqb "@"%char c)).
Proof.
  unfold Regex.in_class. cbn [existsb Regex.item_matches].
  rewrite orb_false_r, negb_andb, !negb_involutive. reflexivity.
Qed.

Lemma star_plain (w : string) :
  Regex.lang (Regex.Star not_space_at) w <-> plain_chars w = true.
Proof.
  split.
  - remember (Regex.Star not_space_at) as r eqn:Er. intros H.
    induction H; try discriminate; [reflexivity|].
    injection Er as ->. inversion H as [| |? c Hc| | | | |]; subst.
    change (String c EmptyString +:+ s2) with (String c s2).
    cbn [plain_chars]. rewrite class_plain in Hc. apply negb_false_iff in Hc.
    rewrite Hc. apply IHlang2. reflexivity.
  - induction w as [|c w IH]; intros H; [constructor|].
    cbn [plain_chars] in H. apply andb_true_iff in H as [Hc Hw].
    change (String c w) with (String c EmptyString +:+ w).
    constructor; [|apply IH; exact Hw].
    constructor. rewrite class_plain, Hc. reflexivity.
Qed.

Lemma plus_plain (w : string) :
  Regex.lang (Regex.Plus not_space_at) w <-> plain w = true.
Proof.
  unfold Regex.Plus, plain. split.
  - intros H. inversion H as [| | |? ? s1 s2 H1 H2| | | |]; subst.
    inversion H1 as [| |? c Hc| | | | |]; subst.
    change (String c EmptyString +:+ s2) with (String c s2).
    cbn [JS.is_empty negb andb plain_chars].
    rewrite class_plain in Hc. apply negb_false_iff in Hc. rewrite Hc.
    apply star_plain. exact H2.
  - destruct w as [|c w]; [discriminate|].
    cbn [JS.is_empty negb andb plain_chars]. intros H.
    apply andb_true_iff in H as [Hc Hw].
    change (String c w) with (String c EmptyString +:+ w).
    constructor; [|apply star_plain; exact Hw].
    constructor. rewrite class_plain, Hc. reflexivity.
Qed.

(** [isValidEmail] accepts exactly the texts [l@d1.d2] whose three parts
    are plain words. *)
Lemma isValidEmail_parts (s : string) :
  isValidEmail s = true <->
  exists l d1 d2 : string,
    s = l +:+ "@" +:+ d1 +:+ "." +:+ d2 /\
    plain l = true /\ plain d1 = true /\ plain d2 = true.
Proof.
  unfold isValidEmail. rewrite test_lang. unfold email_regex. split.
  - intros H.
    inversion H as [| | | ? ? l rest Hl Hrest | | | |]; subst.
    inversion Hrest as [| | | ? ? at_ rest2 Hat Hrest2 | | | |]; subst.
    inversion Hat; subst.
    inversion Hrest2 as [| | | ? ? d1 rest3 Hd1 Hrest3 | | | |]; subst.
    inversion Hrest3 as [| | | ? ? dot d2 Hdot Hd2 | | | |]; subst.
    inversion Hdot; subst.
    exists l, d1, d2. split; [reflexivity|].
    repeat split; apply plus_plain; assumption.
  - intros (l & d1 & d2 & -> & Hl & Hd1 & Hd2).
    constructor; [apply plus_plain; exact Hl|].
    constructor; [constructor|].
    constructor; [apply plus_plain; exact Hd1|].
    constructor; [constructor | apply plus_plain; exact Hd2].
Qed.

(** ** The validation stage: from the conditions on the fields to what the
       handlers test *)

Lemma trim_blank_length (s : string) :
  (String.length (JS.trim s) =? 0)%nat = JS.is_empty (JS.trim s).
Proof. destruct (JS.trim s); reflexivity. Qed.

Lemma violates_text ep body k :
  String.eqb k "email" = false ->
  violates ep body k = Value.missing_text (Value.get k body).
Proof.
  intros Hk. unfold violates. rewrite Hk.
  destruct (Value.get k body) as [[| b | n | s | l | f]|]; try reflexivity.
  - destruct b; reflexivity.
  - unfold Value.missing_text. cbn [Value.truthy Value.is_string negb].
    destruct (n =? 0); reflexivity.
  - unfold Value.missing_text. cbn [Value.truthy Value.is_string negb orb].
    rewrite trim_blank_length. destruct s; reflexivity.
Qed.

Lemma text_refused ep body k :
  String.eqb k "email" = false ->
  violates ep body k = true ->
  Value.missing_text (Value.get k body) = true.
Proof. intros Hk. rewrite violates_text by exact Hk. auto. Qed.

Lemma text_accepted ep body k :
  String.eqb k "email" = false ->
  violates ep body k = false ->
  Value.missing_text (Value.get k body) = false /\
  exists s, Value.get k body = Some (JStr s).
Proof.
  intros Hk Hv. split; [rewrite <- violates_text with (ep := ep) by exact Hk; exact Hv|].
  unfold violates in Hv. rewrite Hk in Hv.
  destruct (Value.get k body) as [[| b | n | s | l | f]|]; try discriminate.
  eexists; reflexivity.
Qed.

Lemma format_ok_nonempty ep : email_format_ok ep EmptyString = false.
Proof. destruct ep; reflexivity. Qed.

Lemma email_accepted ep body :
  violates ep body "email" = false ->
  exists s, Value.get "email" body = Some (JStr s) /\
            Value.truthy (Value.get "email" body) = true /\
            Value.is_string (Value.get "email" body) = true /\
            email_format_ok ep s = true.
Proof.
  unfold violates. cbn [String.eqb Ascii.eqb Bool.eqb].
  destruct (Value.get "email" body) as [[| b | n | s | l | f]|]; try discriminate.
  intros H. apply negb_false_iff in H. exists s.
  repeat split; [|exact H].
  destruct s; [rewrite format_ok_nonempty in H; discriminate | reflexivity].
Qed.

Lemma email_refused ep body :
  violates ep body "email" = true ->
  Value.truthy (Value.get "email" body) = false \/
  (Value.truthy (Value.get "email" body) = true /\
   Value.is_string (Value.get "email" body) = false) \/
  (exists s, Value.get "email" body = Some (JStr s) /\
             Value.truthy (Value.get "email" body) = true /\
             Value.is_string (Value.get "email" body) = true /\
             email_format_ok ep s = false).
Proof.
  unfold violates. cbn [String.eqb Ascii.eqb Bool.eqb].
  destruct (Value.get "email" body) as [[| b | n | s | l | f]|]; cbn; auto.
  - destruct b; auto.
  - destruct (n =? 0); auto.
  - intros H. apply negb_true_iff in H. destruct s; [auto|].
    right. right. eexists. repeat split. exact H.
Qed.

Lemma missing_violates ep body k :
  missing_or_blank (Value.get k body) = true -> violates ep body k = true.
Proof.
  unfold missing_or_blank, violates.
  destruct (Value.get k body) as [[| b | n | s | l | f]|]; try discriminate;
    destruct (String.eqb k "email"); try reflexivity; intros H; try exact H.
  apply is_empty_true in H. apply negb_true_iff.
  destruct ep; unfold email_format_ok; [apply blank_has_no_at; exact H | | |];
    rewrite H; reflexivity.
Qed.

Lemma find_violation ep body k :
  In k (required_fields ep) ->
  violates ep body k = true ->
  exists g, first_violation ep body = Some g.
Proof.
  intros Hin Hv. unfold first_violation.
  destruct (find (violates ep body) (required_fields ep)) as [g|] eqn:E; [eauto|].
  pose proof (find_none _ _ E k Hin) as Hn. congruence.
Qed.

Lemma missing_configuration_length ext :
  (0 <? length (CommunityApply.missing_configuration ext))%nat =
  config_missing Application ext.
Proof.
  unfold CommunityApply.missing_configuration, config_missing.
  destruct (present (process_env ext !! "AIRTABLE_PAT"));
    destruct (present (process_env ext !! "AIRTABLE_BASE_ID"));
    destruct (present (process_env ext !! "AIRTABLE_TABLE_ID"));
    destruct (present (process_env ext !! "AIRTABLE_TABLE_NAME")); reflexivity.
Qed.

(** ** Sequences of requests *)


(** ** Running a handler symbolically *)

Lemma prop_null k ext w :
  prop JNull k ext w = (Throw (TypeError "Cannot read properties of null"), w).
Proof. reflexivity. Qed.

Lemma prop_defined b k ext w :
  b <> JNull -> prop b k ext w = (Val (Value.get k b), w).
Proof. destruct b; intros; try reflexivity. congruence. Qed.

Lemma JSON_null_dec (b : JSON) : {b = JNull} + {b <> JNull}.
Proof. destruct b; (left; reflexivity) || (right; discriminate). Qed.

(** The honeypot stage, on a body it lets through and on one it stops. *)
Lemma honeypot_clear_run body ext w :
  honeypot_clear body = true -> honeypot body ext w = (Val false, w).
Proof.
  unfold honeypot_clear, honeypot, bind, mbind, M_bind. intros Hc.
  destruct (JSON_null_dec body) as [->|Hb]; [discriminate|].
  rewrite prop_defined by assumption.
  assert (Hc' : match Value.get "company" body with
                | Some (JStr s) => JS.is_empty (JS.trim s)
                | v => negb (Value.truthy v)
                end = true) by (destruct body; try discriminate; exact Hc).
  clear Hc. destruct (Value.get "company" body) as [[| b | n | s | l | f]|]; cbn in *;
    try discriminate; try reflexivity.
  - destruct b; [discriminate | reflexivity].
  - destruct (n =? 0); [reflexivity | discriminate].
  - destruct s as [|c s]; [reflexivity|]. cbn.
    rewrite is_empty_length, Hc'. reflexivity.
Qed.

Lemma honeypot_filled_run body s ext w :
  Value.get "company" body = Some (JStr s) ->
  JS.trim s <> EmptyString ->
  honeypot body ext w = (Val true, w).
Proof.
  intros Hget Htrim. unfold honeypot, bind, mbind, M_bind.
  assert (Hb : body <> JNull) by (intros ->; discriminate).
  rewrite prop_defined by assumption. rewrite Hget.
  destruct s as [|c s]; [contradiction Htrim; reflexivity|]. cbn.
  rewrite is_empty_length.
  destruct (JS.is_empty (JS.trim (String c s))) eqn:E; [|reflexivity].
  apply is_empty_true in E. contradiction.
Qed.


(** A notification block, [try { ... } catch (e) { console.error(...) }],
    never throws. *)
Lemma try_catch_logged (m : M unit) (level : LogLevel) (label : string)
    (data : list JSON) ext w :
  exists w', try_catch m (fun _ => console level label data) ext w = (Val tt, w').
Proof.
  unfold try_catch. destruct (m ext w) as [[[]|e] w1]; eauto.
Qed.

Lemma try_catch_unfold {A : Type} (m : M A) (h : Exn -> M A) ext w :
  try_catch m h ext w =
  match m ext w with
  | (Val a, w') => (Val a, w')
  | (Throw e, w') => h e ext w'
  end.
Proof. reflexivity. Qed.

(** The origin check returns a verdict or throws, and leaves the world as
    it is. *)
Lemma cross_origin_cases (URL_origin : string -> option string) request ext w :
  (exists b, CommunityApply.cross_origin URL_origin request ext w = (Val b, w) /\
             same_origin URL_origin request = negb b) \/
  (exists e, CommunityApply.cross_origin URL_origin request ext w = (Throw e, w) /\
             same_origin URL_origin request = false).
Proof.
  unfold CommunityApply.cross_origin, same_origin.
  destruct (present (headers request !! "origin")).
  - destruct (URL_origin (value_of (headers request !! "origin"))) as [o|].
    + left. eexists. split; [reflexivity|]. rewrite negb_involutive. reflexivity.
    + right. eexists. split; reflexivity.
  - left. exists false. split; reflexivity.
Qed.

(** The term that blocks the evaluation of [t]: the scrutinee of its head
    match, recursively. *)
Ltac head_of t := lazymatch t with ?f _ => head_of f | _ => t end.
Ltac stuck_on t :=
  let h := head_of t in
  lazymatch h with
  | match ?x with _ => _ end => stuck_on x
  | _ => t
  end.

(** Evaluate the left-hand side of [H] up to the next decision, unfolding
    the handlers and the monad only. *)
Ltac whnf_in H :=
  lazymatch type of H with
  | ?l = ?r =>
      let l' := eval lazy head beta iota zeta delta
        [exec handle Newsletter.POST NewsletterNamed.POST MerchWaitlist.POST
         CommunityApply.POST
         EmailOctopusApi.errorMessage
         fetch text json call_trim converted console emit ask respond
         throw bind mbind M_bind mret M_ret negb andb orb] in l in
      change (l' = r) in H
  end.

(** One decision: use a hypothesis that settles it, or split on it. *)
Ltac step H :=
  lazymatch type of H with
  | ?l = _ =>
      let x := stuck_on l in
      lazymatch x with
      | (_, _) => fail
      | prop ?b ?k ?e ?w =>
          first [ rewrite (prop_defined b k e w) in H by assumption
                | rewrite (prop_null k e w) in H
                | destruct (JSON_null_dec b) as [->|?] ]
      | honeypot ?b ?e ?w =>
          first [ rewrite (honeypot_clear_run b e w) in H by assumption
                | unfold honeypot in H ]
      | RateLimit.checkRateLimit ?ip ?e ?w =>
          let E := fresh "Hlimiter" in
          rewrite (checkRateLimit_run ip e w) in H;
          cbn [rateLimitMap trace] in H;
          first [ match goal with
                  | L : limiter_step e ip _ = _ |- _ => rewrite L in H
                  end
                | destruct (limiter_step_cases e ip (rateLimitMap w)) as [[? E] | E];
                  cbn [rateLimitMap trace] in E; rewrite E in H ];
          cbn [fst snd] in H
      | try_catch ?m (fun _ => console ?level ?label ?data) ?e ?w =>
          let w' := fresh "w" in
          let E := fresh "E" in
          destruct (try_catch_logged m level label data e w) as [w' E];
          rewrite E in H; clear E
      | try_catch ?m ?h ?e ?w =>
          rewrite (try_catch_unfold m h e w) in H
      | CommunityApply.cross_origin ?U ?r ?e ?w =>
          let E := fresh "E" in
          let S := fresh "Horigin" in
          let b := fresh "forbidden" in
          destruct (cross_origin_cases U r e w) as [[b [E S]] | [? [E S]]];
          rewrite E in H; clear E;
          try (match goal with
               | Hs : same_origin U r = true |- _ => rewrite Hs in S
               end;
               first [ discriminate S
                     | destruct b; [discriminate S | clear S] ])
      | _ =>
          first [ match goal with E : x = _ |- _ => rewrite E in H end
                | let x' := eval cbn in x in
                  lazymatch x' with
                  | true => change x with true in H
                  | false => change x with false in H
                  end
                | is_var x; destruct x
                | destruct x eqn:? ]
      end;
      whnf_in H
  end.

Ltac run_handler H := whnf_in H; repeat step H.

(** Close a leaf: the handler returned; read the outcome and the world. *)
Ltac leaf H := injection H as <- <-; cbn in *.
Section Claims.

Variable URL_origin : string -> option string.
Variable encodeURIComponent : string -> string.
Variable Number_toString : Z -> string.

Local Abbreviation handle := (handle URL_origin encodeURIComponent Number_toString).

Implicit Types (ep : Endpoint) (request : Request) (ext : Ext)
  (limits : gmap string RateRecord) (out : Result Response) (w : World).

(** ** The validation stage *)

(** Bring the facts about a required field into the context, in the form
    the handlers test them. *)
Ltac text_ok V :=
  let s := fresh "s" in
  let E1 := fresh "Htext" in
  let E2 := fresh "Hget" in
  lazymatch type of V with
  | violates ?ep ?b ?k = _ =>
      destruct (text_accepted ep b k eq_refl V) as [E1 [s E2]]
  end.

Ltac text_bad V :=
  let E := fresh "Htext" in
  lazymatch type of V with
  | violates ?ep ?b ?k = _ => pose proof (text_refused ep b k eq_refl V) as E
  end.

Ltac email_ok V :=
  let s := fresh "s" in
  let E1 := fresh "Hget" in
  let E2 := fresh "Htruthy" in
  let E3 := fresh "Hstring" in
  let E4 := fresh "Hformat" in
  destruct (email_accepted _ _ V) as [s [E1 [E2 [E3 E4]]]];
  unfold email_format_ok in E4;
  try (assert (Value.str_includes "@" (Value.get "email" _) = true)
         by (rewrite E1; exact E4)).

Ltac email_bad V :=
  let s := fresh "s" in
  let E1 := fresh "Hget" in
  let E2 := fresh "Htruthy" in
  let E3 := fresh "Hstring" in
  let E4 := fresh "Hformat" in
  destruct (email_refused _ _ V) as [E2 | [[E2 E3] | [s [E1 [E2 [E3 E4]]]]]];
  [ | | unfold email_format_ok in E4;
        try (assert (Value.str_includes "@" (Value.get "email" _) = false)
               by (rewrite E1; exact E4)) ].

Ltac refused_leaf H :=
  injection H as <- <-; try congruence;
  do 2 eexists; split; [reflexivity|]; split; [reflexivity|];
  split; [eexists; split; [reflexivity | vm_compute; reflexivity]|];
  split; reflexivity.

Lemma refused ep ext request body limits g :
  at_validation URL_origin ep ext request body ->
  first_violation ep body = Some g ->
  refused_with g (exec (handle ep request) ext limits) limits.
Proof.
  intros (Hreq & Hbody & Hstage) Hg.
  destruct (exec (handle ep request) ext limits) as [out w] eqn:H.
  unfold first_violation in Hg.
  destruct ep; cbn [required_fields find] in Hg.
  - (* application *)
    destruct Hstage as [Hsame Hconf].
    rewrite <- missing_configuration_length in Hconf.
    destruct (violates Application body "fullName") eqn:V1.
    + injection Hg as <-. text_bad V1. run_handler H; refused_leaf H.
    + text_ok V1. destruct (violates Application body "email") eqn:V2; [|discriminate].
      injection Hg as <-. email_bad V2; run_handler H; refused_leaf H.
  - (* newsletter, minimal *)
    destruct (violates NewsletterMinimal body "email") eqn:V1; [|discriminate].
    injection Hg as <-. email_bad V1; run_handler H; refused_leaf H.
  - (* newsletter, with name *)
    destruct (violates NewsletterWithName body "email") eqn:V1.
    + injection Hg as <-. email_bad V1; run_handler H; refused_leaf H.
    + email_ok V1. destruct (violates NewsletterWithName body "firstName") eqn:V2.
      * injection Hg as <-. text_bad V2. run_handler H; refused_leaf H.
      * text_ok V2. destruct (violates NewsletterWithName body "lastName") eqn:V3; [|discriminate].
        injection Hg as <-. text_bad V3. run_handler H; refused_leaf H.
  - (* merch *)
    destruct (violates Merch body "name") eqn:V1.
    + injection Hg as <-. text_bad V1. run_handler H; refused_leaf H.
    + text_ok V1. destruct (violates Merch body "email") eqn:V2.
      * injection Hg as <-. email_bad V2; run_handler H; refused_leaf H.
      * email_ok V2. destruct (violates Merch body "sizePreference") eqn:V3; [|discriminate].
        injection Hg as <-. text_bad V3. run_handler H; refused_leaf H.
Qed.

(** ** The configuration check *)

Lemma application_configuration_first request ext limits :
  same_origin URL_origin request = true ->
  config_missing Application ext = true ->
  exists w,
    exec (handle Application request) ext limits = (Val (application_misconfigured ext), w) /\
    upstream_calls w = [] /\ rateLimitMap w = limits.
Proof.
  intros Hsame Hconf. rewrite <- missing_configuration_length in Hconf.
  destruct (exec (handle Application request) ext limits) as [out w] eqn:H.
  run_handler H; injection H as <- <-.
  eexists; split; [reflexivity|]. split; reflexivity.
Qed.

(** The facts about an accepted submission, field by field. *)
Ltac accepted_fields Hnone :=
  unfold first_violation in Hnone; cbn [required_fields find] in Hnone;
  repeat match type of Hnone with
         | context [violates ?ep ?b ?k] =>
             let V := fresh "V" in
             destruct (violates ep b k) eqn:V; [discriminate Hnone|];
             first [ text_ok V | email_ok V ]
         end.

Lemma submission_parts ep request :
  submission ep request = true ->
  exists body, req_json request = Some body /\ body <> JNull /\
               honeypot_clear body = true /\ first_violation ep body = None.
Proof.
  unfold submission. destruct (req_json request) as [body|]; [|discriminate].
  intros H. apply andb_true_iff in H as [Hc Hv].
  exists body. repeat split; auto.
  - intros ->. discriminate.
  - destruct (first_violation ep body); [discriminate | reflexivity].
Qed.

Lemma forms_configuration_last ep request ext limits limits' :
  before_configuration ep ext request limits limits' ->
  config_missing ep ext = true ->
  exists w,
    exec (handle ep request) ext limits = (Val (misconfigured_response ep), w) /\
    upstream_calls w = [] /\ rateLimitMap w = limits'.
Proof.
  intros [Hsub Hstage] Hconf.
  destruct (submission_parts _ _ Hsub) as (body & Hreq & Hbody & Hclear & Hnone).
  destruct (exec (handle ep request) ext limits) as [out w] eqn:H.
  destruct ep; [contradiction | | | ]; unfold config_missing in Hconf.
  - accepted_fields Hnone. run_handler H; injection H as <- <-; try discriminate.
    all: eexists; split; [reflexivity|]; split; reflexivity.
  - accepted_fields Hnone. run_handler H; injection H as <- <-; try discriminate.
    all: eexists; split; [reflexivity|]; split; reflexivity.
  - destruct Hstage as [-> Hsafe]. rewrite Hreq in Hsafe. unfold trim_safe in Hsafe.
    accepted_fields Hnone. run_handler H; injection H as <- <-; try discriminate.
    all: eexists; split; [reflexivity|]; split; reflexivity.
Qed.

Lemma opt_get_parsed (k : string) (body : JSON) :
  Value.opt_get k (Some body) = Value.get k body.
Proof. destruct body; reflexivity. Qed.

(** On the merch endpoint an [interestedIn] that is truthy and no text
    makes the handler throw before it reads the configuration. *)
Lemma merch_interest_not_trimmed request ext limits :
  submission Merch request = true ->
  trim_safe (Value.opt_get "interestedIn" (req_json request)) = false ->
  exec (handle Merch request) ext limits
    = (Throw (TypeError "trim is not a function"), mkWorld limits []).
Proof.
  intros Hsub Hsafe.
  destruct (submission_parts _ _ Hsub) as (body & Hreq & Hbody & Hclear & Hnone).
  rewrite Hreq, opt_get_parsed in Hsafe. unfold trim_safe in Hsafe.
  apply orb_false_iff in Hsafe as [Ht Hs]. apply negb_false_iff in Ht.
  destruct (exec (handle Merch request) ext limits) as [out w] eqn:H.
  accepted_fields Hnone. run_handler H; injection H as <- <-;
    solve [discriminate | reflexivity].
Qed.

Lemma missing_configuration_keys ext :
  (In "AIRTABLE_PAT" (CommunityApply.missing_configuration ext) <->
   present (process_env ext !! "AIRTABLE_PAT") = false) /\
  (In "AIRTABLE_BASE_ID" (CommunityApply.missing_configuration ext) <->
   present (process_env ext !! "AIRTABLE_BASE_ID") = false) /\
  (In "AIRTABLE_TABLE_ID or AIRTABLE_TABLE_NAME" (CommunityApply.missing_configuration ext) <->
   present (process_env ext !! "AIRTABLE_TABLE_ID") = false /\
   present (process_env ext !! "AIRTABLE_TABLE_NAME") = false).
Proof.
  unfold CommunityApply.missing_configuration.
  destruct (present (process_env ext !! "AIRTABLE_PAT"));
    destruct (present (process_env ext !! "AIRTABLE_BASE_ID"));
    destruct (present (process_env ext !! "AIRTABLE_TABLE_ID"));
    destruct (present (process_env ext !! "AIRTABLE_TABLE_NAME"));
    cbn; intuition congruence.
Qed.

Lemma missing_configuration_same_keys ext ext' :
  same_keys_set ext ext' ->
  CommunityApply.missing_configuration ext' = CommunityApply.missing_configuration ext.
Proof.
  unfold same_keys_set. intros H.
  repeat match goal with
         | H : Forall _ (_ :: _) |- _ =>
             let E := fresh "E" in
             apply Forall_cons_iff in H as [E H]
         end.
  unfold CommunityApply.missing_configuration. rewrite E, E0, E1, E2. reflexivity.
Qed.

(** ** The rate limiter inside the newsletter handlers *)



(** * The claims *)

(** ** C1: a failed store write *)

(** C1 (amended): when the store call of a request was made and answered
    with a non-success response, no notification is attempted; the
    application and merch endpoints answer 502 (500 if the body of the
    upstream response cannot be read); the newsletter endpoints answer 500
    and never 502, or else the success acknowledgment, and that only when
    the message of the upstream error says that the address is on the list
    already. *)
Theorem C1_store_failure ep request ext limits out w r :
  exec (handle ep request) ext limits = (out, w) ->
  In (store ep) (upstream_calls w) ->
  net ext (store ep) = Responds r ->
  resp_ok r = false ->
  notifications w = [] /\
  exists resp, out = Val resp /\
    match ep with
    | Application | Merch =>
        status resp = match resp_text r with Some _ => 502 | None => 500 end
    | NewsletterMinimal | NewsletterWithName =>
        status resp = 500 \/
        (resp = success_response ep /\
         exists data msg,
           resp_json r = Some data /\
           Value.opt_get "message" (Value.opt_get "error" (Some data)) = Some (JStr msg) /\
           EmailOctopusApi.already_on_list (JS.toLowerCase msg) = true)
    end.
Proof.
  intros H Hin Hnet Hok.
  destruct ep; cbn [store] in *; run_handler H; injection H as <- <-;
    cbn [upstream_calls notifications trace omap list_omap fetch_target app
         List.filter is_notification] in *;
    solve [ exfalso; clear - Hin; cbn in Hin; intuition discriminate
          | match goal with
            | Hx : EmailOctopusApi.already_on_list EmptyString = true |- _ =>
                vm_compute in Hx; discriminate Hx
            end
          | split; [reflexivity|]; eexists; split; [reflexivity|];
            first [ reflexivity
                  | left; reflexivity
                  | right; split; [reflexivity|]; do 2 eexists;
                    split; [reflexivity|]; split; eassumption ] ].
Qed.

(** ** C2: the honeypot *)

(** C2 (amended): on the newsletter and merch endpoints, a request whose
    [company] field is a string that is not empty once trimmed is answered
    200 with [{success: true}]; nothing is sent upstream, nothing is logged
    and the rate-limit map is untouched. *)
Theorem C2_honeypot_short_circuit ep request ext limits body s :
  honeypot_protected ep = true ->
  req_json request = Some body ->
  Value.get "company" body = Some (JStr s) ->
  JS.trim s <> EmptyString ->
  exec (handle ep request) ext limits = (Val (mkResponse 200 success_true), mkWorld limits []).
Proof.
  intros Hep Hreq Hget Htrim.
  destruct (exec (handle ep request) ext limits) as [out w] eqn:H.
  destruct ep; try discriminate; whnf_in H; rewrite Hreq in H; whnf_in H;
    rewrite (honeypot_filled_run _ _ _ _ Hget Htrim) in H; whnf_in H;
    symmetry; exact H.
Qed.

(** ** C3: five submissions per window *)


(** ** C4: a missing required field *)

(** C4 (amended): a request at the validation stage of an endpoint (its
    body parsed and is not [null]; it passed the origin and configuration
    checks of the application endpoint, the honeypot of the others) in
    which a required field is absent, [null] or blank is answered 400; the
    [error] text names the first field, in check order, that fails
    validation, which is that field itself when no other required field
    fails; nothing is sent upstream and the rate-limit map is untouched. *)
Theorem C4_missing_field_is_bad_request ep ext request body limits k :
  at_validation URL_origin ep ext request body ->
  In k (required_fields ep) ->
  missing_or_blank (Value.get k body) = true ->
  exists g,
    first_violation ep body = Some g /\
    refused_with g (exec (handle ep request) ext limits) limits /\
    ((forall j, In j (required_fields ep) -> j <> k -> violates ep body j = false) ->
     g = k).
Proof.
  intros Hstage Hin Hmissing.
  destruct (find_violation ep body k Hin (missing_violates ep body k Hmissing)) as [g Hg].
  exists g. split; [exact Hg|]. split; [apply (refused ep ext request body); assumption|].
  intros Honly. unfold first_violation in Hg. apply find_some in Hg as [Hgin Hgv].
  destruct (String.eqb_spec g k) as [E|E]; [exact E|].
  rewrite (Honly g Hgin E) in Hgv. discriminate.
Qed.

(** ** C5: the shape of the email *)

(** C5 (amended): at the validation stage of the newsletter and merch
    endpoints, a request whose email is not a text of the shape
    local@domain-with-dot is answered 400 and nothing is sent upstream; at
    the application endpoint this holds of a request whose email is not a
    text containing an at sign. *)
Theorem C5_email_shape_enforced ep ext request body limits :
  at_validation URL_origin ep ext request body ->
  match ep with
  | Application => Value.str_includes "@" (Value.get "email" body) = false
  | NewsletterMinimal | NewsletterWithName | Merch => email_mismatch body
  end ->
  exists g, refused_with g (exec (handle ep request) ext limits) limits.
Proof.
  intros Hstage Hemail.
  assert (Hv : violates ep body "email" = true).
  { unfold violates. cbn [String.eqb Ascii.eqb Bool.eqb].
    unfold email_mismatch, Value.str_includes in Hemail.
    destruct (Value.get "email" body) as [[| b | n | s | l | f]|]; try reflexivity.
    apply negb_true_iff.
    destruct (email_format_ok ep s) eqn:E; [|reflexivity].
    destruct ep; unfold email_format_ok in E;
      [ congruence
      | contradiction Hemail; apply isValidEmail_shape; exact E .. ]. }
  assert (Hin : In "email" (required_fields ep)) by (destruct ep; cbn; auto).
  destruct (find_violation ep body "email" Hin Hv) as [g Hg].
  exists g. apply (refused ep ext request body); assumption.
Qed.

(** ** C6: where the configuration check stands *)

(** C6 (amended): on the application endpoint the configuration check comes
    before body parsing and field validation (and after the origin check):
    a same-origin request arriving while configuration is missing is
    answered with the server-misconfigured response whatever its body.  On
    the newsletter endpoints it comes after parsing, honeypot, validation
    and rate limiting: a request that passed them while configuration is
    missing is counted by the rate limiter and answered with the
    server-misconfigured response.  On the merch endpoint it comes after
    parsing, honeypot, validation and the trimming of the optional field
    [interestedIn]: a request that passed parsing, honeypot and validation
    while configuration is missing is answered with the server-misconfigured
    response when [interestedIn] is absent, falsy or a text, and otherwise
    makes the handler throw a TypeError, before the configuration is looked
    at.  In every case nothing is sent upstream. *)
Theorem C6_configuration_check_position ep request ext limits :
  config_missing ep ext = true ->
  match ep with
  | Application => same_origin URL_origin request = true
  | NewsletterMinimal | NewsletterWithName =>
      submission ep request = true /\
      (limiter_step ext (RateLimit.clientIp request) limits).1 = Val true
  | Merch => submission ep request = true
  end ->
  exists w,
    exec (handle ep request) ext limits =
      (match ep with
       | Application => Val (application_misconfigured ext)
       | NewsletterMinimal | NewsletterWithName => Val (misconfigured_response ep)
       | Merch =>
           if trim_safe (Value.opt_get "interestedIn" (req_json request))
           then Val (misconfigured_response ep)
           else Throw (TypeError "trim is not a function")
       end, w) /\
    upstream_calls w = [] /\
    rateLimitMap w =
      (if is_newsletter ep
       then (limiter_step ext (RateLimit.clientIp request) limits).2
       else limits).
Proof.
  intros Hconf Hstage. destruct ep; cbn [is_newsletter].
  - apply application_configuration_first; assumption.
  - destruct Hstage as [Hsub Hpass].
    destruct (limiter_step ext (RateLimit.clientIp request) limits) as [b limits'] eqn:L.
    cbn [fst snd] in *. subst b.
    apply forms_configuration_last; [split; assumption | exact Hconf].
  - destruct Hstage as [Hsub Hpass].
    destruct (limiter_step ext (RateLimit.clientIp request) limits) as [b limits'] eqn:L.
    cbn [fst snd] in *. subst b.
    apply forms_configuration_last; [split; assumption | exact Hconf].
  - destruct (trim_safe (Value.opt_get "interestedIn" (req_json request))) eqn:Hsafe.
    + apply forms_configuration_last; [|exact Hconf].
      split; [exact Hstage|]. split; [reflexivity|].
      destruct (submission_parts _ _ Hstage) as (body & Hreq & Hbody & _).
      rewrite Hreq in Hsafe |- *. rewrite opt_get_parsed in Hsafe.
      exact Hsafe.
    + exists (mkWorld limits []).
      split; [apply merch_interest_not_trimmed; assumption|]. split; reflexivity.
Qed.

(** ** C7: notifications never change the answer *)

(** C7 (amended): when the store call of a request was made and succeeded
    (the response is in the 2xx range and, on the newsletter endpoints,
    which read the body first, its JSON body can be read), the answer is
    the success acknowledgment, whatever the chat webhook and the email
    service answer, and also when they cannot be reached. *)
Theorem C7_success_despite_notifications ep request ext limits out w r :
  exec (handle ep request) ext limits = (out, w) ->
  In (store ep) (upstream_calls w) ->
  net ext (store ep) = Responds r ->
  resp_ok r = true ->
  (is_newsletter ep = true -> is_Some (resp_json r)) ->
  out = Val (success_response ep).
Proof.
  intros H Hin Hnet Hok Hjson.
  destruct ep; cbn [store is_newsletter] in *;
    try (destruct (Hjson eq_refl) as [data Hdata]; clear Hjson);
    run_handler H; leaf H;
    solve [ intuition discriminate | reflexivity ].
Qed.

(** ** C8: what the misconfigured response tells *)

(** C8 (amended): the server-misconfigured response of the application
    endpoint lists, under [missing], exactly the configuration keys that
    are absent, and is the same for any two environments that set the same
    keys, whatever the values; the server-misconfigured response of the
    newsletter and merch endpoints is a fixed message that names no key. *)
Theorem C8_missing_keys_enumerated ep request ext limits limits' :
  config_missing ep ext = true ->
  match ep with
  | Application => same_origin URL_origin request = true
  | NewsletterMinimal | NewsletterWithName | Merch =>
      before_configuration ep ext request limits limits'
  end ->
  exists resp w,
    exec (handle ep request) ext limits = (Val resp, w) /\
    status resp = 500 /\
    match ep with
    | Application =>
        let missing := CommunityApply.missing_configuration ext in
        Value.get "missing" (body resp) = Some (JArr (map JStr missing)) /\
        (In "AIRTABLE_PAT" missing <->
         present (process_env ext !! "AIRTABLE_PAT") = false) /\
        (In "AIRTABLE_BASE_ID" missing <->
         present (process_env ext !! "AIRTABLE_BASE_ID") = false) /\
        (In "AIRTABLE_TABLE_ID or AIRTABLE_TABLE_NAME" missing <->
         present (process_env ext !! "AIRTABLE_TABLE_ID") = false /\
         present (process_env ext !! "AIRTABLE_TABLE_NAME") = false) /\
        (forall ext', same_keys_set ext ext' -> application_misconfigured ext' = resp)
    | NewsletterMinimal | NewsletterWithName | Merch =>
        resp = misconfigured_response ep
    end.
Proof.
  intros Hconf Hstage. destruct ep.
  - destruct (application_configuration_first request ext limits Hstage Hconf)
      as (w & H & _).
    exists (application_misconfigured ext), w. split; [exact H|]. split; [reflexivity|].
    cbv zeta. split; [reflexivity|].
    destruct (missing_configuration_keys ext) as (K1 & K2 & K3).
    split; [exact K1|]. split; [exact K2|]. split; [exact K3|].
    intros ext' Hsame. unfold application_misconfigured.
    rewrite (missing_configuration_same_keys _ _ Hsame). reflexivity.
  - destruct (forms_configuration_last _ _ _ _ _ Hstage Hconf) as (w & H & _).
    exists (misconfigured_response NewsletterMinimal), w. auto.
  - destruct (forms_configuration_last _ _ _ _ _ Hstage Hconf) as (w & H & _).
    exists (misconfigured_response NewsletterWithName), w. auto.
  - destruct (forms_configuration_last _ _ _ _ _ Hstage Hconf) as (w & H & _).
    exists (misconfigured_response Merch), w. auto.
Qed.

(** ** C9: already on the list *)

(** C9: on both newsletter endpoints, when the contact-creation call was
    made and answered with a non-success response whose JSON body has an
    [error.message] containing one of the three phrases, the answer is 200
    with [{success: true}]. *)
Theorem C9_already_on_list ep request ext limits out w r data msg :
  is_newsletter ep = true ->
  exec (handle ep request) ext limits = (out, w) ->
  In EmailOctopus (upstream_calls w) ->
  net ext EmailOctopus = Responds r ->
  resp_ok r = false ->
  resp_json r = Some data ->
  Value.opt_get "message" (Value.opt_get "error" (Some data)) = Some (JStr msg) ->
  JS.includes "already subscribed" msg = true \/
  JS.includes "already pending" msg = true \/
  JS.includes "is already on the list" msg = true ->
  out = Val (mkResponse 200 success_true).
Proof.
  intros Hep H Hin Hnet Hok Hdata Hmsg Hphrase.
  apply already_on_list_lower in Hphrase.
  destruct ep; try discriminate;
    run_handler H; leaf H;
    solve [ intuition discriminate | reflexivity ].
Qed.

(** ** C10: the counter stays within the limit *)

(** C10: along every sequence of [checkRateLimit] calls started on the empty
    map, after each call every stored count is between 1 and 5, the call
    returns [true] or [false], and it returns [true] exactly when it stored a
    fresh record or incremented the stored one. *)
Theorem C10_count_between_one_and_limit (calls : list (Ext * string)) :
  Forall (fun s =>
            counts_in_range (after s) /\
            (returned s = Val true \/ returned s = Val false) /\
            (returned s = Val true <-> stored_or_incremented s))
         (history calls ∅).
Proof.
  apply history_invariant. intros ip r H. rewrite lookup_empty in H. discriminate.
Qed.

End Claims.

(** ** Examples: the theorems at concrete requests, and the requests at
    which a claim fails as stated *)

Import Examples.
(** ** C1 *)

Lemma C1_store_failure_witness :
  let run := exec (MerchWaitlist.POST (post merch_body))
                  (configured 0 (upstream 422 (JObj []))) ∅ in
  notifications run.2 = [] /\
  exists resp, run.1 = Val resp /\ status resp = 502.
Proof.
  apply (C1_store_failure parse_origin encode decimal Merch (post merch_body)
           (configured 0 (upstream 422 (JObj []))) ∅ _ _ (answer 422 (JObj []))).
  - vm_compute. reflexivity.
  - vm_compute. auto.
  - reflexivity.
  - reflexivity.
Defined.

(** C1 fails as stated: the minimal newsletter endpoint answers a
    non-success response of its store with 500, not 502. *)
Lemma C1_newsletter_answers_500 :
  let ext := configured 0 (upstream 400 (error_reply "Invalid email address")) in
  let run := exec (Newsletter.POST (post newsletter_body)) ext ∅ in
  net ext (store NewsletterMinimal) = Responds (answer 400 (error_reply "Invalid email address")) /\
  resp_ok (answer 400 (error_reply "Invalid email address")) = false /\
  upstream_calls run.2 = [EmailOctopus] /\
  run.1 = Val (mkResponse 500 (failure "Failed to subscribe. Please try again later.")).
Proof. vm_compute. repeat split. Qed.

(** ** C2 *)

Lemma C2_honeypot_short_circuit_witness :
  exec (MerchWaitlist.POST (post (JObj [("company", JStr "Acme Corp")])))
       (configured 0 notifications_down) ∅
  = (Val (mkResponse 200 success_true), mkWorld ∅ []).
Proof.
  apply (C2_honeypot_short_circuit parse_origin encode decimal Merch _ _ _
           (JObj [("company", JStr "Acme Corp")]) "Acme Corp").
  - reflexivity.
  - reflexivity.
  - reflexivity.
  - vm_compute. discriminate.
Defined.

(** C2 fails as stated: a [company] of one space is not empty, yet the
    request goes on to validation and is answered 400. *)
Lemma C2_blank_honeypot_goes_on :
  let body := JObj [("company", JStr " ")] in
  Value.get "company" body = Some (JStr " ") /\
  " " <> EmptyString /\
  (exec (MerchWaitlist.POST (post body)) (configured 0 notifications_down) ∅).1
    = Val (mkResponse 400 (failure "Name is required")).
Proof. vm_compute. repeat split. discriminate. Qed.

(** ** C3 *)


Example seven_signups_in_a_window :
  verdicts NewsletterMinimal "unknown" (signup_at 0 :: burst)
    (serve Newsletter.POST (signup_at 0 :: burst) ∅).1
  = [false; false; false; false; false; true; true].
Proof. vm_compute. reflexivity. Qed.

(** ** C4 *)

(** The example of the specification: an empty [fullName] on the
    application endpoint. *)
Lemma C4_missing_field_is_bad_request_witness :
  let body := JObj [("fullName", JStr ""); ("email", JStr "a@b.com")] in
  exists g,
    first_violation Application body = Some g /\
    refused_with g
      (exec (CommunityApply.POST parse_origin encode decimal (post body))
            (configured 0 notifications_down) ∅) ∅ /\
    ((forall j, In j (required_fields Application) -> j <> "fullName" ->
                violates Application body j = false) ->
     g = "fullName").
Proof.
  apply (C4_missing_field_is_bad_request parse_origin encode decimal Application
           (configured 0 notifications_down)
           (post (JObj [("fullName", JStr ""); ("email", JStr "a@b.com")]))
           (JObj [("fullName", JStr ""); ("email", JStr "a@b.com")]) ∅ "fullName").
  - split; [reflexivity|]. split; [discriminate|]. split; vm_compute; reflexivity.
  - left. reflexivity.
  - reflexivity.
Defined.

(** C4 fails as stated: a request that misses a required field is not
    answered 400 when an earlier stage of the pipeline settles it.  With
    nothing configured, the application endpoint answers a request without
    [fullName] with 500; the merch endpoint answers a request without
    [name] whose honeypot is filled with 200; and on a body that is [null],
    which has no field at all, the handler throws. *)
Lemma C4_earlier_stage_answers_first :
  let unnamed := JObj [("email", JStr "a@b.com")] in
  let bot := JObj [("company", JStr "Acme Corp"); ("email", JStr "a@b.com")] in
  (missing_or_blank (Value.get "fullName" unnamed) = true /\
   (exec (CommunityApply.POST parse_origin encode decimal (post unnamed))
         (unconfigured notifications_down) ∅).1
   = Val (application_misconfigured (unconfigured notifications_down))) /\
  (missing_or_blank (Value.get "name" bot) = true /\
   (exec (MerchWaitlist.POST (post bot)) (configured 0 notifications_down) ∅).1
   = Val (mkResponse 200 success_true)) /\
  (missing_or_blank (Value.get "name" JNull) = true /\
   (exec (MerchWaitlist.POST (post JNull)) (configured 0 notifications_down) ∅).1
   = Throw (TypeError "Cannot read properties of null")).
Proof. vm_compute. repeat split. Qed.

Example application_empty_fullName :
  (exec (CommunityApply.POST parse_origin encode decimal
           (post (JObj [("fullName", JStr ""); ("email", JStr "a@b.com")])))
        (configured 0 notifications_down) ∅).1
  = Val (mkResponse 400 (JObj [("error", JStr "fullName is required")])).
Proof. vm_compute. reflexivity. Qed.

(** ** C5 *)

(** A domain without a dot does not have the two-part shape. *)
Lemma dotless_not_shape : ~ email_shape "a@b".
Proof.
  intros (l & d & Heq & Hl & Hd).
  destruct l as [|c1 l]; [contradiction|].
  lazy in Heq. injection Heq as _ Heq.
  destruct l as [|c2 l]; lazy in Heq.
  - injection Heq as Heq. subst d. vm_compute in Hd. discriminate.
  - injection Heq as _ Heq.
    destruct l as [|c3 l]; lazy in Heq; [discriminate|].
    injection Heq as _ Heq. destruct l; discriminate.
Qed.

Lemma C5_email_shape_enforced_witness :
  let body := JObj [("name", JStr "Ada"); ("email", JStr "a@b"); ("sizePreference", JStr "M")] in
  exists g,
    refused_with g
      (exec (MerchWaitlist.POST (post body)) (configured 0 notifications_down) ∅) ∅.
Proof.
  apply (C5_email_shape_enforced parse_origin encode decimal Merch
           (configured 0 notifications_down)
           (post (JObj [("name", JStr "Ada"); ("email", JStr "a@b"); ("sizePreference", JStr "M")]))
           (JObj [("name", JStr "Ada"); ("email", JStr "a@b"); ("sizePreference", JStr "M")]) ∅).
  - split; [reflexivity|]. split; [discriminate|]. reflexivity.
  - exact dotless_not_shape.
Defined.

(** C5 fails as stated: the application endpoint accepts an email whose
    domain has no dot, and writes it to the store. *)
Lemma C5_application_accepts_dotless_domain :
  let body := JObj [("fullName", JStr "Ada Byron"); ("email", JStr "a@b")] in
  let run := exec (CommunityApply.POST parse_origin encode decimal (post body))
                  (configured 0 (upstream 200 (JObj []))) ∅ in
  Value.get "email" body = Some (JStr "a@b") /\
  ~ email_shape "a@b" /\
  run.1 = Val (mkResponse 200 CommunityApply.ok_true) /\
  upstream_calls run.2 = [Airtable; Slack; Resend].
Proof.
  split; [reflexivity|]. split; [exact dotless_not_shape|].
  vm_compute. split; reflexivity.
Qed.

(** ** C6 *)

(** A merch signup that passed validation while nothing is configured. *)
Lemma C6_configuration_check_position_witness :
  exists w,
    exec (MerchWaitlist.POST (post merch_body)) (unconfigured notifications_down) ∅
      = (Val (mkResponse 500 (failure "Server error")), w) /\
    upstream_calls w = [] /\ rateLimitMap w = ∅.
Proof.
  apply (C6_configuration_check_position parse_origin encode decimal Merch
           (post merch_body) (unconfigured notifications_down) ∅).
  - vm_compute. reflexivity.
  - vm_compute. reflexivity.
Defined.

(** The configuration check of the application endpoint comes first: a
    body that is not JSON is answered with the list of what is missing. *)
Example application_configuration_before_parsing :
  (exec (CommunityApply.POST parse_origin encode decimal post_garbage)
        (unconfigured notifications_down) ∅).1
  = Val (application_misconfigured (unconfigured notifications_down)).
Proof. vm_compute. reflexivity. Qed.

(** With nothing configured, a valid newsletter signup is counted by the
    rate limiter before the configuration check rejects it. *)
Example newsletter_unconfigured :
  let run := exec (Newsletter.POST (post newsletter_body)) (unconfigured notifications_down) ∅ in
  run.1 = Val (mkResponse 500 (failure "Server configuration error")) /\
  upstream_calls run.2 = [] /\
  rateLimitMap run.2 !! "unknown" = Some (mkRate 1 60000).
Proof. vm_compute. repeat split. Qed.

(** A merch signup whose [interestedIn] is a number throws where the field
    is trimmed, configured or not. *)
Example merch_interest_is_a_number :
  let body := JObj [("name", JStr "Ada"); ("email", JStr "a@b.com");
                    ("sizePreference", JStr "M"); ("interestedIn", JNum 5)] in
  exec (MerchWaitlist.POST (post body)) (unconfigured notifications_down) ∅
    = (Throw (TypeError "trim is not a function"), mkWorld ∅ []) /\
  exec (MerchWaitlist.POST (post body)) (configured 0 notifications_down) ∅
    = (Throw (TypeError "trim is not a function"), mkWorld ∅ []).
Proof. vm_compute. split; reflexivity. Qed.

(** C6 fails as stated: with nothing configured, the merch endpoint answers
    a body that is not JSON with 400, not with the server-misconfigured
    response. *)
Lemma C6_merch_parses_before_configuration :
  config_missing Merch (unconfigured notifications_down) = true /\
  exec (MerchWaitlist.POST post_garbage) (unconfigured notifications_down) ∅
    = (Val (mkResponse 400 (failure "Invalid JSON")), mkWorld ∅ []).
Proof. vm_compute. split; reflexivity. Qed.

(** ** C7 *)

Lemma C7_success_despite_notifications_witness :
  (exec (CommunityApply.POST parse_origin encode decimal (post application_body))
        (configured 0 notifications_down) ∅).1
  = Val (mkResponse 200 CommunityApply.ok_true).
Proof.
  apply (C7_success_despite_notifications parse_origin encode decimal Application
           (post application_body) (configured 0 notifications_down) ∅ _
           (exec (CommunityApply.POST parse_origin encode decimal (post application_body))
                 (configured 0 notifications_down) ∅).2
           (answer 200 (JObj []))).
  - vm_compute. reflexivity.
  - vm_compute. auto.
  - reflexivity.
  - reflexivity.
  - discriminate.
Defined.

(** C7 fails as stated: the newsletter handlers read the JSON body of the
    response of the contact list before they look at its status, so a
    write that was answered with a success status and a body that is not
    JSON is answered 500. *)
Lemma C7_unreadable_success_is_500 :
  let r := mkFetchResponse 200 "OK" (Some "created") None in
  let ext := configured 0 (fun _ => Responds r) in
  let run := exec (Newsletter.POST (post newsletter_body)) ext ∅ in
  net ext (store NewsletterMinimal) = Responds r /\
  resp_ok r = true /\
  upstream_calls run.2 = [EmailOctopus] /\
  run.1 = Val (mkResponse 500 (failure "Internal server error")).
Proof. vm_compute. repeat split. Qed.

(** ** C8 *)

Lemma C8_missing_keys_enumerated_witness :
  exists resp w,
    exec (CommunityApply.POST parse_origin encode decimal (post application_body))
         (unconfigured notifications_down) ∅ = (Val resp, w) /\
    status resp = 500 /\
    let missing := CommunityApply.missing_configuration (unconfigured notifications_down) in
    Value.get "missing" (body resp) = Some (JArr (map JStr missing)) /\
    (In "AIRTABLE_PAT" missing <->
     present (process_env (unconfigured notifications_down) !! "AIRTABLE_PAT") = false) /\
    (In "AIRTABLE_BASE_ID" missing <->
     present (process_env (unconfigured notifications_down) !! "AIRTABLE_BASE_ID") = false) /\
    (In "AIRTABLE_TABLE_ID or AIRTABLE_TABLE_NAME" missing <->
     present (process_env (unconfigured notifications_down) !! "AIRTABLE_TABLE_ID") = false /\
     present (process_env (unconfigured notifications_down) !! "AIRTABLE_TABLE_NAME") = false) /\
    (forall ext', same_keys_set (unconfigured notifications_down) ext' ->
                  application_misconfigured ext' = resp).
Proof.
  apply (C8_missing_keys_enumerated parse_origin encode decimal Application
           (post application_body) (unconfigured notifications_down) ∅ ∅).
  - vm_compute. reflexivity.
  - vm_compute. reflexivity.
Defined.

Example application_unconfigured :
  (exec (CommunityApply.POST parse_origin encode decimal (post application_body))
        (unconfigured notifications_down) ∅).1
  = Val (mkResponse 500
           (JObj [("error", JStr "Server configuration error");
                  ("missing", JArr [JStr "AIRTABLE_PAT"; JStr "AIRTABLE_BASE_ID";
                                    JStr "AIRTABLE_TABLE_ID or AIRTABLE_TABLE_NAME"])])).
Proof. vm_compute. reflexivity. Qed.

(** C8 fails as stated: with nothing configured, the merch endpoint rejects
    a valid submission with a fixed message; no key is named. *)
Lemma C8_merch_names_no_key :
  let run := exec (MerchWaitlist.POST (post merch_body)) (unconfigured notifications_down) ∅ in
  config_missing Merch (unconfigured notifications_down) = true /\
  run.1 = Val (mkResponse 500 (failure "Server error")) /\
  (forall resp, run.1 = Val resp -> Value.get "missing" (body resp) = None).
Proof.
  vm_compute. split; [reflexivity|]. split; [reflexivity|].
  intros resp H. injection H as <-. reflexivity.
Qed.

(** ** C9 *)

Lemma C9_already_on_list_witness :
  (exec (NewsletterNamed.POST (post named_body))
        (configured 0 (upstream 409 (error_reply "Member is already subscribed to the list"))) ∅).1
  = Val (mkResponse 200 success_true).
Proof.
  apply (C9_already_on_list parse_origin encode decimal NewsletterWithName
           (post named_body)
           (configured 0 (upstream 409 (error_reply "Member is already subscribed to the list")))
           ∅ _
           (exec (NewsletterNamed.POST (post named_body))
              (configured 0 (upstream 409 (error_reply "Member is already subscribed to the list"))) ∅).2
           (answer 409 (error_reply "Member is already subscribed to the list"))
           (error_reply "Member is already subscribed to the list")
           "Member is already subscribed to the list").
  - reflexivity.
  - vm_compute. reflexivity.
  - vm_compute. auto.
  - reflexivity.
  - reflexivity.
  - reflexivity.
  - reflexivity.
  - left. reflexivity.
Defined.

(** ** More of the handlers at work *)

Example valid_emails :
  map isValidEmail ["a@b.com"; "first.last@sub.example.org"; "a@b..c"; "a@b.c."]
  = [true; true; true; true].
Proof. vm_compute. reflexivity. Qed.

Example invalid_emails :
  map isValidEmail [""; "a@b"; "@b.c"; "a@.c"; "a@b."; "a b@c.d"; "a@b@c.d"; "a@b.c "]
  = [false; false; false; false; false; false; false; false].
Proof. vm_compute. reflexivity. Qed.

Example trimmed : JS.trim "  a@b.com  " = "a@b.com".
Proof. vm_compute. reflexivity. Qed.

Example forwarded_client :
  RateLimit.clientIp
    (mkRequest {[ "x-forwarded-for" := "203.0.113.7, 10.0.0.1" ]} Examples.site None)
  = "203.0.113.7".
Proof. vm_compute. reflexivity. Qed.

(** The example of the specification: a valid minimal newsletter signup. *)
Example newsletter_signup :
  let run := exec (Newsletter.POST (post newsletter_body))
                  (configured 0 (upstream 200 (JObj []))) ∅ in
  run.1 = Val (mkResponse 200 success_true) /\
  trace run.2 =
    [Fetch EmailOctopus "https://emailoctopus.com/api/1.6/lists/list/contacts"
       (Some (JObj [("api_key", JStr "key");
                    ("email_address", JStr "a@b.com");
                    ("fields", JObj [("SignupSource", JStr "website_newsletter")])]))].
Proof. vm_compute. split; reflexivity. Qed.

(** A failed write of the merch endpoint: one call to the store, none to
    the chat webhook. *)
Example merch_store_failure :
  let run := exec (MerchWaitlist.POST (post merch_body))
                  (configured 0 (upstream 422 (JObj []))) ∅ in
  run.1 = Val (mkResponse 502 (failure "Server error")) /\
  upstream_calls run.2 = [Airtable].
Proof. vm_compute. split; reflexivity. Qed.

(** The record the merch endpoint writes. *)
Example merch_record :
  let body := JObj [("name", JStr " Ada "); ("email", JStr "a@b.com");
                    ("sizePreference", JStr "M"); ("interestedIn", JStr " caps ")] in
  let run := exec (MerchWaitlist.POST (post body))
                  (configured 0 notifications_down) ∅ in
  run.1 = Val (mkResponse 200 success_true) /\
  head (trace run.2) =
    Some (Fetch Airtable "https://api.airtable.com/v0/app/merch"
            (Some (AirtableApi.records
                     (JObj [("Name", JStr "Ada"); ("Email", JStr "a@b.com");
                            ("Size Preference", JStr "M"); ("Source", JStr "merch_page");
                            ("Interested In", JStr "caps")])))).
Proof. vm_compute. split; reflexivity. Qed.

(** A body that is the JSON literal [null] makes a handler throw. *)
Example null_body_throws :
  (exec (MerchWaitlist.POST (post JNull)) (configured 0 notifications_down) ∅).1
  = Throw (TypeError "Cannot read properties of null").
Proof. vm_compute. reflexivity. Qed.

(** * Further properties *)

(** ** Strings *)

Lemma append_length (a b : string) :
  String.length (a +:+ b) = (String.length a + String.length b)%nat.
Proof.
  induction a as [|c a IH]; [reflexivity|].
  change (S (String.length (a +:+ b)) = S (String.length a + String.length b)).
  f_equal. exact IH.
Qed.

Lemma trimStart_fixed (s : string) :
  JS.trimStart (JS.trimStart s) = JS.trimStart s.
Proof.
  induction s as [|c s IH]; [reflexivity|].
  cbn [JS.trimStart]. destruct (JS.is_space c) eqn:E; [exact IH|].
  cbn [JS.trimStart]. rewrite E. reflexivity.
Qed.

Lemma trimEnd_fixed (s : string) : JS.trimEnd (JS.trimEnd s) = JS.trimEnd s.
Proof.
  induction s as [|c s IH]; [reflexivity|].
  cbn [JS.trimEnd].
  destruct (JS.is_space c && JS.is_empty (JS.trimEnd s)) eqn:E; [reflexivity|].
  cbn [JS.trimEnd]. rewrite IH, E. reflexivity.
Qed.

(** Trimming the end keeps a string that starts with no white space
    starting with none. *)
Lemma trimStart_trimEnd (s : string) :
  JS.trimStart s = s -> JS.trimStart (JS.trimEnd s) = JS.trimEnd s.
Proof.
  destruct s as [|c s]; [reflexivity|].
  cbn [JS.trimStart JS.trimEnd].
  destruct (JS.is_space c) eqn:E.
  - intros H. exfalso.
    destruct (trimStart_decompose s) as [pre Hpre].
    apply (f_equal String.length) in H. apply (f_equal String.length) in Hpre.
    rewrite append_length in Hpre.
    change (String.length (JS.trimStart s) = S (String.length s)) in H. lia.
  - intros _. cbn [andb JS.trimStart]. rewrite E. reflexivity.
Qed.

Lemma trim_fixed (s : string) : JS.trim (JS.trim s) = JS.trim s.
Proof.
  unfold JS.trim.
  rewrite (trimStart_trimEnd (JS.trimStart s)) by apply trimStart_fixed.
  apply trimEnd_fixed.
Qed.

Lemma substring0_length (n : nat) (s : string) :
  (String.length (JS.substring0 n s) <= n)%nat.
Proof.
  revert s. induction n as [|n IH]; intros s; [apply Nat.le_refl|].
  destruct s as [|c s]; [apply Nat.le_0_l|].
  change (S (String.length (JS.substring0 n s)) <= S n)%nat.
  specialize (IH s). lia.
Qed.

Lemma substring0_prefix (n : nat) (s : string) :
  exists rest, s = JS.substring0 n s +:+ rest.
Proof.
  revert s. induction n as [|n IH]; intros s; [exists s; reflexivity|].
  destruct s as [|c s]; [exists EmptyString; reflexivity|].
  destruct (IH s) as [rest Hrest]. exists rest.
  cbn [JS.substring0]. change (String c s = String c (JS.substring0 n s +:+ rest)).
  f_equal. exact Hrest.
Qed.

Lemma count_char_app (c : ascii) (a b : string) :
  count_char c (a +:+ b) = (count_char c a + count_char c b)%nat.
Proof.
  induction a as [|x a IH]; [reflexivity|].
  change (String x a +:+ b) with (String x (a +:+ b)).
  cbn [count_char]. rewrite IH. lia.
Qed.

Lemma no_space_app (a b : string) :
  no_space (a +:+ b) = no_space a && no_space b.
Proof.
  induction a as [|x a IH]; [reflexivity|].
  change (String x a +:+ b) with (String x (a +:+ b)).
  cbn [no_space]. rewrite IH, andb_assoc. reflexivity.
Qed.

Lemma plain_chars_count (s : string) :
  plain_chars s = true -> count_char "@" s = O /\ no_space s = true.
Proof.
  induction s as [|c s IH]; [auto|].
  cbn [plain_chars count_char no_space]. intros H.
  apply andb_true_iff in H as [H Hs]. apply andb_true_iff in H as [Hsp Hat].
  destruct (IH Hs) as [Hc Hn]. rewrite Hc, Hn, Hsp.
  apply negb_true_iff in Hat. rewrite Hat. auto.
Qed.

(** X1. [isValidEmail] accepts exactly the texts of the form [l@d1.d2]
    whose three parts are not empty and hold neither white space nor an
    at sign. *)
Theorem isValidEmail_exactly (s : string) :
  isValidEmail s = true <->
  exists l d1 d2 : string,
    s = l +:+ "@" +:+ d1 +:+ "." +:+ d2 /\
    plain l = true /\ plain d1 = true /\ plain d2 = true.
Proof. apply isValidEmail_parts. Qed.

(** X2. A text that [isValidEmail] accepts has exactly one at sign and no
    white space; trimming leaves it as it is. *)
Theorem isValidEmail_one_at (s : string) :
  isValidEmail s = true ->
  count_char "@" s = 1%nat /\ no_space s = true /\ JS.trim s = s.
Proof.
  intros H. apply isValidEmail_parts in H as (l & d1 & d2 & -> & Hl & H1 & H2).
  unfold plain in *.
  apply andb_true_iff in Hl as [Hle Hl]. apply andb_true_iff in H1 as [H1e H1].
  apply andb_true_iff in H2 as [H2e H2].
  destruct (plain_chars_count _ Hl) as [Cl Nl].
  destruct (plain_chars_count _ H1) as [C1 N1].
  destruct (plain_chars_count _ H2) as [C2 N2].
  assert (Hn : no_space (l +:+ "@" +:+ d1 +:+ "." +:+ d2) = true).
  { rewrite !no_space_app, Nl, N1, N2. reflexivity. }
  split; [|split; [exact Hn|]].
  - rewrite !count_char_app, Cl, C1, C2. reflexivity.
  - revert Hn. generalize (l +:+ "@" +:+ d1 +:+ "." +:+ d2). clear.
    intros s Hs. unfold JS.trim.
    assert (Hstart : JS.trimStart s = s).
    { destruct s as [|c s]; [reflexivity|]. cbn [no_space] in Hs.
      apply andb_true_iff in Hs as [Hc _]. apply negb_true_iff in Hc.
      cbn [JS.trimStart]. rewrite Hc. reflexivity. }
    rewrite Hstart. induction s as [|c s IH]; [reflexivity|].
    cbn [no_space] in Hs. apply andb_true_iff in Hs as [Hc Hs].
    apply negb_true_iff in Hc. cbn [JS.trimEnd]. rewrite Hc. cbn [andb].
    f_equal. apply IH; [exact Hs|].
    destruct s as [|c' s]; [reflexivity|]. cbn [no_space] in Hs.
    apply andb_true_iff in Hs as [Hc' _]. apply negb_true_iff in Hc'.
    cbn [JS.trimStart]. rewrite Hc'. reflexivity.
Qed.


(** ** The columns of an application record *)

(** X3. The column that holds the answer to "why TTB" (in either revision
    of the application handler) holds at most 5000 characters, and they
    are the first characters of the trimmed answer. *)
Theorem why_column_capped (Number_toString : Z -> string) (v : JSValue) :
  Forall (fun column : string * JSON =>
            exists j answer s rest,
              v = Some j /\
              CommunityApply.to_String Number_toString j = Some answer /\
              column.2 = JStr s /\
              JS.trim answer = s +:+ rest /\
              (String.length s <= 5000)%nat)
         (produced (CommunityApply.why_column Number_toString v) ++
          produced (CommunityApplyEarlier.why_column Number_toString v)).
Proof.
  unfold CommunityApply.why_column, CommunityApplyEarlier.why_column.
  destruct v as [j|]; [|constructor].
  destruct (Value.truthy (Some j)); [|constructor].
  destruct (CommunityApply.to_String Number_toString j) as [answer|] eqn:E; [|constructor].
  destruct (substring0_prefix 5000 (JS.trim answer)) as [rest Hrest].
  repeat constructor;
    (exists j, answer, (JS.substring0 5000 (JS.trim answer)), rest;
     repeat split; [exact E | exact Hrest | apply substring0_length]).
Qed.

Lemma trimmed_items_clean (Number_toString : Z -> string) (items : list JSON)
    (trimmed : list string) :
  mapM (fun f => JS.trim <$> CommunityApply.to_String Number_toString f) items
    = Some trimmed ->
  Forall clean (filter (fun f => JS.truthy_str f) trimmed).
Proof.
  intros H. apply mapM_Some in H.
  apply Forall_forall. intros s Hs.
  apply list_elem_of_filter in Hs as [Hne Hs].
  apply list_elem_of_lookup in Hs as [i Hi].
  destruct (Forall2_lookup_r _ _ _ _ _ H Hi) as (f & _ & Hf).
  destruct (CommunityApply.to_String Number_toString f) as [t|]; [|discriminate Hf].
  injection Hf as <-.
  split; [|apply trim_fixed].
  intros E. rewrite E in Hne. exact Hne.
Qed.

(** X4. The column that holds the fields of interest (in either revision)
    is always an array of texts, also when the request gives a single
    value, and every text in it is trimmed and not empty. *)
Theorem fields_column_clean (Number_toString : Z -> string) (v : JSValue) :
  Forall (fun column : string * JSON =>
            exists items, column.2 = JArr (map JStr items) /\ Forall clean items)
         (produced (CommunityApply.fields_column Number_toString v) ++
          produced (CommunityApplyEarlier.fields_column Number_toString v)).
Proof.
  unfold CommunityApply.fields_column, CommunityApplyEarlier.fields_column.
  destruct v as [j|]; [|constructor].
  destruct (mapM _ _) as [trimmed|] eqn:E; [|constructor].
  repeat constructor;
    (eexists; split; [reflexivity | apply (trimmed_items_clean _ _ _ E)]).
Qed.

(** ** The client key of the rate limiter *)

Lemma present_value (v : option string) :
  present v = true -> value_of v <> EmptyString.
Proof. destruct v as [[|c s]|]; cbn; congruence. Qed.

(** X5. The key under which the rate limiter counts a request is never
    the empty text: it is the first entry of [x-forwarded-for] when that
    is not empty, otherwise [x-real-ip] when that is not empty, otherwise
    ["unknown"]. *)
Theorem clientIp_never_empty (request : Request) :
  RateLimit.clientIp request <> EmptyString /\
  match headers request !! "x-forwarded-for", headers request !! "x-real-ip" with
  | Some forwarded, real =>
      if JS.is_empty (JS.split_head "," forwarded)
      then RateLimit.clientIp request = (if present real then value_of real else "unknown")
      else RateLimit.clientIp request = JS.split_head "," forwarded
  | None, real =>
      RateLimit.clientIp request = (if present real then value_of real else "unknown")
  end.
Proof.
  unfold RateLimit.clientIp.
  destruct (headers request !! "x-forwarded-for") as [f|]; cbn [fmap option_fmap option_map].
  - unfold present at 1 3, value_of at 1 3, JS.truthy_str. cbn [default].
    destruct (JS.split_head "," f) as [|c s] eqn:E; cbn [JS.is_empty negb].
    + split; [|reflexivity].
      destruct (present (headers request !! "x-real-ip")) eqn:P;
        [apply present_value, P | discriminate].
    + split; [discriminate | reflexivity].
  - cbn [present]. split; [|reflexivity].
    destruct (present (headers request !! "x-real-ip")) eqn:P;
      [apply present_value, P | discriminate].
Qed.

(** ** The rate-limit map *)

(** X6. The rate limiter never forgets a client: after each call the map
    has the keys it had before and the caller's, whether the call was
    allowed or not. *)
Theorem rate_limit_keys_grow (calls : list (Ext * string))
    (limits : gmap string RateRecord) :
  Forall (fun s => dom (after s) = {[call_ip s]} ∪ dom (before s))
         (history calls limits).
Proof.
  revert limits. induction calls as [|[ext ip] rest IH]; intros limits; cbn [history].
  - constructor.
  - destruct (limiter_step ext ip limits) as [b limits'] eqn:Hstep.
    constructor; [|apply IH]. cbn [after before call_ip].
    rewrite limiter_step_unfold in Hstep.
    destruct (limits !! ip) as [r|] eqn:Hr.
    + destruct (now ext >? resetAt r); [injection Hstep as <- <-; apply dom_insert_L|].
      destruct (count r >=? RateLimit.RATE_LIMIT_REQUESTS); injection Hstep as <- <-;
        [|apply dom_insert_L].
      symmetry. apply subseteq_union_1_L, singleton_subseteq_l, elem_of_dom. eauto.
    + injection Hstep as <- <-. apply dom_insert_L.
Qed.

(** ** The configuration probe *)

Lemma drop_suffix (n : nat) (s : string) :
  exists hidden, s = hidden +:+ NewsletterDebug.drop n s /\ String.length hidden = Nat.min n (String.length s).
Proof.
  revert s. induction n as [|n IH]; intros s; [exists EmptyString; split; reflexivity|].
  destruct s as [|c s]; [exists EmptyString; split; reflexivity|].
  destruct (IH s) as [hidden [Hs Hl]]. exists (String c hidden). split.
  - change (String c s = String c (hidden +:+ NewsletterDebug.drop n s)). f_equal. exact Hs.
  - change (S (String.length hidden) = Nat.min (S n) (S (String.length s))).
    rewrite Hl. reflexivity.
Qed.

(** X7. The preview of the list identifier that the probe returns shows
    the last six characters of the identifier and no more; an identifier
    of at most six characters is shown in full, an unset or empty one as
    [null]. *)
Theorem listIdPreview_shows_six (listId : option string) :
  (present listId = false /\ NewsletterDebug.listIdPreview listId = JNull) \/
  exists hidden shown,
    listId = Some (hidden +:+ shown) /\
    NewsletterDebug.listIdPreview listId = JStr shown /\
    String.length shown = Nat.min 6 (String.length (hidden +:+ shown)).
Proof.
  unfold NewsletterDebug.listIdPreview.
  destruct listId as [s|]; [|left; split; reflexivity].
  destruct (present (Some s)) eqn:P; [|left; split; reflexivity].
  right. cbn [andb]. change (value_of (Some s)) with s.
  destruct (6 <? String.length s)%nat eqn:L.
  - apply Nat.ltb_lt in L. unfold NewsletterDebug.slice_last.
    destruct (drop_suffix (String.length s - 6) s) as [hidden [Hs Hl]].
    exists hidden, (NewsletterDebug.drop (String.length s - 6) s).
    rewrite <- Hs. split; [reflexivity|]. split; [reflexivity|].
    apply (f_equal String.length) in Hs. rewrite append_length in Hs. lia.
  - apply Nat.ltb_ge in L. exists EmptyString, s.
    split; [reflexivity|]. split; [reflexivity|].
    change (EmptyString +:+ s) with s. lia.
Qed.

(** X8. The probe answers 200 and touches nothing, and its answer tells
    of the API key only whether it is set to something not blank: two
    environments that differ in that key alone, blank in both or in
    neither, get the same answer. *)
Theorem probe_hides_api_key DEV ext ext' limits :
  process_env ext' = process_env ext ->
  import_meta_env ext' !! "EMAILOCTOPUS_LIST_ID"
    = import_meta_env ext !! "EMAILOCTOPUS_LIST_ID" ->
  NewsletterDebug.set_and_not_blank (import_meta_env ext' !! "EMAILOCTOPUS_API_KEY")
    = NewsletterDebug.set_and_not_blank (import_meta_env ext !! "EMAILOCTOPUS_API_KEY") ->
  exec (NewsletterDebug.GET DEV) ext' limits = exec (NewsletterDebug.GET DEV) ext limits /\
  exists report,
    exec (NewsletterDebug.GET DEV) ext limits
      = (Val (mkResponse 200 report), mkWorld limits []).
Proof.
  intros Hp Hl Hk.
  unfold exec, NewsletterDebug.GET, bind, mbind, M_bind, ask, respond, mret, M_ret.
  rewrite Hp, Hl, Hk. split; [reflexivity|]. eexists. reflexivity.
Qed.
(** ** Running a handler with its whole trace *)

(** The origin check: a verdict, or the TypeError of [new URL]. *)
Lemma cross_origin_outcome (URL_origin : string -> option string) request ext w :
  (exists b, CommunityApply.cross_origin URL_origin request ext w = (Val b, w) /\
             same_origin URL_origin request = negb b) \/
  (CommunityApply.cross_origin URL_origin request ext w
     = (Throw (TypeError "Invalid URL"), w) /\
   same_origin URL_origin request = false).
Proof.
  unfold CommunityApply.cross_origin, same_origin.
  destruct (present (headers request !! "origin")).
  - destruct (URL_origin (value_of (headers request !! "origin"))) as [o|].
    + left. eexists. split; [reflexivity|]. rewrite negb_involutive. reflexivity.
    + right. split; reflexivity.
  - left. exists false. split; reflexivity.
Qed.

(** A notification block: one call to the target, one log line, and no
    exception, whatever the target answers. *)
Lemma notify_run (t : Target) (url : string)
    (report : FetchResponse -> string -> list JSON)
    (failed sent threw : string) ext w :
  try_catch
    (bind (fetch t url None) (fun r =>
       if negb (resp_ok r)
       then bind (text r) (fun body => console LogError failed (report r body))
       else console LogInfo sent []))
    (fun _ => console LogError threw []) ext w
  = (Val tt,
     mkWorld (rateLimitMap w)
       ((trace w ++ [Fetch t url None])
        ++ [notification_log (net ext t) report failed sent threw])).
Proof.
  cbv beta iota zeta delta
    [try_catch bind mbind M_bind fetch emit ask text console throw mret M_ret
     rateLimitMap trace notification_log].
  destruct (net ext t) as [|r]; [reflexivity|].
  destruct (resp_ok r); cbn [negb]; [reflexivity|].
  destruct (resp_text r); reflexivity.
Qed.

Lemma notification_log_target answer report failed sent threw :
  fetch_target (notification_log answer report failed sent threw) = None.
Proof.
  unfold notification_log. destruct answer as [|r]; [reflexivity|].
  destruct (resp_ok r); [reflexivity|]. destruct (resp_text r); reflexivity.
Qed.

Lemma notification_log_written answer report failed sent threw :
  written (notification_log answer report failed sent threw) = None.
Proof.
  unfold notification_log. destruct answer as [|r]; [reflexivity|].
  destruct (resp_ok r); [reflexivity|]. destruct (resp_text r); reflexivity.
Qed.

Ltac whnf_all H :=
  lazymatch type of H with
  | ?l = ?r =>
      let l' := eval lazy head beta iota zeta delta
        [exec handle Newsletter.POST NewsletterNamed.POST MerchWaitlist.POST
         CommunityApply.POST CommunityApplyEarlier.POST
         EmailOctopusApi.errorMessage
         fetch text json call_trim converted console emit ask respond
         throw bind mbind M_bind mret M_ret negb andb orb] in l in
      change (l' = r) in H
  end.

(** One decision of a run that keeps the whole trace.  A decision that an
    earlier run of the same request has taken is taken again the same
    way, so that two runs can be followed side by side. *)
Ltac step_all H :=
  lazymatch type of H with
  | ?l = _ =>
      let x := stuck_on l in
      lazymatch x with
      | (_, _) => fail
      | _ =>
        first
        [ lazymatch x with
          | context [Value.get ?k ?b] =>
              match goal with
              | E : Value.get k b = _ |- _ => rewrite E in H
              end
          end
        | match goal with
          | E : x = _ |- _ => tryif constr_eq E H then fail else rewrite E in H
          end
        | lazymatch x with
          | prop ?b ?k ?e ?w =>
              first [ rewrite (prop_defined b k e w) in H by assumption
                    | rewrite (prop_null k e w) in H
                    | destruct (JSON_null_dec b) as [->|?] ]
          | honeypot ?b ?e ?w =>
              first [ rewrite (honeypot_clear_run b e w) in H by assumption
                    | unfold honeypot in H ]
          | RateLimit.checkRateLimit ?ip ?e ?w =>
              let E := fresh "Hlimiter" in
              rewrite (checkRateLimit_run ip e w) in H;
              cbn [rateLimitMap trace] in H;
              first [ match goal with
                      | L : limiter_step e ip _ = _ |- _ => rewrite L in H
                      end
                    | destruct (limiter_step_cases e ip (rateLimitMap w)) as [[? E] | E];
                      cbn [rateLimitMap trace] in E; rewrite E in H ];
              cbn [fst snd] in H
          | try_catch
              (bind (fetch ?t ?url None) (fun r =>
                 if negb (resp_ok r)
                 then bind (text r) (fun body => console LogError ?failed (@?report r body))
                 else console LogInfo ?sent []))
              (fun _ => console LogError ?threw []) ?e ?w =>
              rewrite (notify_run t url report failed sent threw e w) in H
          | try_catch ?m ?h ?e ?w =>
              rewrite (try_catch_unfold m h e w) in H
          | CommunityApply.cross_origin ?U ?r ?e ?w =>
              let E := fresh "Ecors" in
              let S := fresh "Horigin" in
              let b := fresh "forbidden" in
              destruct (cross_origin_outcome U r e w) as [[b [E S]] | [E S]];
              rewrite E in H;
              try (match goal with
                   | Hs : same_origin U r = true |- _ => rewrite Hs in S
                   end;
                   first [ discriminate S
                         | destruct b; [discriminate S | clear S] ])
          | _ =>
              first [ let x' := eval cbn in x in
                      lazymatch x' with
                      | true => change x with true in H
                      | false => change x with false in H
                      end
                    | is_var x; destruct x
                    | destruct x eqn:? ]
          end ]
      end;
      whnf_all H
  end.

Ltac run_all H := whnf_all H; repeat step_all H.

(** Read the upstream calls, the writes and the log lines off a trace. *)
Ltac calls_known :=
  cbn [upstream_calls trace omap list_omap fetch_target app];
  rewrite ?notification_log_target.

Ltac notifications_known :=
  unfold notifications; calls_known;
  cbn [List.filter is_notification omap list_omap fetch_target app].

Ltac writes_known :=
  cbn [store_writes trace omap list_omap written app];
  rewrite ?notification_log_written.
(** ** What a run has found out about a request *)

Lemma honeypot_stopped body s :
  Value.get "company" body = Some (JStr s) ->
  (0 <? String.length (JS.trim s))%nat = true ->
  honeypot_clear body = false.
Proof.
  intros Hg Hl. unfold honeypot_clear.
  destruct body; try discriminate Hg; rewrite Hg; rewrite is_empty_length in Hl;
    apply negb_true_iff in Hl; exact Hl.
Qed.

Lemma honeypot_passed body :
  body <> JNull ->
  Value.truthy (Value.get "company" body) = false \/
  (exists s, Value.get "company" body = Some (JStr s) /\
             (0 <? String.length (JS.trim s))%nat = false) ->
  honeypot_clear body = true.
Proof.
  intros Hb Hc.
  assert (H : match Value.get "company" body with
              | Some (JStr s) => JS.is_empty (JS.trim s)
              | v => negb (Value.truthy v)
              end = true).
  { destruct Hc as [Hc | [s [Hg Hl]]].
    - destruct (Value.get "company" body) as [[| b | n | s | l | f]|];
        try reflexivity; try (rewrite Hc; reflexivity).
      destruct s; [reflexivity | discriminate Hc].
    - rewrite Hg. rewrite is_empty_length in Hl. apply negb_false_iff in Hl. exact Hl. }
  unfold honeypot_clear. destruct body; try exact H. congruence.
Qed.

Lemma text_field_accepted ep body k s :
  String.eqb k "email" = false ->
  Value.get k body = Some (JStr s) ->
  Value.missing_text (Some (JStr s)) = false ->
  violates ep body k = false.
Proof. intros Hk Hg Hm. rewrite violates_text by exact Hk. rewrite Hg. exact Hm. Qed.

Lemma email_field_accepted ep body s :
  Value.get "email" body = Some (JStr s) ->
  email_format_ok ep s = true ->
  violates ep body "email" = false.
Proof.
  intros Hg Hf. unfold violates. cbn [String.eqb Ascii.eqb Bool.eqb].
  rewrite Hg, Hf. reflexivity.
Qed.

(** The facts a run has gathered about the required fields say that none
    is in violation. *)
Ltac fields_accepted :=
  unfold first_violation; cbn [required_fields find];
  repeat match goal with
         | |- context [violates ?ep ?b "email"] =>
             rewrite (email_field_accepted ep b _ ltac:(eassumption) ltac:(eassumption))
         | |- context [violates ?ep ?b ?k] =>
             rewrite (text_field_accepted ep b k _ eq_refl ltac:(eassumption) ltac:(eassumption))
         end;
  reflexivity.

Ltac honeypot_let_through :=
  apply honeypot_passed;
  [ assumption
  | first [ right; eexists; split; eassumption
          | left;
            try match goal with
                | E : Value.get "company" _ = _ |- _ => rewrite E
                end;
            first [assumption | reflexivity] ] ].

Ltac configured_leaf :=
  first [ rewrite <- missing_configuration_length; assumption
        | unfold config_missing;
          repeat match goal with
                 | E : present _ = true |- _ => rewrite E; clear E
                 end; reflexivity ].

Lemma violates_email_application body :
  violates Application body "email" =
  negb (Value.truthy (Value.get "email" body))
  || negb (Value.is_string (Value.get "email" body))
  || negb (Value.str_includes "@" (Value.get "email" body)).
Proof.
  unfold violates. cbn [String.eqb Ascii.eqb Bool.eqb].
  destruct (Value.get "email" body) as [[| b | n | s | l | f]|]; try reflexivity.
  - destruct b; reflexivity.
  - cbn [Value.truthy Value.is_string negb orb]. destruct (n =? 0); reflexivity.
  - destruct s; reflexivity.
Qed.

Lemma violates_email_checked ep body :
  honeypot_protected ep = true ->
  violates ep body "email" =
  negb (Value.truthy (Value.get "email" body))
  || negb (Value.is_string (Value.get "email" body))
  || match Value.get "email" body with
     | Some (JStr s) => negb (isValidEmail (JS.trim s))
     | _ => true
     end.
Proof.
  intros Hep. unfold violates. cbn [String.eqb Ascii.eqb Bool.eqb].
  destruct (Value.get "email" body) as [[| b | n | s | l | f]|]; try reflexivity.
  - destruct b; reflexivity.
  - cbn [Value.truthy Value.is_string negb orb]. destruct (n =? 0); reflexivity.
  - destruct ep; try discriminate Hep; destruct s; reflexivity.
Qed.

(** Decide the first violation from the facts a run has gathered. *)
Ltac first_violation_known :=
  unfold first_violation; cbn [required_fields find];
  repeat match goal with
         | |- context [violates Application ?b "email"] =>
             rewrite (violates_email_application b)
         | |- context [violates ?ep ?b "email"] =>
             rewrite (violates_email_checked ep b eq_refl)
         | |- context [violates ?ep ?b ?k] =>
             rewrite (violates_text ep b k eq_refl)
         end;
  repeat match goal with
         | E : Value.get _ _ = _ |- _ => rewrite E
         end;
  repeat match goal with
         | E : _ = true |- _ => rewrite E
         | E : _ = false |- _ => rewrite E
         end;
  reflexivity.

Lemma limiter_refusal ext ip (limits limits' : gmap string RateRecord) :
  limiter_step ext ip limits = (Val false, limits') ->
  exists record, limits !! ip = Some record /\
                 now ext <= resetAt record /\
                 RateLimit.RATE_LIMIT_REQUESTS <= count record.
Proof.
  rewrite limiter_step_unfold. intros H.
  destruct (limits !! ip) as [r|]; [|discriminate H].
  destruct (now ext >? resetAt r) eqn:Et; [discriminate H|].
  destruct (count r >=? RateLimit.RATE_LIMIT_REQUESTS) eqn:Ec; [|discriminate H].
  exists r. split; [reflexivity|]. split.
  - rewrite Z.gtb_ltb in Et. apply Z.ltb_ge in Et. exact Et.
  - rewrite Z.geb_leb in Ec. apply Z.leb_le in Ec. exact Ec.
Qed.

Lemma limiter_step_clock ext ext' ip (limits : gmap string RateRecord) :
  now ext' = now ext -> limiter_step ext' ip limits = limiter_step ext ip limits.
Proof. intros E. rewrite !limiter_step_unfold, E. reflexivity. Qed.

Lemma missing_configuration_settings ext ext' :
  (forall key, present (process_env ext' !! key) = present (process_env ext !! key)) ->
  CommunityApply.missing_configuration ext' = CommunityApply.missing_configuration ext.
Proof.
  intros E. unfold CommunityApply.missing_configuration. rewrite !E. reflexivity.
Qed.

(** ** What is written to the store *)

Lemma missing_text_clean (s : string) :
  Value.missing_text (Some (JStr s)) = false -> clean (JS.trim s).
Proof.
  unfold Value.missing_text. intros H.
  apply orb_false_iff in H as [_ H]. rewrite trim_blank_length in H.
  split; [|apply trim_fixed].
  intros E. rewrite E in H. discriminate.
Qed.

Lemma present_clean (s : string) :
  present (Some (JS.trim s)) = true -> clean (JS.trim s).
Proof.
  intros H. split; [|apply trim_fixed].
  apply (present_value (Some (JS.trim s))), H.
Qed.

Lemma occurs_includes (c : ascii) (s : string) :
  occurs c s = true -> JS.includes (String c EmptyString) s = true.
Proof.
  induction s as [|a s IH]; [discriminate|].
  cbn [occurs]. rewrite includes_unfold. cbn [JS.startsWith].
  destruct (Ascii.eqb c a); [reflexivity|]. cbn [orb andb]. exact IH.
Qed.

Lemma occurs_trimStart (c : ascii) (s : string) :
  JS.is_space c = false -> occurs c (JS.trimStart s) = occurs c s.
Proof.
  intros Hc. induction s as [|a s IH]; [reflexivity|].
  cbn [JS.trimStart]. destruct (JS.is_space a) eqn:Ha; [|reflexivity].
  cbn [occurs]. rewrite IH.
  destruct (Ascii.eqb c a) eqn:E; [|reflexivity].
  apply Ascii.eqb_eq in E. congruence.
Qed.

Lemma occurs_trimEnd (c : ascii) (s : string) :
  JS.is_space c = false -> occurs c (JS.trimEnd s) = occurs c s.
Proof.
  intros Hc. induction s as [|a s IH]; [reflexivity|].
  cbn [JS.trimEnd occurs].
  destruct (JS.is_space a && JS.is_empty (JS.trimEnd s)) eqn:E.
  - apply andb_true_iff in E as [Ha Hs]. apply is_empty_true in Hs.
    rewrite Hs in IH. rewrite <- IH. cbn [occurs].
    destruct (Ascii.eqb c a) eqn:Eca; [|reflexivity].
    apply Ascii.eqb_eq in Eca. congruence.
  - cbn [occurs]. rewrite IH. reflexivity.
Qed.

(** Trimming keeps the at sign. *)
Lemma includes_at_trim (s : string) :
  JS.includes "@" s = true -> JS.includes "@" (JS.trim s) = true.
Proof.
  intros H. apply includes_occurs in H. apply occurs_includes.
  unfold JS.trim. rewrite occurs_trimEnd, occurs_trimStart by reflexivity. exact H.
Qed.

Lemma optional_text_sanitized (Number_toString : Z -> string) (label : string)
    (v : JSValue) (columns : list (string * JSON)) :
  String.eqb label "Why TTB" = false ->
  CommunityApply.optional_text Number_toString label v = Some columns ->
  Forall sanitized columns.
Proof.
  intros Hl. unfold CommunityApply.optional_text.
  destruct v as [j|]; [|intros [= <-]; constructor].
  destruct (Value.truthy (Some j)); [|intros [= <-]; constructor].
  destruct (CommunityApply.to_String Number_toString j) as [s|]; [|discriminate].
  cbn [mbind option_bind]. intros H. apply (inj Some) in H. subst columns.
  constructor; [|constructor].
  unfold sanitized. cbn [fst snd]. rewrite Hl. apply trim_fixed.
Qed.

Lemma why_column_sanitized (Number_toString : Z -> string) (v : JSValue)
    (columns : list (string * JSON)) :
  CommunityApply.why_column Number_toString v = Some columns ->
  Forall sanitized columns.
Proof.
  unfold CommunityApply.why_column.
  destruct v as [j|]; [|intros [= <-]; constructor].
  destruct (Value.truthy (Some j)); [|intros [= <-]; constructor].
  destruct (CommunityApply.to_String Number_toString j) as [s|]; [|discriminate].
  cbn [mbind option_bind]. intros H. apply (inj Some) in H. subst columns.
  constructor; [|constructor].
  unfold sanitized. cbn [fst snd]. apply substring0_length.
Qed.

Lemma fields_column_sanitized (Number_toString : Z -> string) (v : JSValue)
    (columns : list (string * JSON)) :
  CommunityApply.fields_column Number_toString v = Some columns ->
  Forall sanitized columns.
Proof.
  unfold CommunityApply.fields_column.
  destruct v as [j|]; [|intros [= <-]; constructor].
  destruct (mapM _ _) as [trimmed|] eqn:E; [|discriminate].
  cbn [mbind option_bind]. intros H. apply (inj Some) in H. subst columns.
  constructor; [|constructor].
  unfold sanitized. cbn [fst snd].
  eexists. split; [reflexivity | apply (trimmed_items_clean _ _ _ E)].
Qed.

(** The record of an application starts with the name and the email it
    was given, and every column of it is sanitized. *)
Lemma sanitizedFields_sanitized (Number_toString : Z -> string)
    (name email : string) (body record : JSON) :
  CommunityApply.sanitizedFields Number_toString name email body = Some record ->
  JS.trim name = name -> JS.trim email = email ->
  exists rest,
    record = JObj (("Full Name", JStr name) :: ("Email", JStr email) :: rest) /\
    Forall sanitized (("Full Name", JStr name) :: ("Email", JStr email) :: rest).
Proof.
  unfold CommunityApply.sanitizedFields. intros H Hname Hemail.
  destruct (CommunityApply.optional_text _ "LinkedIn URL" _) as [c1|] eqn:E1; [|discriminate H].
  destruct (CommunityApply.optional_text _ "Personal Website" _) as [c2|] eqn:E2; [|discriminate H].
  destruct (CommunityApply.optional_text _ "Phone Number" _) as [c3|] eqn:E3; [|discriminate H].
  destruct (CommunityApply.optional_text _ "Location" _) as [c4|] eqn:E4; [|discriminate H].
  destruct (CommunityApply.optional_text _ "Most Advanced Degree" _) as [c5|] eqn:E5;
    [|discriminate H].
  destruct (CommunityApply.why_column _ _) as [c6|] eqn:E6; [|discriminate H].
  destruct (CommunityApply.fields_column _ _) as [c7|] eqn:E7; [|discriminate H].
  injection H as <-. eexists. split; [reflexivity|].
  apply Forall_cons; split; [unfold sanitized; cbn; exact Hname|].
  apply Forall_cons; split; [unfold sanitized; cbn; exact Hemail|].
  repeat (apply Forall_app; split;
          [first [ eapply optional_text_sanitized; [|eassumption]; reflexivity
                 | eapply why_column_sanitized; eassumption
                 | eapply fields_column_sanitized; eassumption ]|]).
  repeat constructor.
Qed.

(** ** The two revisions of the application handler *)

Lemma optional_text_relabel (Number_toString : Z -> string) (label label' : string)
    (v : JSValue) :
  label' = earlier_label label ->
  CommunityApply.optional_text Number_toString label' v
  = map (fun column : string * JSON => (earlier_label column.1, column.2))
      <$> CommunityApply.optional_text Number_toString label v.
Proof.
  intros ->. unfold CommunityApply.optional_text. destruct v as [j|]; [|reflexivity].
  destruct (Value.truthy (Some j)); [|reflexivity].
  destruct (CommunityApply.to_String Number_toString j); reflexivity.
Qed.

Lemma why_column_relabel (Number_toString : Z -> string) (v : JSValue) :
  CommunityApplyEarlier.why_column Number_toString v
  = map (fun column : string * JSON => (earlier_label column.1, column.2))
      <$> CommunityApply.why_column Number_toString v.
Proof.
  unfold CommunityApply.why_column, CommunityApplyEarlier.why_column.
  destruct v as [j|]; [|reflexivity].
  destruct (Value.truthy (Some j)); [|reflexivity].
  destruct (CommunityApply.to_String Number_toString j); reflexivity.
Qed.

Lemma fields_column_relabel (Number_toString : Z -> string) (v : JSValue) :
  CommunityApplyEarlier.fields_column Number_toString v
  = map (fun column : string * JSON => (earlier_label column.1, column.2))
      <$> CommunityApply.fields_column Number_toString v.
Proof.
  unfold CommunityApply.fields_column, CommunityApplyEarlier.fields_column.
  destruct v as [j|]; [|reflexivity].
  destruct (mapM _ _); reflexivity.
Qed.

(** The earlier revision builds the record of the later one, under its
    own labels, and throws on the same requests. *)
Lemma sanitizedFields_earlier (Number_toString : Z -> string)
    (name email : string) (body : JSON) :
  AirtableApi.records
    <$> CommunityApplyEarlier.sanitizedFields Number_toString name email body
  = (fun record => relabel (AirtableApi.records record))
    <$> CommunityApply.sanitizedFields Number_toString name email body.
Proof.
  unfold CommunityApplyEarlier.sanitizedFields, CommunityApply.sanitizedFields.
  rewrite (optional_text_relabel _ "LinkedIn URL" "linkedin url") by reflexivity.
  rewrite (optional_text_relabel _ "Personal Website" "personal website") by reflexivity.
  rewrite (optional_text_relabel _ "Phone Number" "phone number") by reflexivity.
  rewrite (optional_text_relabel _ "Location" "location") by reflexivity.
  rewrite (optional_text_relabel _ "Most Advanced Degree" "most advanced degree")
    by reflexivity.
  rewrite why_column_relabel, fields_column_relabel.
  destruct (CommunityApply.optional_text _ "LinkedIn URL" _) as [c1|]; [|reflexivity].
  destruct (CommunityApply.optional_text _ "Personal Website" _) as [c2|]; [|reflexivity].
  destruct (CommunityApply.optional_text _ "Phone Number" _) as [c3|]; [|reflexivity].
  destruct (CommunityApply.optional_text _ "Location" _) as [c4|]; [|reflexivity].
  destruct (CommunityApply.optional_text _ "Most Advanced Degree" _) as [c5|];
    [|reflexivity].
  destruct (CommunityApply.why_column _ _) as [c6|]; [|reflexivity].
  destruct (CommunityApply.fields_column _ _) as [c7|]; [|reflexivity].
  cbn [fmap option_fmap option_map mbind option_bind].
  unfold relabel, record_fields, AirtableApi.records.
  cbn [Value.get Value.lookup_field String.eqb Ascii.eqb Bool.eqb fst snd map].
  rewrite !map_app. reflexivity.
Qed.

Lemma missing_configuration_earlier ext :
  import_meta_env ext = process_env ext ->
  CommunityApplyEarlier.missing_configuration ext = CommunityApply.missing_configuration ext.
Proof.
  intros E. unfold CommunityApplyEarlier.missing_configuration,
    CommunityApply.missing_configuration. rewrite E. reflexivity.
Qed.

(** ** Every run of a handler *)

Section Coverage.

Variable URL_origin : string -> option string.
Variable encodeURIComponent : string -> string.
Variable Number_toString : Z -> string.

Local Abbreviation handle := (handle URL_origin encodeURIComponent Number_toString).

Ltac one_of_the_answers :=
  unfold answers; cbn [In];
  solve [repeat first [left; reflexivity | right]].

(** What every run of a handler has in common: the upstream calls it
    makes, the status it answers with or the exception it throws, and
    what it does to the rate-limit map. *)
Lemma run_summary ep request ext limits out w :
  exec (handle ep request) ext limits = (out, w) ->
  In (upstream_calls w) (call_sequences ep) /\
  match out with
  | Val resp =>
      In (status resp) (statuses ep) /\
      (In resp (answers ep ext) \/
       ep = NewsletterMinimal /\ PROD ext = false /\
       exists r data, net ext EmailOctopus = Responds r /\ resp_ok r = false /\
                      resp_json r = Some data /\ resp = upstream_report r data)
  | Throw e => (exists what, e = TypeError what) /\
               upstream_calls w = [] /\ rateLimitMap w = limits
  end /\
  (rateLimitMap w = limits \/
   is_newsletter ep = true /\
   exists b, limiter_step ext (RateLimit.clientIp request) limits = (Val b, rateLimitMap w)).
Proof.
  intros H.
  destruct ep; run_all H; injection H as <- <-.
  all: split; [calls_known; cbn; auto 10|].
  all: split;
       [ lazymatch goal with
         | |- In _ _ /\ _ =>
             split; [solve [cbn; auto 10]|];
             first [ left; one_of_the_answers
                   | destruct (PROD ext) eqn:HP;
                     [ left; one_of_the_answers
                     | right; split; [reflexivity|]; split; [reflexivity|];
                       do 2 eexists; split; [reflexivity|]; split; [assumption|];
                       split; [eassumption | reflexivity] ] ]
         | |- _ => solve [cbn; eauto 10]
         end |].
  all: cbn [rateLimitMap];
       first [left; reflexivity | right; split; [reflexivity|]; eexists; eassumption].
Qed.

(** X9. A handler answers with one of the status codes of its endpoint:
    200, 400 and 500 everywhere, 502 where the store is the record store,
    429 on the newsletter endpoints, 403 on the application endpoint. *)
Theorem answers_with_known_status ep request ext limits resp w :
  exec (handle ep request) ext limits = (Val resp, w) ->
  In (status resp) (statuses ep).
Proof. intros H. apply run_summary in H. tauto. Qed.

(** X27. Every answer of an endpoint is one of a fixed list of eight,
    except that the minimal newsletter endpoint, outside production only,
    answers an error of the contact list with a report that passes on the
    status and the body of the upstream response. *)
Theorem answers_are_fixed ep request ext limits resp w :
  exec (handle ep request) ext limits = (Val resp, w) ->
  In resp (answers ep ext) \/
  ep = NewsletterMinimal /\ PROD ext = false /\
  exists r data, net ext EmailOctopus = Responds r /\ resp_ok r = false /\
                 resp_json r = Some data /\ resp = upstream_report r data.
Proof. intros H. apply run_summary in H. tauto. Qed.

(** X10. The only exception that leaves a handler is a TypeError, and it
    leaves before anything was sent upstream or counted: a failure of an
    upstream call is always caught. *)
Theorem only_type_errors_escape ep request ext limits e w :
  exec (handle ep request) ext limits = (Throw e, w) ->
  (exists what, e = TypeError what) /\ upstream_calls w = [] /\ rateLimitMap w = limits.
Proof. intros H. apply run_summary in H. tauto. Qed.

(** X11. A request causes at most one write to the store of its endpoint
    (there is no retry), and only after it the notifications, each at
    most once and in a fixed order. *)
Theorem one_write_then_notifications ep request ext limits :
  In (upstream_calls (exec (handle ep request) ext limits).2) (call_sequences ep).
Proof.
  destruct (exec (handle ep request) ext limits) as [out w] eqn:H.
  apply run_summary in H. tauto.
Qed.

(** X12. A request changes at most the rate-limit record of its own
    client key; on the application and merch endpoints it changes none. *)
Theorem request_touches_own_record_only ep request ext limits :
  let w := (exec (handle ep request) ext limits).2 in
  (is_newsletter ep = false -> rateLimitMap w = limits) /\
  (forall ip, ip <> RateLimit.clientIp request -> rateLimitMap w !! ip = limits !! ip).
Proof.
  destruct (exec (handle ep request) ext limits) as [out w] eqn:H. cbn [snd].
  apply run_summary in H as (_ & _ & [-> | [Hep [b Hstep]]]).
  - auto.
  - split; [congruence|]. intros ip Hip.
    apply (limiter_step_frame _ _ ip _ _ _ Hstep). congruence.
Qed.

(** X28. The application and merch endpoints keep no state between
    requests: each request of a sequence is answered as if it were served
    alone, so a submission that is repeated is written again. *)
Theorem requests_served_independently ep arrivals limits :
  is_newsletter ep = false ->
  serve (handle ep) arrivals limits
  = (map (fun a : Ext * Request => (exec (handle ep a.2) a.1 limits).1) arrivals, limits).
Proof.
  intros Hep. induction arrivals as [|[ext request] rest IH]; [reflexivity|].
  cbn [serve map fst snd].
  destruct (exec (handle ep request) ext limits) as [out w] eqn:H.
  assert (Hw : rateLimitMap w = limits).
  { apply run_summary in H as (_ & _ & [Hw | [Hn _]]); [exact Hw | congruence]. }
  rewrite Hw, IH. reflexivity.
Qed.

(** ** The store write and what follows it *)

(** X13. A notification is attempted only when the store answered the
    write with a success status; the request is then answered with the
    success acknowledgment. *)
Theorem notification_means_stored ep request ext limits out w :
  exec (handle ep request) ext limits = (out, w) ->
  notifications w <> [] ->
  exists r, net ext (store ep) = Responds r /\ resp_ok r = true /\
            head (upstream_calls w) = Some (store ep) /\
            out = Val (success_response ep).
Proof.
  intros H Hn.
  destruct ep; run_all H; injection H as <- <-;
    revert Hn; notifications_known; intros Hn; try congruence.
  all: eexists; split; [eassumption|]; split; [assumption|]; split; reflexivity.
Qed.

(** X14. Success is reported only when the store answered the write with
    a success status or, on the newsletter endpoints, with an error that
    says the address is on the list already; the one exception is the
    fake success served to a filled honeypot. *)
Theorem success_is_backed ep request ext limits resp w :
  exec (handle ep request) ext limits = (Val resp, w) ->
  status resp = 200 ->
  (honeypot_protected ep = true /\ upstream_calls w = [] /\
   exists body, req_json request = Some body /\ honeypot_clear body = false) \/
  (exists r, net ext (store ep) = Responds r /\
             head (upstream_calls w) = Some (store ep) /\
             (resp_ok r = true \/
              is_newsletter ep = true /\
              exists data msg,
                resp_json r = Some data /\
                Value.opt_get "message" (Value.opt_get "error" (Some data)) = Some (JStr msg) /\
                EmailOctopusApi.already_on_list (JS.toLowerCase msg) = true)).
Proof.
  intros H Hs.
  destruct ep; run_all H; try discriminate H; injection H as <- <-;
    cbn [status] in Hs; try discriminate Hs; cbn [store].
  all: first
    [ match goal with
      | Hx : EmailOctopusApi.already_on_list EmptyString = true |- _ =>
          vm_compute in Hx; discriminate Hx
      end
    | right; eexists; split; [eassumption|]; split; [calls_known; reflexivity|];
      first [ left; assumption
            | right; split; [reflexivity|]; do 2 eexists;
              split; [eassumption|]; split; eassumption ]
    | left; split; [reflexivity|]; split; [reflexivity|];
      eexists; split; [reflexivity|]; eapply honeypot_stopped; eassumption ].
Qed.

(** X15. A write to the store is made only for a request that has passed
    every check before it: the body parsed, every required field was
    accepted, the configuration is complete, and the origin check, the
    honeypot and the rate limiter (where the endpoint has them) let the
    request through. *)
Theorem store_call_means_checked ep request ext limits out w :
  exec (handle ep request) ext limits = (out, w) ->
  In (store ep) (upstream_calls w) ->
  exists body,
    req_json request = Some body /\
    first_violation ep body = None /\
    config_missing ep ext = false /\
    match ep with
    | Application => same_origin URL_origin request = true
    | NewsletterMinimal | NewsletterWithName =>
        honeypot_clear body = true /\
        limiter_step ext (RateLimit.clientIp request) limits = (Val true, rateLimitMap w)
    | Merch => honeypot_clear body = true
    end.
Proof.
  intros H Hin.
  destruct ep; cbn [store] in Hin; run_all H; injection H as <- <-;
    revert Hin; calls_known; cbn [In]; intros Hin;
    try (exfalso; clear - Hin; intuition discriminate).
  all: eexists; split; [reflexivity|]; split; [fields_accepted|];
       split; [configured_leaf|]; cbn [rateLimitMap].
  all: try (split; [honeypot_let_through | assumption]).
  all: try honeypot_let_through.
  all: try assumption.
Qed.

(** X21. When the store cannot be reached (the call fails without a
    response), the request is answered 500 on every endpoint; the write
    is not tried again and no notification is sent. *)
Theorem store_unreachable_is_500 ep request ext limits out w :
  exec (handle ep request) ext limits = (out, w) ->
  In (store ep) (upstream_calls w) ->
  net ext (store ep) = NetworkError ->
  exists resp, out = Val resp /\ status resp = 500 /\ upstream_calls w = [store ep].
Proof.
  intros H Hin Hnet.
  destruct ep; cbn [store] in Hin, Hnet |- *; run_all H; injection H as <- <-;
    revert Hin; calls_known; cbn [In]; intros Hin;
    try (exfalso; clear - Hin; intuition discriminate).
  all: eexists; split; [reflexivity|]; split; reflexivity.
Qed.

(** ** What is written *)

(** X16. The record the application endpoint writes: it goes to the
    table named by [AIRTABLE_TABLE_ID] when that is set and to the one
    named by [AIRTABLE_TABLE_NAME] otherwise; it is the record that
    [sanitizedFields] builds from the body of the request: its first two
    columns are the [fullName] of the request, trimmed and not empty, and
    the [email] of the request, trimmed and with an at sign; every column
    is sanitized, whatever JSON values the request carried. *)
Theorem application_record_sanitized request ext limits out w t url payload :
  exec (handle Application request) ext limits = (out, w) ->
  In (t, url, payload) (store_writes w) ->
  t = Airtable /\
  url = AirtableApi.table_url (value_of (process_env ext !! "AIRTABLE_BASE_ID"))
          (if present (process_env ext !! "AIRTABLE_TABLE_ID")
           then value_of (process_env ext !! "AIRTABLE_TABLE_ID")
           else encodeURIComponent (value_of (process_env ext !! "AIRTABLE_TABLE_NAME"))) /\
  exists body name email record rest,
    req_json request = Some body /\
    Value.get "fullName" body = Some (JStr name) /\
    Value.get "email" body = Some (JStr email) /\
    CommunityApply.sanitizedFields Number_toString (JS.trim name) (JS.trim email) body
      = Some record /\
    payload = AirtableApi.records record /\
    record_fields payload
      = ("Full Name", JStr (JS.trim name)) :: ("Email", JStr (JS.trim email)) :: rest /\
    JS.trim name <> EmptyString /\
    JS.includes "@" (JS.trim email) = true /\
    Forall sanitized (record_fields payload).
Proof.
  intros H Hin.
  run_all H; injection H as <- <-;
    revert Hin; writes_known; cbn [In]; intros Hin;
    try (exfalso; clear - Hin; tauto).
  all: destruct Hin as [Hin|[]]; injection Hin as <- <- <-.
  all: split; [reflexivity|]; split; [reflexivity|].
  all: match goal with
       | E : CommunityApply.sanitizedFields _ (JS.trim ?name) (JS.trim ?email) ?body
             = Some ?record |- _ =>
           let rest := fresh "rest" in
           let HF := fresh "HF" in
           destruct (sanitizedFields_sanitized _ _ _ _ _ E (trim_fixed _) (trim_fixed _))
             as [rest [-> HF]];
           exists body, name, email, (JObj (("Full Name", JStr (JS.trim name))
                                           :: ("Email", JStr (JS.trim email)) :: rest)), rest;
           split; [reflexivity|]; split; [eassumption|]; split; [eassumption|];
           split; [exact E|]; split; [reflexivity|]; split; [reflexivity|];
           split; [apply missing_text_clean; assumption|];
           split; [apply includes_at_trim; assumption | exact HF]
       end.
Qed.

(** X17. What the newsletter endpoints send to the contact list: one
    contact, to the configured list; the body carries the configured key,
    as address the [email] of the request, trimmed, which [isValidEmail]
    accepts, and the fixed signup source; the named variant adds the
    status and the [firstName] and [lastName] of the request, trimmed,
    neither empty. *)
Theorem newsletter_contact_checked ep request ext limits out w t url payload :
  is_newsletter ep = true ->
  exec (handle ep request) ext limits = (out, w) ->
  In (t, url, payload) (store_writes w) ->
  t = EmailOctopus /\
  url = EmailOctopusApi.contacts_url (value_of (import_meta_env ext !! "EMAILOCTOPUS_LIST_ID")) /\
  exists body email,
    req_json request = Some body /\
    Value.get "email" body = Some (JStr email) /\
    isValidEmail (JS.trim email) = true /\
    let apiKey := value_of (import_meta_env ext !! "EMAILOCTOPUS_API_KEY") in
    match ep with
    | NewsletterWithName =>
        exists first last,
          Value.get "firstName" body = Some (JStr first) /\
          Value.get "lastName" body = Some (JStr last) /\
          JS.trim first <> EmptyString /\ JS.trim last <> EmptyString /\
          payload =
            JObj [("api_key", JStr apiKey);
                  ("email_address", JStr (JS.trim email));
                  ("status", JStr "SUBSCRIBED");
                  ("fields", JObj [("FirstName", JStr (JS.trim first));
                                   ("LastName", JStr (JS.trim last));
                                   ("SignupSource", JStr "website_newsletter")])]
    | _ =>
        payload =
          JObj [("api_key", JStr apiKey);
                ("email_address", JStr (JS.trim email));
                ("fields", JObj [("SignupSource", JStr "website_newsletter")])]
    end.
Proof.
  intros Hep H Hin.
  destruct ep; try discriminate Hep; run_all H; injection H as <- <-;
    revert Hin; writes_known; cbn [In]; intros Hin;
    try (exfalso; clear - Hin; tauto).
  all: destruct Hin as [Hin|[]]; injection Hin as <- <- <-.
  all: split; [reflexivity|]; split; [reflexivity|].
  all: do 2 eexists; split; [reflexivity|]; split; [eassumption|];
       split; [assumption|]; cbv zeta.
  all: try reflexivity.
  all: do 2 eexists; split; [eassumption|]; split; [eassumption|];
       split; [apply missing_text_clean; assumption|];
       split; [apply missing_text_clean; assumption | reflexivity].
Qed.

(** X18. The record the merch endpoint writes goes to the configured merch
    table and holds the [name], [email] and [sizePreference] of the
    request, trimmed, none empty, the email accepted by [isValidEmail]; the
    fixed source; and the [interestedIn] of the request, trimmed, only when
    that is a text and is not empty once trimmed. *)
Theorem merch_record_clean request ext limits out w t url payload :
  exec (handle Merch request) ext limits = (out, w) ->
  In (t, url, payload) (store_writes w) ->
  t = Airtable /\
  url = AirtableApi.table_url (value_of (process_env ext !! "AIRTABLE_BASE_ID"))
          (value_of (process_env ext !! "AIRTABLE_MERCH_TABLE_ID")) /\
  exists body name email size,
    req_json request = Some body /\
    Value.get "name" body = Some (JStr name) /\
    Value.get "email" body = Some (JStr email) /\
    Value.get "sizePreference" body = Some (JStr size) /\
    JS.trim name <> EmptyString /\
    isValidEmail (JS.trim email) = true /\
    JS.trim size <> EmptyString /\
    payload =
      AirtableApi.records
        (JObj ([("Name", JStr (JS.trim name));
                ("Email", JStr (JS.trim email));
                ("Size Preference", JStr (JS.trim size));
                ("Source", JStr "merch_page")] ++
               match Value.get "interestedIn" body with
               | Some (JStr interest) =>
                   if JS.is_empty (JS.trim interest) then []
                   else [("Interested In", JStr (JS.trim interest))]
               | _ => []
               end)).
Proof.
  intros H Hin.
  run_all H; injection H as <- <-;
    revert Hin; writes_known; cbn [In]; intros Hin;
    try (exfalso; clear - Hin; tauto).
  all: destruct Hin as [Hin|[]]; injection Hin as <- <- <-.
  all: split; [reflexivity|]; split; [reflexivity|].
  all: do 4 eexists; split; [reflexivity|];
       split; [eassumption|]; split; [eassumption|]; split; [eassumption|];
       split; [apply missing_text_clean; assumption|];
       split; [assumption|];
       split; [apply missing_text_clean; assumption|].
  all: repeat match goal with
              | E : Value.get "interestedIn" _ = _ |- _ => rewrite E
              end.
  all: unfold present, value_of, JS.truthy_str; cbn [default].
  all: try match goal with
           | |- context [JS.is_empty (JS.trim ?s)] =>
               destruct (JS.is_empty (JS.trim s)); reflexivity
           end.
  all: match goal with
       | E : Value.truthy (Value.get "interestedIn" ?b) = false |- _ =>
           destruct (Value.get "interestedIn" b) as [[| ? | ? | [|? ?] | ? | ?]|];
           try discriminate E; reflexivity
       end.
Qed.

(** ** Refusals *)

(** X19. A 400 is answered only to a body that does not parse or that has
    a required field in violation, the first of which the message names;
    nothing was sent upstream and no counter moved. *)
Theorem bad_request_means_bad_input ep request ext limits resp w :
  exec (handle ep request) ext limits = (Val resp, w) ->
  status resp = 400 ->
  upstream_calls w = [] /\ rateLimitMap w = limits /\
  match req_json request with
  | None => error_text resp = Some "Invalid JSON"
  | Some body =>
      exists field msg,
        first_violation ep body = Some field /\
        error_text resp = Some msg /\ names_field msg field = true
  end.
Proof.
  intros H Hs.
  destruct ep; run_all H; try discriminate H; injection H as <- <-;
    cbn [status] in Hs; try discriminate Hs.
  all: split; [reflexivity|]; split; [reflexivity|].
  all: try reflexivity.
  all: do 2 eexists; split; [first_violation_known|];
       split; [reflexivity | vm_compute; reflexivity].
Qed.

(** X20. A 429 is answered only by a newsletter endpoint, to a submission
    of a client whose record is at the limit in a window that is still
    open; the request leaves no trace: nothing is counted, logged or
    sent. *)
Theorem too_many_requests_means_exhausted ep request ext limits resp w :
  exec (handle ep request) ext limits = (Val resp, w) ->
  status resp = 429 ->
  is_newsletter ep = true /\ submission ep request = true /\
  w = mkWorld limits [] /\
  exists record,
    limits !! RateLimit.clientIp request = Some record /\
    now ext <= resetAt record /\
    RateLimit.RATE_LIMIT_REQUESTS <= count record.
Proof.
  intros H Hs.
  destruct ep; run_all H; try discriminate H; injection H as <- <-;
    cbn [status] in Hs; try discriminate Hs.
  all: split; [reflexivity|].
  all: split; [unfold submission;
               match goal with
               | E : req_json _ = Some _ |- _ => rewrite E
               end;
               apply andb_true_iff; split;
               [honeypot_let_through
               | match goal with
                 | |- context [first_violation ?ep ?b] =>
                     let V := fresh "V" in
                     assert (V : first_violation ep b = None) by fields_accepted;
                     rewrite V; reflexivity
                 end ]|].
  all: split; [reflexivity|].
  all: eapply limiter_refusal; eassumption.
Qed.

(** ** The origin check *)

Lemma cross_origin_run request ext w :
  CommunityApply.cross_origin URL_origin request ext w =
  if present (headers request !! "origin") then
    match URL_origin (value_of (headers request !! "origin")) with
    | None => (Throw (TypeError "Invalid URL"), w)
    | Some o => (Val (negb (String.eqb o (url_origin request))), w)
    end
  else (Val false, w).
Proof.
  unfold CommunityApply.cross_origin.
  destruct (present (headers request !! "origin")); [|reflexivity].
  destruct (URL_origin (value_of (headers request !! "origin"))); reflexivity.
Qed.

(** X22. The application endpoint answers 403 exactly to the requests
    that carry an Origin header, not empty, which parses as a URL whose
    origin is not the request's own; such a request is not looked at any
    further: nothing is logged, sent or counted.  A request whose Origin
    header, not empty, does not parse as a URL is not answered: the
    handler throws a TypeError, also before anything is logged, sent or
    counted. *)
Theorem forbidden_exactly_cross_origin request ext limits :
  let run := exec (handle Application request) ext limits in
  let origin := headers request !! "origin" in
  (run.1 = Val forbidden <->
   present origin = true /\
   exists o, URL_origin (value_of origin) = Some o /\ o <> url_origin request) /\
  (run.1 = Val forbidden -> run.2 = mkWorld limits []) /\
  (present origin = true -> URL_origin (value_of origin) = None ->
   run = (Throw (TypeError "Invalid URL"), mkWorld limits [])).
Proof.
  cbv zeta.
  destruct (exec (handle Application request) ext limits) as [out w] eqn:H.
  cbn [fst snd].
  destruct (same_origin URL_origin request) eqn:Hsame.
  - assert (Hout : out <> Val forbidden)
      by (run_all H; injection H as <- <-; discriminate).
    unfold same_origin in Hsame.
    split; [split; [intros E; contradiction|]|split; [intros E; contradiction|]].
    + intros [P [o [E N]]]. rewrite P, E in Hsame.
      apply String.eqb_eq in Hsame. contradiction.
    + intros P E. rewrite P, E in Hsame. discriminate Hsame.
  - unfold same_origin in Hsame. whnf_all H. rewrite cross_origin_run in H.
    destruct (present (headers request !! "origin")) eqn:P; [|discriminate Hsame].
    destruct (URL_origin (value_of (headers request !! "origin"))) as [o|] eqn:E.
    + rewrite Hsame in H. whnf_all H. injection H as <- <-.
      apply String.eqb_neq in Hsame.
      split; [split; [intros _; split; [reflexivity|]; exists o; split; [reflexivity|exact Hsame]
                     | reflexivity]|].
      split; [reflexivity|]. intros _ [=].
    + whnf_all H. injection H as <- <-.
      split; [split; [intros [=] | intros [_ [o [[=] _]]]]|].
      split; [intros [=] | reflexivity].
Qed.

(** ** A body that is [null] *)

(** X23. A request whose body is the JSON literal [null] is not answered:
    the handler throws a TypeError on the first property it reads, before
    anything is sent or counted.  (On the application endpoint this is so
    for a same-origin request under a complete configuration.) *)
Theorem null_body_is_not_answered ep request ext limits :
  req_json request = Some JNull ->
  match ep with
  | Application =>
      same_origin URL_origin request = true /\ config_missing Application ext = false
  | _ => True
  end ->
  exists w,
    exec (handle ep request) ext limits
      = (Throw (TypeError "Cannot read properties of null"), w) /\
    upstream_calls w = [] /\ rateLimitMap w = limits.
Proof.
  intros Hreq Hstage.
  destruct (exec (handle ep request) ext limits) as [out w] eqn:H.
  destruct ep.
  - destruct Hstage as [Hsame Hconf]. rewrite <- missing_configuration_length in Hconf.
    run_all H; injection H as <- <-; (eexists; split; [reflexivity|]; split; reflexivity).
  - run_all H; injection H as <- <-; (eexists; split; [reflexivity|]; split; reflexivity).
  - run_all H; injection H as <- <-; (eexists; split; [reflexivity|]; split; reflexivity).
  - run_all H; injection H as <- <-; (eexists; split; [reflexivity|]; split; reflexivity).
Qed.

(** ** The two revisions of the application handler *)

(** X24. The later revision of the application handler answers every
    request as the earlier one did (given the same configuration, which
    the earlier one reads from [import.meta.env]), and writes the same
    record to the same table, under the new column labels; the
    notifications are all it adds. *)
Theorem revisions_agree request ext limits :
  import_meta_env ext = process_env ext ->
  let earlier := exec (CommunityApplyEarlier.POST URL_origin encodeURIComponent
                         Number_toString request)
                      ext limits in
  let later := exec (handle Application request) ext limits in
  earlier.1 = later.1 /\
  rateLimitMap earlier.2 = rateLimitMap later.2 /\
  store_writes earlier.2
    = map (fun write : Target * string * JSON => (write.1.1, write.1.2, relabel write.2))
          (store_writes later.2) /\
  notifications earlier.2 = [].
Proof.
  intros Henv.
  destruct (exec (handle Application request) ext limits) as [out w] eqn:H.
  destruct (exec (CommunityApplyEarlier.POST URL_origin encodeURIComponent
                    Number_toString request)
              ext limits) as [out' w'] eqn:H'.
  cbn [fst snd].
  pose proof (f_equal (fun l => (0 <? length l)%nat)
                (missing_configuration_earlier ext Henv)) as Q.
  cbn beta in Q.
  assert (T : present (import_meta_env ext !! "AIRTABLE_TABLE_ID")
              = present (process_env ext !! "AIRTABLE_TABLE_ID")) by (rewrite Henv; reflexivity).
  run_all H; run_all H'.
  all: try match goal with
           | E : CommunityApply.sanitizedFields _ ?name ?email ?body = _,
             E' : CommunityApplyEarlier.sanitizedFields _ ?name ?email ?body = _ |- _ =>
               pose proof (sanitizedFields_earlier Number_toString name email body) as R;
               rewrite E, E' in R; cbn [fmap option_fmap option_map] in R;
               first [discriminate R | injection R as R]
           end.
  all: injection H as <- <-; injection H' as <- <-.
  all: rewrite ?(missing_configuration_earlier ext Henv), ?Henv.
  all: split; [reflexivity|]; split; [reflexivity|]; split; [|reflexivity].
  all: writes_known; try reflexivity.
  all: cbn [map fst snd]; rewrite R; reflexivity.
Qed.

(** ** Configuration values *)

(** X25. Take two configurations that set the same variables, with
    whatever values, under the same clock, build flag and upstream
    answers.  A request gets the same response under both, calls the same
    upstream services in the same order and does the same to the
    rate-limit map: given what the upstreams answer, the response depends
    on which variables are set and not on their values.  (What an
    upstream answers is another matter: outside production the minimal
    newsletter endpoint passes the body of an upstream error on.) *)
Theorem answer_independent_of_values ep request ext ext' limits :
  same_settings ext ext' ->
  let run := exec (handle ep request) ext limits in
  let run' := exec (handle ep request) ext' limits in
  run'.1 = run.1 /\
  upstream_calls run'.2 = upstream_calls run.2 /\
  rateLimitMap run'.2 = rateLimitMap run.2.
Proof.
  intros (HP & Hnow & Hnet & Hpe & Hie).
  destruct (exec (handle ep request) ext limits) as [out w] eqn:H.
  destruct (exec (handle ep request) ext' limits) as [out' w'] eqn:H'.
  cbn [fst snd].
  pose proof (limiter_step_clock ext ext' (RateLimit.clientIp request) limits Hnow) as L.
  pose proof (f_equal (fun l => (0 <? length l)%nat)
                (missing_configuration_settings ext ext' Hpe)) as Q.
  cbn beta in Q.
  assert (C : CommunityApply.cross_origin URL_origin request ext' (mkWorld limits [])
              = CommunityApply.cross_origin URL_origin request ext (mkWorld limits []))
    by (rewrite !cross_origin_run; reflexivity).
  pose proof (Hnet Airtable) as NA. pose proof (Hnet EmailOctopus) as NE.
  pose proof (Hpe "AIRTABLE_PAT"). pose proof (Hpe "AIRTABLE_BASE_ID").
  pose proof (Hpe "AIRTABLE_TABLE_ID"). pose proof (Hpe "AIRTABLE_MERCH_TABLE_ID").
  pose proof (Hpe "SLACK_WEBHOOK_URL"). pose proof (Hpe "SLACK_MERCH_WEBHOOK_URL").
  pose proof (Hpe "RESEND_API_KEY"). pose proof (Hpe "FROM_EMAIL").
  pose proof (Hie "EMAILOCTOPUS_API_KEY"). pose proof (Hie "EMAILOCTOPUS_LIST_ID").
  destruct ep; run_all H;
    try match goal with
        | E : limiter_step ext _ _ = _ |- _ => rewrite E in L
        end;
    run_all H'.
  all: injection H as <- <-; injection H' as <- <-.
  all: rewrite ?(missing_configuration_settings ext ext' Hpe), ?HP.
  all: split; [reflexivity|]; split; [calls_known; reflexivity | reflexivity].
Qed.

End Coverage.

(** ** Examples: the further properties at concrete requests *)

Import Cases.

Lemma isValidEmail_one_at_witness :
  count_char "@" "ada@example.org" = 1%nat /\ no_space "ada@example.org" = true /\
  JS.trim "ada@example.org" = "ada@example.org".
Proof. apply (isValidEmail_one_at "ada@example.org"). vm_compute. reflexivity. Defined.

(** The probe does not tell one API key from another. *)
Lemma probe_hides_api_key_witness :
  let ext := configured 0 unreachable in
  let ext' := mkExt full_env (<["EMAILOCTOPUS_API_KEY" := "another key"]> full_env)
                    true 0 unreachable in
  exec (NewsletterDebug.GET None) ext' ∅ = exec (NewsletterDebug.GET None) ext ∅ /\
  exists report,
    exec (NewsletterDebug.GET None) ext ∅ = (Val (mkResponse 200 report), mkWorld ∅ []).
Proof.
  apply (probe_hides_api_key None (configured 0 unreachable)
           (mkExt full_env (<["EMAILOCTOPUS_API_KEY" := "another key"]> full_env)
                  true 0 unreachable) ∅).
  - reflexivity.
  - vm_compute. reflexivity.
  - vm_compute. reflexivity.
Defined.

Example probe_answer :
  (exec (NewsletterDebug.GET None)
        (mkExt ∅ {[ "EMAILOCTOPUS_API_KEY" := "  ";
                    "EMAILOCTOPUS_LIST_ID" := "0123456789abcdef" ]} true 0 unreachable) ∅).1
  = Val (mkResponse 200
           (JObj [("hasApiKey", JBool false); ("hasListId", JBool true);
                  ("listIdPreview", JStr "abcdef"); ("nodeEnv", JNull);
                  ("isDevFlag", JBool false)])).
Proof. vm_compute. reflexivity. Qed.

Lemma answers_with_known_status_witness : In 502 (statuses Merch).
Proof.
  apply (answers_with_known_status parse_origin encode decimal Merch (post merch_body)
           (configured 0 (upstream 422 (JObj []))) ∅
           (mkResponse 502 (failure "Server error"))
           (exec (MerchWaitlist.POST (post merch_body))
                 (configured 0 (upstream 422 (JObj []))) ∅).2).
  vm_compute. reflexivity.
Defined.

Lemma answers_are_fixed_witness :
  let r := answer 400 (error_reply "Invalid email address") in
  let resp := upstream_report r (error_reply "Invalid email address") in
  let ext := mkExt full_env full_env false 0 (upstream 400 (error_reply "Invalid email address")) in
  In resp (answers NewsletterMinimal ext) \/
  NewsletterMinimal = NewsletterMinimal /\ PROD ext = false /\
  exists r' data, net ext EmailOctopus = Responds r' /\ resp_ok r' = false /\
                  resp_json r' = Some data /\ resp = upstream_report r' data.
Proof.
  apply (answers_are_fixed parse_origin encode decimal NewsletterMinimal (post newsletter_body)
           (mkExt full_env full_env false 0 (upstream 400 (error_reply "Invalid email address")))
           ∅
           (upstream_report (answer 400 (error_reply "Invalid email address"))
              (error_reply "Invalid email address"))
           (exec (Newsletter.POST (post newsletter_body))
                 (mkExt full_env full_env false 0
                        (upstream 400 (error_reply "Invalid email address"))) ∅).2).
  vm_compute. reflexivity.
Defined.

(** Two identical merch signups are both written. *)
Lemma requests_served_independently_witness :
  let arrival := (configured 0 (upstream 200 (JObj [])), post merch_body) in
  serve MerchWaitlist.POST [arrival; arrival] ∅
  = (map (fun a : Ext * Request => (exec (MerchWaitlist.POST a.2) a.1 ∅).1)
         [arrival; arrival], ∅).
Proof.
  apply (requests_served_independently parse_origin encode decimal Merch
           [(configured 0 (upstream 200 (JObj [])), post merch_body);
            (configured 0 (upstream 200 (JObj [])), post merch_body)] ∅).
  reflexivity.
Defined.

(** A location that [String] cannot convert: the handler throws where it
    builds the record, before the write. *)
Lemma only_type_errors_escape_witness :
  let run := exec (CommunityApply.POST parse_origin encode decimal
                     (post unprintable_application))
                  (configured 0 notifications_down) ∅ in
  (exists what, TypeError "Cannot convert object to primitive value" = TypeError what) /\
  upstream_calls run.2 = [] /\ rateLimitMap run.2 = ∅.
Proof.
  apply (only_type_errors_escape parse_origin encode decimal Application
           (post unprintable_application) (configured 0 notifications_down) ∅).
  vm_compute. reflexivity.
Defined.

Example unprintable_application_throws :
  (exec (CommunityApply.POST parse_origin encode decimal (post unprintable_application))
        (configured 0 notifications_down) ∅).1
  = Throw (TypeError "Cannot convert object to primitive value").
Proof. vm_compute. reflexivity. Qed.

Lemma notification_means_stored_witness :
  let ext := configured 0 notifications_down in
  let run := exec (CommunityApply.POST parse_origin encode decimal (post application_body)) ext ∅ in
  exists r, net ext (store Application) = Responds r /\ resp_ok r = true /\
            head (upstream_calls run.2) = Some (store Application) /\
            run.1 = Val (success_response Application).
Proof.
  apply (notification_means_stored parse_origin encode decimal Application (post application_body)
           (configured 0 notifications_down) ∅).
  - vm_compute. reflexivity.
  - vm_compute. discriminate.
Defined.

Lemma success_is_backed_witness :
  let ext := configured 0 (upstream 200 (JObj [])) in
  let run := exec (MerchWaitlist.POST (post merch_body)) ext ∅ in
  (honeypot_protected Merch = true /\ upstream_calls run.2 = [] /\
   exists body, req_json (post merch_body) = Some body /\ honeypot_clear body = false) \/
  (exists r, net ext (store Merch) = Responds r /\
             head (upstream_calls run.2) = Some (store Merch) /\
             (resp_ok r = true \/
              is_newsletter Merch = true /\
              exists data msg,
                resp_json r = Some data /\
                Value.opt_get "message" (Value.opt_get "error" (Some data)) = Some (JStr msg) /\
                EmailOctopusApi.already_on_list (JS.toLowerCase msg) = true)).
Proof.
  apply (success_is_backed parse_origin encode decimal Merch (post merch_body)
           (configured 0 (upstream 200 (JObj []))) ∅ (mkResponse 200 success_true)).
  - vm_compute. reflexivity.
  - reflexivity.
Defined.

Lemma store_call_means_checked_witness :
  exists body,
    req_json (post merch_body) = Some body /\
    first_violation Merch body = None /\
    config_missing Merch (configured 0 unreachable) = false /\
    honeypot_clear body = true.
Proof.
  apply (store_call_means_checked parse_origin encode decimal Merch (post merch_body)
           (configured 0 unreachable) ∅
           (exec (MerchWaitlist.POST (post merch_body)) (configured 0 unreachable) ∅).1
           (exec (MerchWaitlist.POST (post merch_body)) (configured 0 unreachable) ∅).2).
  - vm_compute. reflexivity.
  - vm_compute. auto.
Defined.

Lemma store_unreachable_is_500_witness :
  let run := exec (MerchWaitlist.POST (post merch_body)) (configured 0 unreachable) ∅ in
  exists resp, run.1 = Val resp /\ status resp = 500 /\ upstream_calls run.2 = [store Merch].
Proof.
  apply (store_unreachable_is_500 parse_origin encode decimal Merch (post merch_body)
           (configured 0 unreachable) ∅).
  - vm_compute. reflexivity.
  - vm_compute. auto.
  - reflexivity.
Defined.

Lemma application_record_sanitized_witness :
  let ext := configured 0 notifications_down in
  application_write.1.1 = Airtable /\
  application_write.1.2
    = AirtableApi.table_url (value_of (process_env ext !! "AIRTABLE_BASE_ID"))
        (if present (process_env ext !! "AIRTABLE_TABLE_ID")
         then value_of (process_env ext !! "AIRTABLE_TABLE_ID")
         else encode (value_of (process_env ext !! "AIRTABLE_TABLE_NAME"))) /\
  exists body name email record rest,
    req_json (post detailed_application) = Some body /\
    Value.get "fullName" body = Some (JStr name) /\
    Value.get "email" body = Some (JStr email) /\
    CommunityApply.sanitizedFields decimal (JS.trim name) (JS.trim email) body
      = Some record /\
    application_write.2 = AirtableApi.records record /\
    record_fields application_write.2
      = ("Full Name", JStr (JS.trim name)) :: ("Email", JStr (JS.trim email)) :: rest /\
    JS.trim name <> EmptyString /\
    JS.includes "@" (JS.trim email) = true /\
    Forall sanitized (record_fields application_write.2).
Proof.
  apply (application_record_sanitized parse_origin encode decimal
           (post detailed_application) (configured 0 notifications_down) ∅
           (exec (CommunityApply.POST parse_origin encode decimal (post detailed_application))
                 (configured 0 notifications_down) ∅).1
           (exec (CommunityApply.POST parse_origin encode decimal (post detailed_application))
                 (configured 0 notifications_down) ∅).2).
  - vm_compute. reflexivity.
  - vm_compute. auto.
Defined.

Lemma newsletter_contact_checked_witness :
  let ext := configured 0 (upstream 200 (JObj [])) in
  newsletter_write.1.1 = EmailOctopus /\
  newsletter_write.1.2
    = EmailOctopusApi.contacts_url (value_of (import_meta_env ext !! "EMAILOCTOPUS_LIST_ID")) /\
  exists body email,
    req_json (post named_body) = Some body /\
    Value.get "email" body = Some (JStr email) /\
    isValidEmail (JS.trim email) = true /\
    let apiKey := value_of (import_meta_env ext !! "EMAILOCTOPUS_API_KEY") in
    exists first last,
      Value.get "firstName" body = Some (JStr first) /\
      Value.get "lastName" body = Some (JStr last) /\
      JS.trim first <> EmptyString /\ JS.trim last <> EmptyString /\
      newsletter_write.2 =
        JObj [("api_key", JStr apiKey);
              ("email_address", JStr (JS.trim email));
              ("status", JStr "SUBSCRIBED");
              ("fields", JObj [("FirstName", JStr (JS.trim first));
                               ("LastName", JStr (JS.trim last));
                               ("SignupSource", JStr "website_newsletter")])].
Proof.
  apply (newsletter_contact_checked parse_origin encode decimal NewsletterWithName
           (post named_body) (configured 0 (upstream 200 (JObj []))) ∅
           (exec (NewsletterNamed.POST (post named_body))
                 (configured 0 (upstream 200 (JObj []))) ∅).1
           (exec (NewsletterNamed.POST (post named_body))
                 (configured 0 (upstream 200 (JObj []))) ∅).2).
  - reflexivity.
  - vm_compute. reflexivity.
  - vm_compute. auto.
Defined.

Lemma merch_record_clean_witness :
  let ext := configured 0 notifications_down in
  merch_write.1.1 = Airtable /\
  merch_write.1.2
    = AirtableApi.table_url (value_of (process_env ext !! "AIRTABLE_BASE_ID"))
        (value_of (process_env ext !! "AIRTABLE_MERCH_TABLE_ID")) /\
  exists body name email size,
    req_json (post merch_interest) = Some body /\
    Value.get "name" body = Some (JStr name) /\
    Value.get "email" body = Some (JStr email) /\
    Value.get "sizePreference" body = Some (JStr size) /\
    JS.trim name <> EmptyString /\
    isValidEmail (JS.trim email) = true /\
    JS.trim size <> EmptyString /\
    merch_write.2 =
      AirtableApi.records
        (JObj ([("Name", JStr (JS.trim name));
                ("Email", JStr (JS.trim email));
                ("Size Preference", JStr (JS.trim size));
                ("Source", JStr "merch_page")] ++
               match Value.get "interestedIn" body with
               | Some (JStr interest) =>
                   if JS.is_empty (JS.trim interest) then []
                   else [("Interested In", JStr (JS.trim interest))]
               | _ => []
               end)).
Proof.
  apply (merch_record_clean parse_origin encode decimal (post merch_interest)
           (configured 0 notifications_down) ∅
           (exec (MerchWaitlist.POST (post merch_interest)) (configured 0 notifications_down) ∅).1
           (exec (MerchWaitlist.POST (post merch_interest)) (configured 0 notifications_down) ∅).2).
  - vm_compute. reflexivity.
  - vm_compute. auto.
Defined.

(** The record of an application that fills optional fields in. *)
Example detailed_application_record :
  store_writes
    (exec (CommunityApply.POST parse_origin encode decimal (post detailed_application))
          (configured 0 notifications_down) ∅).2
  = [application_write].
Proof. vm_compute. reflexivity. Qed.

Lemma bad_request_means_bad_input_witness :
  let request := post (JObj [("email", JStr "a@b.com")]) in
  let run := exec (MerchWaitlist.POST request) (configured 0 unreachable) ∅ in
  upstream_calls run.2 = [] /\ rateLimitMap run.2 = ∅ /\
  exists field msg,
    first_violation Merch (JObj [("email", JStr "a@b.com")]) = Some field /\
    error_text (mkResponse 400 (failure "Name is required")) = Some msg /\
    names_field msg field = true.
Proof.
  apply (bad_request_means_bad_input parse_origin encode decimal Merch
           (post (JObj [("email", JStr "a@b.com")])) (configured 0 unreachable) ∅
           (mkResponse 400 (failure "Name is required"))).
  - vm_compute. reflexivity.
  - reflexivity.
Defined.

Lemma too_many_requests_means_exhausted_witness :
  let ext := configured 1000 unreachable in
  is_newsletter NewsletterMinimal = true /\
  submission NewsletterMinimal (post newsletter_body) = true /\
  mkWorld exhausted [] = mkWorld exhausted [] /\
  exists record,
    exhausted !! RateLimit.clientIp (post newsletter_body) = Some record /\
    now ext <= resetAt record /\
    RateLimit.RATE_LIMIT_REQUESTS <= count record.
Proof.
  apply (too_many_requests_means_exhausted parse_origin encode decimal NewsletterMinimal
           (post newsletter_body) (configured 1000 unreachable) exhausted
           (mkResponse 429 (failure "Too many requests. Please try again later."))).
  - vm_compute. reflexivity.
  - reflexivity.
Defined.

Lemma null_body_is_not_answered_witness :
  exists w,
    exec (MerchWaitlist.POST (post JNull)) (configured 0 unreachable) ∅
      = (Throw (TypeError "Cannot read properties of null"), w) /\
    upstream_calls w = [] /\ rateLimitMap w = ∅.
Proof.
  apply (null_body_is_not_answered parse_origin encode decimal Merch (post JNull)
           (configured 0 unreachable) ∅).
  - reflexivity.
  - exact I.
Defined.

(** With an Origin header that names another site, the application
    endpoint answers 403; without, it goes on. *)
Example cross_site_post :
  let request := mkRequest {[ "origin" := "https://elsewhere.example" ]} site
                           (Some application_body) in
  exec (CommunityApply.POST parse_origin encode decimal request) (configured 0 unreachable) ∅
  = (Val forbidden, mkWorld ∅ []).
Proof. vm_compute. reflexivity. Qed.

(** With an Origin header that is no URL, the handler throws. *)
Example unparsable_origin :
  let request := mkRequest {[ "origin" := "null" ]} site (Some application_body) in
  exec (CommunityApply.POST web_origin encode decimal request) (configured 0 unreachable) ∅
  = (Throw (TypeError "Invalid URL"), mkWorld ∅ []).
Proof. vm_compute. reflexivity. Qed.

Lemma revisions_agree_witness :
  let ext := configured 0 notifications_down in
  let earlier := exec (CommunityApplyEarlier.POST parse_origin encode decimal
                         (post application_body))
                      ext ∅ in
  let later := exec (CommunityApply.POST parse_origin encode decimal (post application_body))
                    ext ∅ in
  earlier.1 = later.1 /\
  rateLimitMap earlier.2 = rateLimitMap later.2 /\
  store_writes earlier.2
    = map (fun write : Target * string * JSON => (write.1.1, write.1.2, relabel write.2))
          (store_writes later.2) /\
  notifications earlier.2 = [].
Proof.
  apply (revisions_agree parse_origin encode decimal (post application_body)
           (configured 0 notifications_down) ∅).
  reflexivity.
Defined.

(** The record of the earlier revision, for the same request. *)
Example earlier_record :
  store_writes
    (exec (CommunityApplyEarlier.POST parse_origin encode decimal (post application_body))
          (configured 0 notifications_down) ∅).2
  = [(Airtable, "https://api.airtable.com/v0/app/tbl",
      AirtableApi.records
        (JObj [("full name", JStr "Ada Byron"); ("email", JStr "a@b.com");
               ("add to mailing list", JBool false)]))].
Proof. vm_compute. reflexivity. Qed.

Lemma rotated_same_settings t answers :
  same_settings (configured t answers) (rotated t answers).
Proof.
  repeat split; intros key; cbn [process_env import_meta_env rotated configured].
  - rewrite !lookup_insert. repeat case_decide; subst; reflexivity.
  - rewrite !lookup_insert. repeat case_decide; subst; reflexivity.
Qed.

Lemma answer_independent_of_values_witness :
  let run := exec (MerchWaitlist.POST (post merch_body))
                  (configured 0 (upstream 422 (JObj []))) ∅ in
  let run' := exec (MerchWaitlist.POST (post merch_body))
                   (rotated 0 (upstream 422 (JObj []))) ∅ in
  run'.1 = run.1 /\
  upstream_calls run'.2 = upstream_calls run.2 /\
  rateLimitMap run'.2 = rateLimitMap run.2.
Proof.
  apply (answer_independent_of_values parse_origin encode decimal Merch (post merch_body)
           (configured 0 (upstream 422 (JObj []))) (rotated 0 (upstream 422 (JObj []))) ∅).
  apply rotated_same_settings.
Defined.

(** The line logged for a failed write names the table and not the base. *)
Example redacted_log :
  log_lines (exec (MerchWaitlist.POST (post merch_body))
                  (rotated 0 (upstream 422 (JObj []))) ∅).2
  = [Console LogError "Airtable API error:"
       [JObj [("status", JNum 422); ("statusText", JStr "");
              ("urlPath", JStr "https://api.airtable.com/v0/[REDACTED]/merch");
              ("body", JStr "")]]].
Proof. vm_compute. reflexivity. Qed.
